(** * WcDT: the Gaussian diffusion controller of [net_works/diffusion.py]

    A shallow embedding of the diffusion process: the coefficient schedule
    built by [GaussianDiffusion.__init__], the extraction utility [extract],
    the forward noising [perturb_x], the reverse step [remove_noise], the
    sampling loop [sample], the masked loss [get_losses] and the training
    entry point [forward], together with the shape discipline of the two
    denoisers ([UnetDiffusionModel], [DitDiffusionModel]).

    Numbers are kept behind the interface [Scalar]: every structural result
    holds for any arithmetic, and the IEEE-754 instances (binary32 for torch
    tensors, binary64 for numpy arrays) are taken from [SpecFloat]. *)

From Stdlib Require Import String.
From Stdlib Require Import List ZArith Lia Bool Arith.
From Stdlib Require Import Floats.SpecFloat.
From Stdlib Require Import Reals Lra.
Import ListNotations.

Set Implicit Arguments.
Local Open Scope nat_scope.

(** ** Python results *)

(** The exceptions the modelled code can raise.  torch reports shape, index
    and range problems all as [RuntimeError]; they are kept apart here by
    what went wrong. *)
Inductive exn : Type :=
| ValueError        (* Python ValueError: bad constructor string, batch norm on one value *)
| TypeError         (* Python TypeError: float - list, calling None *)
| ShapeMismatch     (* RuntimeError: sizes that do not broadcast, multiply or reshape *)
| ChannelMismatch   (* RuntimeError: batch norm over a channel count it was not built for *)
| IndexOutOfBounds  (* RuntimeError / IndexError: gather or shape index out of range *)
| EmptyRange        (* RuntimeError: random_ expects 'from' to be less than 'to' *)
| NegativeDimension (* RuntimeError: a tensor or layer of negative size *)
| KeyError.         (* Python KeyError: a key the batch dict does not have *)

Inductive result (A : Type) : Type :=
| Ok (a : A)
| Raise (e : exn).
Arguments Ok {A} a.
Arguments Raise {A} e.

Definition rbind {A B} (r : result A) (k : A -> result B) : result B :=
  match r with
  | Ok a => k a
  | Raise e => Raise e
  end.

Declare Scope result_scope.
Delimit Scope result_scope with result.
Notation "'let?' x ':=' r 'in' k" := (rbind r (fun x => k))
  (at level 10, x name, r at level 100, k at level 200) : result_scope.

(** ** Scalars *)

(** The arithmetic a tensor element supports.  [of_Z] is the conversion of an
    integer (a timestep index, the literal [1]) to the element type. *)
Class Scalar (F : Type) : Type := {
  fadd : F -> F -> F;
  fsub : F -> F -> F;
  fmul : F -> F -> F;
  fdiv : F -> F -> F;
  fsqrt : F -> F;
  of_Z : Z -> F
}.

(** ** Lists *)

Section ListOps.
Context {A B C : Type}.

Fixpoint zip_with (f : A -> B -> C) (l1 : list A) (l2 : list B) : list C :=
  match l1, l2 with
  | x :: l1', y :: l2' => f x y :: zip_with f l1' l2'
  | _, _ => []
  end.

(** [chunks k n l]: the first [n] consecutive blocks of [k] elements. *)
Fixpoint chunks (k n : nat) (l : list A) : list (list A) :=
  match n with
  | 0 => []
  | S n' => firstn k l :: chunks k n' (skipn k l)
  end.

(** Monadic map over a list, left to right, stopping at the first raise. *)
Fixpoint mapR (f : A -> result B) (l : list A) : result (list B) :=
  match l with
  | [] => Ok []
  | x :: l' =>
      match f x with
      | Raise e => Raise e
      | Ok y => match mapR f l' with
                | Raise e => Raise e
                | Ok ys => Ok (y :: ys)
                end
      end
  end.
End ListOps.

(** Python's [range(start, stop, -1)]: [start], [start - 1], ... down to
    [stop + 1]. *)
Definition range_down (start stop : Z) : list Z :=
  map (fun k => (start - Z.of_nat k)%Z) (seq 0 (Z.to_nat (start - stop))).

(** ** Tensors *)

(** A tensor is its shape and its elements in row-major order. *)
Record tensor (F : Type) : Type := mkTensor {
  shape : list nat;
  data : list F
}.
Arguments mkTensor {F} shape data.

Definition numel (s : list nat) : nat := fold_right Nat.mul 1 s.

Definition wf_tensor {F} (x : tensor F) : Prop :=
  length (data x) = numel (shape x).

Definition rank {F} (x : tensor F) : nat := length (shape x).

Fixpoint shape_eqb (s1 s2 : list nat) : bool :=
  match s1, s2 with
  | [], [] => true
  | d1 :: r1, d2 :: r2 => (d1 =? d2) && shape_eqb r1 r2
  | _, _ => false
  end.

(** Left-padding of a shape with ones, up to rank [r] (broadcasting aligns
    shapes on their last axis). *)
Definition pad_shape (r : nat) (s : list nat) : list nat :=
  repeat 1 (r - length s) ++ s.

(** The broadcast of two shapes of the same rank: each pair of sizes is
    equal, or one of them is 1. *)
Fixpoint broadcast_shape (s1 s2 : list nat) : option (list nat) :=
  match s1, s2 with
  | [], [] => Some []
  | d1 :: r1, d2 :: r2 =>
      match broadcast_shape r1 r2 with
      | None => None
      | Some r =>
          if d1 =? d2 then Some (d1 :: r)
          else if d1 =? 1 then Some (d2 :: r)
          else if d2 =? 1 then Some (d1 :: r)
          else None
      end
  | _, _ => None
  end.

(** The elements of the broadcast of [f] over two tensors of shapes [s1] and
    [s2] (same rank, broadcastable). *)
Fixpoint broadcast_data {F} (f : F -> F -> F) (s1 s2 : list nat)
    (d1 d2 : list F) : list F :=
  match s1, s2 with
  | n1 :: r1, n2 :: r2 =>
      let c1 := chunks (numel r1) n1 d1 in
      let c2 := chunks (numel r2) n2 d2 in
      if n1 =? n2 then concat (zip_with (broadcast_data f r1 r2) c1 c2)
      else if n1 =? 1 then concat (map (fun y => broadcast_data f r1 r2 d1 y) c2)
      else concat (map (fun x => broadcast_data f r1 r2 x d2) c1)
  | _, _ =>
      match d1, d2 with
      | x :: _, y :: _ => [f x y]
      | _, _ => []
      end
  end.

Section TensorOps.
Context {F : Type}.

(** [x op y] with broadcasting. *)
Definition tbin (f : F -> F -> F) (x y : tensor F) : result (tensor F) :=
  let r := Nat.max (rank x) (rank y) in
  let s1 := pad_shape r (shape x) in
  let s2 := pad_shape r (shape y) in
  match broadcast_shape s1 s2 with
  | None => Raise ShapeMismatch
  | Some s => Ok (mkTensor s (broadcast_data f s1 s2 (data x) (data y)))
  end.

(** [x op= y]: the in-place form, which also needs the broadcast shape to
    be the shape of [x]. *)
Definition tbin_inplace (f : F -> F -> F) (x y : tensor F) : result (tensor F) :=
  match tbin f x y with
  | Raise e => Raise e
  | Ok z => if shape_eqb (shape z) (shape x) then Ok z else Raise ShapeMismatch
  end.

(** [a.gather(-1, t)] for a 1-D [a] and a 1-D index tensor [t]. *)
Definition gather (a : list F) (t : list Z) : result (list F) :=
  mapR (fun i =>
          if ((0 <=? i) && (i <? Z.of_nat (length a)))%Z
          then match nth_error a (Z.to_nat i) with
               | Some v => Ok v
               | None => Raise IndexOutOfBounds
               end
          else Raise IndexOutOfBounds) t.

(** [x.reshape(s)] / [x.view(s)]: same elements, new shape of the same size. *)
Definition reshape (x : tensor F) (s : list nat) : result (tensor F) :=
  if numel s =? numel (shape x) then Ok (mkTensor s (data x))
  else Raise ShapeMismatch.

(** [torch.flatten(x, start_dim=k)]: the axis [k] has to exist. *)
Definition flatten (k : nat) (x : tensor F) : result (tensor F) :=
  if k <? rank x
  then Ok (mkTensor (firstn k (shape x) ++ [numel (skipn k (shape x))]) (data x))
  else Raise IndexOutOfBounds.

(** [x.shape[k]]. *)
Definition shape_at (k : nat) (x : tensor F) : result nat :=
  match nth_error (shape x) k with
  | Some d => Ok d
  | None => Raise IndexOutOfBounds
  end.

(** [x.view(dims)] where one entry of [dims] may be [-1] and is then
    inferred from the number of elements. *)
Definition py_view (dims : list Z) (x : tensor F) : result (tensor F) :=
  if existsb (fun d => (d <? -1)%Z) dims then Raise NegativeDimension
  else
    let known := map Z.to_nat (filter (fun d => (0 <=? d)%Z) dims) in
    let holes := length (filter (fun d => (d =? -1)%Z) dims) in
    let p := numel known in
    let n := numel (shape x) in
    match holes with
    | 0 => reshape x (map Z.to_nat dims)
    | 1 =>
        if (p =? 0) || negb (n mod p =? 0) then Raise ShapeMismatch
        else Ok (mkTensor (map (fun d => if (d =? -1)%Z then n / p else Z.to_nat d) dims)
                   (data x))
    | _ => Raise ShapeMismatch
    end.

(** The multi-index of the flat position [k] in a tensor of shape [s], and
    back. *)
Fixpoint unravel (s : list nat) (k : nat) : list nat :=
  match s with
  | [] => []
  | _ :: r => k / numel r :: unravel r (k mod numel r)
  end.

Fixpoint ravel (s idx : list nat) : nat :=
  match s, idx with
  | _ :: r, i :: idx' => i * numel r + ravel r idx'
  | _, _ => 0
  end.

Definition swap_axes {A} (i j : nat) (l : list A) : list A :=
  match nth_error l i, nth_error l j with
  | Some a, Some b =>
      map (fun k => match nth_error l k with
                    | Some c => if k =? i then b else if k =? j then a else c
                    | None => a
                    end) (seq 0 (length l))
  | _, _ => l
  end.

(** [torch.transpose(x, i, j)], axes counted from the front. *)
Definition transpose (i j : nat) (x : tensor F) : result (tensor F) :=
  if (i <? rank x) && (j <? rank x) then
    let s' := swap_axes i j (shape x) in
    Ok (mkTensor s'
          (flat_map (fun k =>
                       match nth_error (data x)
                               (ravel (shape x) (swap_axes i j (unravel s' k))) with
                       | Some v => [v]
                       | None => []
                       end) (seq 0 (numel s'))))
  else Raise IndexOutOfBounds.

(** [x.repeat(reps)]: the elements tiled [reps] times along each axis. *)
Fixpoint tile_data (reps s : list nat) (d : list F) : list F :=
  match reps, s with
  | r :: reps', n :: s' =>
      concat (repeat (concat (map (tile_data reps' s') (chunks (numel s') n d))) r)
  | _, _ => d
  end.

Definition trepeat (reps : list nat) (x : tensor F) : result (tensor F) :=
  if length reps <? rank x then Raise ShapeMismatch
  else
    let s := pad_shape (length reps) (shape x) in
    Ok (mkTensor (zip_with Nat.mul reps s) (tile_data reps s (data x))).

(** [torch.cat(xs, dim=-1)] for tensors of one rank that agree on every
    axis but the last. *)
Definition last_dim (s : list nat) : nat := last s 1.

Definition cat_last (xs : list (tensor F)) : result (tensor F) :=
  match xs with
  | [] => Raise ValueError
  | x :: rest =>
      let lead := removelast (shape x) in
      if (0 <? rank x)
         && forallb (fun y => shape_eqb (removelast (shape y)) lead
                              && (0 <? rank y)) rest
      then
        let rows := numel lead in
        Ok (mkTensor (lead ++ [fold_right Nat.add 0 (map (fun y => last_dim (shape y)) xs)])
              (concat (map (fun r =>
                              concat (map (fun y =>
                                             firstn (last_dim (shape y))
                                                    (skipn (r * last_dim (shape y)) (data y)))
                                          xs))
                           (seq 0 rows))))
      else Raise ShapeMismatch
  end.
End TensorOps.

(** Python's negative axis numbers: [-1] is the last axis. *)
Definition norm_dim (r : nat) (d : Z) : option nat :=
  if ((0 <=? d) && (d <? Z.of_nat r))%Z then Some (Z.to_nat d)
  else if ((- Z.of_nat r <=? d) && (d <? 0))%Z then Some (Z.to_nat (Z.of_nat r + d))
  else None.

Definition py_transpose {F} (i j : Z) (x : tensor F) : result (tensor F) :=
  match norm_dim (rank x) i, norm_dim (rank x) j with
  | Some i', Some j' => transpose i' j' x
  | _, _ => Raise IndexOutOfBounds
  end.

(** ** State and exceptions *)

(** A computation over a state [St] that returns or raises; the state a
    raising computation leaves behind is kept, as Python keeps the effects
    that happened before an exception. *)
Definition SE (St A : Type) : Type := St -> result A * St.

Definition ret {St A} (a : A) : SE St A := fun s => (Ok a, s).
Definition raise {St A} (e : exn) : SE St A := fun s => (Raise e, s).
Definition bind {St A B} (m : SE St A) (k : A -> SE St B) : SE St B :=
  fun s => match m s with
           | (Ok a, s') => k a s'
           | (Raise e, s') => (Raise e, s')
           end.
Definition lift {St A} (r : result A) : SE St A := fun s => (r, s).

Declare Scope se_scope.
Delimit Scope se_scope with se.
Notation "x <- m ;; k" := (bind m (fun x => k))
  (at level 61, m at next level, right associativity) : se_scope.
Notation "m ;;; k" := (bind m (fun _ => k))
  (at level 61, right associativity) : se_scope.

(** What a run of the controller does that an observer can count: calls of
    the denoiser and draws from the random generator.  The log is written by
    the primitives below and read by no modelled code. *)
Inductive event : Type :=
| EvModel (t_batch : list Z)           (* self.diffusion_model(_, t_batch, _) *)
| EvRandn (s : list nat)               (* torch.randn_like(x), x of shape s *)
| EvRandint (low high : Z) (n : nat).  (* torch.randint(low, high, (n,)) *)

Record world (S : Type) : Type := mkWorld {
  st : S;
  log : list event
}.
Arguments mkWorld {S} st log.

Definition is_model (e : event) : bool :=
  match e with EvModel _ => true | _ => false end.
Definition is_randn (e : event) : bool :=
  match e with EvRandn _ => true | _ => false end.

(** ** The torch runtime *)

(** The order in which a reduction adds its elements: a tree over their
    positions.  A position past the end reads as the zero an accumulator
    starts from. *)
Inductive sum_order : Type :=
| Term (i : nat)
| Plus (l r : sum_order).

Fixpoint sum_in {F} `{Scalar F} (o : sum_order) (d : list F) : F :=
  match o with
  | Term i => nth i d (of_Z 0)
  | Plus l r => fadd (sum_in l d) (sum_in r d)
  end.

(** The positions a summation tree adds, from the left. *)
Fixpoint terms (o : sum_order) : list nat :=
  match o with
  | Term i => [i]
  | Plus l r => terms l ++ terms r
  end.

(** The tree [o] is a sum of [n] elements: each position below [n] is added
    exactly once. *)
Definition adds_each_once (n : nat) (o : sum_order) : Prop :=
  forall i, i < n -> count_occ Nat.eq_dec (terms o) i = 1.

(** What the model takes from torch and leaves uninterpreted: the random
    generator, the numerics of the trainable layers ([layer_num path x s] are
    the elements of the output, of shape [s], of the layer at [path] of the
    module tree on the input [x]; its parameters and running statistics live
    in the state [S]), the elementwise activations, whether the module is in
    training mode, and the order in which [torch.sum] adds [n] elements
    (lanes, blocks, pairs: it is the kernel's choice, and the rounded result
    depends on it; whichever it is, it adds every element once).
    [cross_attention] is the block of
    [net_works/transformer.py], which is not among the modelled sources: it
    is taken as a parameter, named by its path and the two sizes it was
    constructed with. *)
Class Torch (F S : Type) : Type := {
  draw_normal : nat -> S -> list F * S;
  draw_int : Z -> Z -> nat -> S -> list Z * S;
  layer_num : string -> tensor F -> list nat -> S -> list F * S;
  leaky_relu : F -> F;
  relu : F -> F;
  tanh : F -> F;
  training : S -> bool;
  reduction : nat -> sum_order;
  reduction_complete : forall n, adds_each_once n (reduction n);
  cross_attention : string -> Z -> Z -> tensor F -> tensor F -> SE S (tensor F)
}.

Section Runtime.
Context {F S : Type} `{Scalar F} `{Torch F S}.
Local Open Scope se_scope.

Definition emit (e : event) : SE (world S) unit :=
  fun w => (Ok tt, mkWorld (st w) (log w ++ [e])).

(** A computation of the module state, run inside the world. *)
Definition in_world {A} (m : SE S A) : SE (world S) A :=
  fun w => let (r, s') := m (st w) in (r, mkWorld s' (log w)).

(** [torch.randn_like(x)]. *)
Definition randn_like (x : tensor F) : SE (world S) (tensor F) :=
  emit (EvRandn (shape x)) ;;;
  in_world (fun s => let (d, s') := draw_normal (numel (shape x)) s in
                     (Ok (mkTensor (shape x) d), s')).

(** [torch.randint(low, high, (n,))]. *)
Definition randint (low high : Z) (n : nat) : SE (world S) (list Z) :=
  emit (EvRandint low high n) ;;;
  if (low <? high)%Z
  then in_world (fun s => let (d, s') := draw_int low high n s in (Ok d, s'))
  else raise EmptyRange.

(** The sum of the elements [d], added in the order of the runtime. *)
Definition total (d : list F) : F := sum_in (reduction (length d)) d.

(** [torch.sum(x)]: a 0-d tensor. *)
Definition tsum (x : tensor F) : tensor F := mkTensor [] [total (data x)].

Definition tmap (f : F -> F) (x : tensor F) : tensor F :=
  mkTensor (shape x) (map f (data x)).
End Runtime.

(** ** The layers *)

Section Modules.
Context {F S : Type} `{Scalar F} `{Torch F S}.
Local Open Scope se_scope.

(** A size given as a Python integer: torch refuses a negative one. *)
Definition size_of (z : Z) : result nat :=
  if (z <? 0)%Z then Raise NegativeDimension else Ok (Z.to_nat z).

(** [nn.Linear(in_features, out_features)]. *)
Record Linear : Type := mkLinear {
  lin_path : string;
  in_features : nat;
  out_features : nat
}.

Definition Linear_init (path : string) (i o : Z) : result Linear :=
  (let? i' := size_of i in
   let? o' := size_of o in
   Ok (mkLinear path i' o'))%result.

Definition Linear_forward (l : Linear) (x : tensor F) : SE S (tensor F) :=
  if (0 <? rank x) && (last_dim (shape x) =? in_features l)
  then fun s => let out_shape := removelast (shape x) ++ [out_features l] in
                let (d, s') := layer_num (lin_path l) x out_shape s in
                (Ok (mkTensor out_shape d), s')
  else raise ShapeMismatch.

(** [nn.BatchNorm1d(n)] (inputs of rank 2 or 3) and [nn.BatchNorm2d(n)]
    (rank 4): the channel axis is axis 1. *)
Record BatchNorm : Type := mkBatchNorm {
  bn_path : string;
  num_features : nat;
  bn_ranks : list nat
}.

Definition BatchNorm1d (path : string) (n : nat) : BatchNorm :=
  mkBatchNorm path n [2; 3].
Definition BatchNorm2d (path : string) (n : nat) : BatchNorm :=
  mkBatchNorm path n [4].

Definition size_prods (s : list nat) : nat :=
  nth 0 s 1 * numel (skipn 2 s).

(** The rank check is the module's, the single-value check is made in
    training mode before the kernel is entered, and the kernel compares the
    channel count with the module's only when the input has an element: an
    empty input comes back as an empty output. *)
Definition BatchNorm_forward (bn : BatchNorm) (x : tensor F) : SE S (tensor F) :=
  if negb (existsb (Nat.eqb (rank x)) (bn_ranks bn)) then raise ValueError
  else fun s =>
    if training s && (size_prods (shape x) =? 1) then (Raise ValueError, s)
    else if (numel (shape x) =? 0) || (nth 1 (shape x) 0 =? num_features bn)
    then let (d, s') := layer_num (bn_path bn) x (shape x) s in
         (Ok (mkTensor (shape x) d), s')
    else (Raise ChannelMismatch, s).

(** [nn.LayerNorm(n)]: normalises the last axis, which has to be [n] long. *)
Record LayerNorm : Type := mkLayerNorm {
  ln_path : string;
  normalized_shape : nat
}.

Definition LayerNorm_forward (ln : LayerNorm) (x : tensor F) : SE S (tensor F) :=
  if (0 <? rank x) && (last_dim (shape x) =? normalized_shape ln)
  then fun s => let (d, s') := layer_num (ln_path ln) x (shape x) s in
                (Ok (mkTensor (shape x) d), s')
  else raise ShapeMismatch.

(** *** [LinearLayer] *)

Record LinearLayer : Type := mkLinearLayer {
  layer : Linear;          (* nn.Sequential(nn.Linear, nn.LeakyReLU) *)
  normal : BatchNorm
}.

Definition LinearLayer_init (path : string) (input_dim output_dim : Z)
  : result LinearLayer :=
  (let? l := Linear_init (path ++ ".layer.0")%string input_dim output_dim in
   Ok (mkLinearLayer l (BatchNorm1d (path ++ ".normal")%string (out_features l))))%result.

Definition LinearLayer_forward (m : LinearLayer) (x : tensor F) : SE S (tensor F) :=
  y <- Linear_forward (layer m) x ;;
  let linear_output := tmap leaky_relu y in
  linear_output <- lift (py_transpose (-1) (-2) linear_output) ;;
  normal_output <- BatchNorm_forward (normal m) linear_output ;;
  lift (py_transpose (-1) (-2) normal_output).

(** *** [Decoder] *)

Record Decoder : Type := mkDecoder {
  up : LinearLayer;
  cat_layer : LinearLayer
}.

Definition Decoder_init (path : string) (input_dim middle_dim output_dim : Z)
  : result Decoder :=
  (let? u := LinearLayer_init (path ++ ".up")%string input_dim output_dim in
   let? c := LinearLayer_init (path ++ ".cat_layer")%string middle_dim output_dim in
   Ok (mkDecoder u c))%result.

Definition Decoder_forward (m : Decoder) (x1 x2 : tensor F) : SE S (tensor F) :=
  up_output <- LinearLayer_forward (up m) x1 ;;
  cat_output <- lift (cat_last [up_output; x2]) ;;
  LinearLayer_forward (cat_layer m) cat_output.

(** The timestep batch as the denoisers feed it in:
    [t.view(-1, 1, 1).repeat(1, obs_num, 1)]. *)
Definition t_column (t : list Z) (obs_num : nat) : result (tensor F) :=
  (let? v := py_view [-1; 1; 1]%Z (mkTensor [length t] (map of_Z t)) in
   trepeat [1; obs_num; 1] v)%result.
End Modules.

(** ** The encoder-decoder denoiser *)

Module UnetDiffusionModel.
Section Unet.
Context {F S : Type} `{Scalar F} `{Torch F S}.
Local Open Scope se_scope.

Record t : Type := mk {
  his_delt_step : Z;
  input_dim : nat;
  layer1 : LinearLayer;
  layer2 : LinearLayer;
  layer3 : LinearLayer;
  layer4 : LinearLayer;
  layer5 : LinearLayer;
  decode4 : Decoder;
  decode3 : Decoder;
  decode2 : Decoder;
  output_layer : Linear      (* nn.Sequential(nn.Linear, nn.Tanh) *)
}.

(** [self.__dims[k]]. *)
Definition dim_at (dims : list nat) (k : nat) : result Z :=
  match nth_error dims k with
  | Some d => Ok (Z.of_nat d)
  | None => Raise IndexOutOfBounds
  end.

Definition __init__ (path : string) (dims : option (list nat)) (input_dim : nat)
    (conditional_dim : nat) (his_stp : Z) : result t :=
  let dims := match dims with None => [64; 128; 256; 512] | Some d => d end in
  let his_delt_step := (his_stp - 1)%Z in
  let input_tensor_dim :=
    (his_delt_step * Z.of_nat input_dim + Z.of_nat conditional_dim * his_stp + 1)%Z in
  (let? d0 := dim_at dims 0 in
   let? l1 := LinearLayer_init (path ++ ".layer1")%string input_tensor_dim d0 in
   let? d1 := dim_at dims 1 in
   let? l2 := LinearLayer_init (path ++ ".layer2")%string d0 d1 in
   let? d2 := dim_at dims 2 in
   let? l3 := LinearLayer_init (path ++ ".layer3")%string d1 d2 in
   let? d3 := dim_at dims 3 in
   let? l4 := LinearLayer_init (path ++ ".layer4")%string d2 d3 in
   let? l5 := LinearLayer_init (path ++ ".layer5")%string d3 64 in
   let? dec4 := Decoder_init (path ++ ".decode4")%string 64 768 d2 in
   let? dec3 := Decoder_init (path ++ ".decode3")%string d2 384 d1 in
   let? dec2 := Decoder_init (path ++ ".decode2")%string d1 192 d0 in
   let? out := Linear_init (path ++ ".output_layer.0")%string d0
                 (his_delt_step * Z.of_nat input_dim) in
   Ok (mk his_delt_step input_dim l1 l2 l3 l4 l5 dec4 dec3 dec2 out))%result.

Definition forward (m : t) (perturbed_x : tensor F) (t_batch : list Z)
    (predicted_his_traj : tensor F) : SE S (tensor F) :=
  batch_size <- lift (shape_at 0 perturbed_x) ;;
  obs_num <- lift (shape_at 1 perturbed_x) ;;
  input_tensor <- lift (flatten 2 perturbed_x) ;;
  his_traj <- lift (flatten 2 predicted_his_traj) ;;
  t_col <- lift (t_column t_batch obs_num) ;;
  input_tensor <- lift (cat_last [input_tensor; his_traj; t_col]) ;;
  e1 <- LinearLayer_forward (layer1 m) input_tensor ;;
  e2 <- LinearLayer_forward (layer2 m) e1 ;;
  e3 <- LinearLayer_forward (layer3 m) e2 ;;
  e4 <- LinearLayer_forward (layer4 m) e3 ;;
  f <- LinearLayer_forward (layer5 m) e4 ;;
  d4 <- Decoder_forward (decode4 m) f e4 ;;
  d3 <- Decoder_forward (decode3 m) d4 e3 ;;
  d2 <- Decoder_forward (decode2 m) d3 e2 ;;
  out <- Linear_forward (output_layer m) d2 ;;
  let out := tmap tanh out in
  lift (py_view [Z.of_nat batch_size; Z.of_nat obs_num; his_delt_step m;
                 Z.of_nat (input_dim m)] out).
End Unet.
End UnetDiffusionModel.

(** ** The cross-attention denoiser *)

Module DitDiffusionModel.
Section Dit.
Context {F S : Type} `{Scalar F} `{Torch F S}.
Local Open Scope se_scope.

Record t : Type := mk {
  his_delt_step : Z;
  input_dim : Z;               (* his_delt_step * input_dim + 1 *)
  conditional_dim : Z;         (* his_stp * conditional_dim *)
  dit_blocks : list string;    (* the paths of the TransformerCrossAttention blocks *)
  linear_output_0 : Linear;
  linear_output_1 : LayerNorm;
  linear_output_3 : Linear;
  linear_output_4 : LayerNorm;
  linear_output_6 : Linear
}.

Definition block_path (path : string) (k : nat) : string :=
  (path ++ ".dit_blocks." ++ String (Ascii.ascii_of_nat (48 + k)) EmptyString)%string.

Definition __init__ (path : string) (input_dim conditional_dim : nat) (his_stp : Z)
    (num_dit_blocks : Z) : result t :=
  let his_delt_step := (his_stp - 1)%Z in
  let self_input_dim := (his_delt_step * Z.of_nat input_dim + 1)%Z in
  let self_conditional_dim := (his_stp * Z.of_nat conditional_dim)%Z in
  (let blocks := map (block_path path) (seq 0 (Z.to_nat num_dit_blocks)) in
   let? l0 := Linear_init (path ++ ".linear_output.0")%string
                self_input_dim (self_input_dim * 2) in
   let? l3 := Linear_init (path ++ ".linear_output.3")%string
                (self_input_dim * 2) self_input_dim in
   let? l6 := Linear_init (path ++ ".linear_output.6")%string
                self_input_dim (his_delt_step * Z.of_nat input_dim) in
   Ok (mk his_delt_step self_input_dim self_conditional_dim blocks l0
          (mkLayerNorm (path ++ ".linear_output.1")%string
             (Z.to_nat (self_input_dim * 2)))
          l3
          (mkLayerNorm (path ++ ".linear_output.4")%string (Z.to_nat self_input_dim))
          l6))%result.

(** [for dit_block in self.dit_blocks: input_tensor = dit_block(input_tensor, his)]. *)
Fixpoint run_blocks (m : t) (blocks : list string) (input_tensor his : tensor F)
  : SE S (tensor F) :=
  match blocks with
  | [] => ret input_tensor
  | b :: rest =>
      input_tensor <- cross_attention b (input_dim m) (conditional_dim m)
                        input_tensor his ;;
      run_blocks m rest input_tensor his
  end.

Definition linear_output (m : t) (x : tensor F) : SE S (tensor F) :=
  x <- Linear_forward (linear_output_0 m) x ;;
  x <- LayerNorm_forward (linear_output_1 m) x ;;
  let x := tmap relu x in
  x <- Linear_forward (linear_output_3 m) x ;;
  x <- LayerNorm_forward (linear_output_4 m) x ;;
  let x := tmap relu x in
  x <- Linear_forward (linear_output_6 m) x ;;
  ret (tmap tanh x).

Definition forward (m : t) (perturbed_x : tensor F) (t_batch : list Z)
    (predicted_his_traj : tensor F) : SE S (tensor F) :=
  batch_size <- lift (shape_at 0 perturbed_x) ;;
  obs_num <- lift (shape_at 1 perturbed_x) ;;
  input_tensor <- lift (flatten 2 perturbed_x) ;;
  t_col <- lift (t_column t_batch obs_num) ;;
  predicted_his_traj <- lift (flatten 2 predicted_his_traj) ;;
  input_tensor <- lift (cat_last [input_tensor; t_col]) ;;
  input_tensor <- run_blocks m (dit_blocks m) input_tensor predicted_his_traj ;;
  noise_output <- linear_output m input_tensor ;;
  lift (py_view [Z.of_nat batch_size; Z.of_nat obs_num; his_delt_step m; -1]%Z
          noise_output).
End Dit.
End DitDiffusionModel.

(** ** numpy arrays (1-D) *)

Section Numpy.
Context {D : Type} `{Scalar D}.

(** [np.cumprod(a)]: [out[0] = a[0]], [out[i] = out[i-1] * a[i]]. *)
Fixpoint cumprod_from (acc : D) (a : list D) : list D :=
  match a with
  | [] => []
  | x :: a' => let p := fmul acc x in p :: cumprod_from p a'
  end.

Definition cumprod (a : list D) : list D :=
  match a with
  | [] => []
  | x :: a' => x :: cumprod_from x a'
  end.

(** [a op b] on two 1-D arrays, with numpy's broadcasting of a length-1
    array. *)
Definition np_bin (f : D -> D -> D) (a b : list D) : result (list D) :=
  if length a =? length b then Ok (zip_with f a b)
  else match a, b with
       | [x], _ => Ok (map (f x) b)
       | _, [y] => Ok (map (fun x => f x y) a)
       | _, _ => Raise ValueError
       end.
End Numpy.

(** ** The diffusion process controller *)

Module GaussianDiffusion.
Section Controller.
Context {D F S : Type} {SD : Scalar D} {SF : Scalar F} {TF : Torch F S}.
(** [torch.tensor(_, dtype=torch.float32)] on one element. *)
Variable to_torch : D -> F.
Local Open Scope se_scope.

(** What the controller holds as [self.diffusion_model]: a callable on
    (noisy trajectory, timestep batch, history). *)
Definition denoiser : Type :=
  tensor F -> list Z -> tensor F -> SE S (tensor F).

Record t : Type := mk {
  loss_type : string;
  diffusion_type : string;
  num_time_steps : nat;
  betas : list F;
  alphas : list F;
  alphas_cum_prod : list F;
  sqrt_alphas_cum_prod : list F;
  sqrt_one_minus_alphas_cum_prod : list F;
  reciprocal_sqrt_alphas : list F;
  sigma : list F;
  remove_noise_coeff : list F;
  his_delt_step : Z;
  diffusion_model : option denoiser;
  input_dim : nat;
  norm_output : BatchNorm
}.

(** The numpy side of the constructor: the schedule before it is turned
    into float32 buffers. *)
Definition np_alphas (betas : list D) : list D := map (fsub (of_Z 1)) betas.
Definition np_alphas_cum_prod (betas : list D) : list D := cumprod (np_alphas betas).
Definition np_alphas_cum_prod_prev (betas : list D) : list D :=
  of_Z 1 :: removelast (np_alphas_cum_prod betas).
Definition np_remove_noise_coeff (betas : list D) : result (list D) :=
  (let? q := np_bin fdiv (np_alphas_cum_prod_prev betas)
               (map fsqrt (map (fsub (of_Z 1)) (np_alphas_cum_prod betas))) in
   np_bin fmul betas (map (fsub (of_Z 1)) q))%result.

Definition __init__ (input_dim conditional_dim : nat) (his_stp : Z)
    (betas : option (list D)) (loss_type : string) (num_dit_blocks : Z)
    (diffusion_type : string) : result t :=
  if negb (existsb (String.eqb loss_type) ["l1"; "l2"]%string) then Raise ValueError
  else if negb (existsb (String.eqb diffusion_type) ["dit"; "unet"; "none"]%string)
  then Raise ValueError
  else
    match betas with
    | None => Raise TypeError      (* betas = []; 1.0 - [] *)
    | Some betas =>
        let num_time_steps := length betas in
        let alphas := np_alphas betas in
        let alphas_cum_prod := np_alphas_cum_prod betas in
        (let? rnc := np_remove_noise_coeff betas in
         let his_delt_step := (his_stp - 1)%Z in
         let? model :=
           if String.eqb diffusion_type "dit" then
             let? m := DitDiffusionModel.__init__ "diffusion_model" input_dim
                         conditional_dim 11 num_dit_blocks in
             Ok (Some (DitDiffusionModel.forward m))
           else if String.eqb diffusion_type "unet" then
             let? m := UnetDiffusionModel.__init__ "diffusion_model" None input_dim
                         conditional_dim 11 in
             Ok (Some (UnetDiffusionModel.forward m))
           else Ok None in
         Ok (mk loss_type diffusion_type num_time_steps
               (map to_torch betas)
               (map to_torch alphas)
               (map to_torch alphas_cum_prod)
               (map to_torch (map fsqrt alphas_cum_prod))
               (map to_torch (map fsqrt (map (fsub (of_Z 1)) alphas_cum_prod)))
               (map to_torch (map fsqrt (map (fdiv (of_Z 1)) alphas)))
               (map to_torch (map fsqrt betas))
               (map to_torch rnc)
               his_delt_step model input_dim
               (BatchNorm2d "norm_output" 5)))%result
    end.

Definition enabled (self : t) : bool :=
  negb (String.eqb (diffusion_type self) "none").

(** [extract(a, t, x_shape)]. *)
Definition extract (a : list F) (t : list Z) (x_shape : list nat)
  : result (tensor F) :=
  let b := length t in
  (let? out := gather a t in
   reshape (mkTensor [b] out) (b :: repeat 1 (length x_shape - 1)))%result.

(** [self.diffusion_model(x, t, his)]. *)
Definition call_model (self : t) (x : tensor F) (t_batch : list Z)
    (his : tensor F) : SE (world S) (tensor F) :=
  match diffusion_model self with
  | None => raise TypeError
  | Some m => emit (EvModel t_batch) ;;; in_world (m x t_batch his)
  end.

Definition remove_noise (self : t) (noise : tensor F) (t_batch : list Z)
    (predicted_his_traj : tensor F) : SE (world S) (tensor F) :=
  model_output <- call_model self noise t_batch predicted_his_traj ;;
  lift (let? c := extract (remove_noise_coeff self) t_batch (shape noise) in
        let? cm := tbin fmul c model_output in
        let? d := tbin fsub noise cm in
        let? r := extract (reciprocal_sqrt_alphas self) t_batch (shape noise) in
        tbin fmul d r)%result.

(** The body of the loop of [sample] at timestep [t]. *)
Definition sample_step (self : t) (predicted_his_traj : tensor F)
    (batch_size : nat) (noise : tensor F) (t : Z) : SE (world S) (tensor F) :=
  let t_batch := repeat t batch_size in
  noise <- remove_noise self noise t_batch predicted_his_traj ;;
  if (0 <? t)%Z then
    c <- lift (extract (sigma self) t_batch (shape noise)) ;;
    z <- randn_like noise ;;
    cz <- lift (tbin fmul c z) ;;
    lift (tbin_inplace fadd noise cz)
  else ret noise.

(** [for t in ts: x = body(x, t)]. *)
Fixpoint for_each {A St} (ts : list Z) (body : A -> Z -> SE St A) (x : A)
  : SE St A :=
  match ts with
  | [] => ret x
  | t :: ts' => x' <- body x t ;; for_each ts' body x'
  end.

Definition sample (self : t) (noise predicted_his_traj : tensor F)
  : SE (world S) (tensor F) :=
  if enabled self then
    batch_size <- lift (shape_at 0 predicted_his_traj) ;;
    noise <- for_each (range_down (Z.of_nat (num_time_steps self) - 1) (-1))
               (sample_step self predicted_his_traj batch_size) noise ;;
    noise <- lift (py_transpose 1 (-1) noise) ;;
    noise <- in_world (BatchNorm_forward (norm_output self) noise) ;;
    lift (py_transpose 1 (-1) noise)
  else ret noise.

Definition perturb_x (self : t) (future_traj : tensor F) (t : list Z)
    (noise : tensor F) : result (tensor F) :=
  (let? a := extract (sqrt_alphas_cum_prod self) t (shape future_traj) in
   let? ax := tbin fmul a future_traj in
   let? b := extract (sqrt_one_minus_alphas_cum_prod self) t (shape future_traj) in
   let? bn := tbin fmul b noise in
   tbin fadd ax bn)%result.

(** [F.mse_loss(input, target, reduction="none")]. *)
Definition mse_loss (input target : tensor F) : result (tensor F) :=
  tbin (fun a b => fmul (fsub a b) (fsub a b)) input target.

Definition get_losses (self : t)
    (predicted_his_traj_delt predicted_his_traj predicted_traj_mask : tensor F)
    (t : list Z) : SE (world S) (tensor F) :=
  if enabled self then
    noise <- randn_like predicted_his_traj_delt ;;
    perturbed_x <- lift (perturb_x self predicted_his_traj_delt t noise) ;;
    estimated_noise <- call_model self perturbed_x t predicted_his_traj ;;
    batch_size <- lift (shape_at 0 perturbed_x) ;;
    obs_num <- lift (shape_at 1 perturbed_x) ;;
    diffusion_loss <- lift (mse_loss estimated_noise noise) ;;
    m <- lift (py_view [Z.of_nat batch_size; Z.of_nat obs_num; 1; 1]%Z
                 predicted_traj_mask) ;;
    steps <- lift (size_of (his_delt_step self)) ;;
    diffusion_loss_mask <- lift (trepeat [1; 1; steps; input_dim self] m) ;;
    masked <- lift (tbin fmul diffusion_loss diffusion_loss_mask) ;;
    lift (tbin fdiv (tsum masked) (tsum diffusion_loss_mask))
  else ret (mkTensor [] [of_Z 0]).

(** [data[key]] on the batch dict. *)
Fixpoint getitem (data : list (string * tensor F)) (key : string)
  : result (tensor F) :=
  match data with
  | [] => Raise KeyError
  | (k, v) :: rest => if String.eqb k key then Ok v else getitem rest key
  end.

Definition forward (self : t) (data : list (string * tensor F))
  : SE (world S) (tensor F) :=
  predicted_his_traj_delt <- lift (getitem data "predicted_his_traj_delt") ;;
  predicted_his_traj <- lift (getitem data "predicted_his_traj") ;;
  predicted_traj_mask <- lift (getitem data "predicted_traj_mask") ;;
  batch_size <- lift (shape_at 0 predicted_his_traj_delt) ;;
  t <- randint 0 (Z.of_nat (num_time_steps self)) batch_size ;;
  get_losses self predicted_his_traj_delt predicted_his_traj predicted_traj_mask t.
End Controller.
End GaussianDiffusion.

(** ** IEEE-754 arithmetic *)

(** numpy's float64 and torch's float32, as [SpecFloat] gives them. *)
Module IEEE.
Definition of_Z_at (prec emax : Z) (z : Z) : spec_float :=
  binary_normalize prec emax z 0 false.

(** Rounding of a float to the format [(prec, emax)]. *)
Definition round_to (prec emax : Z) (x : spec_float) : spec_float :=
  match x with
  | S754_finite s m e => binary_normalize prec emax (cond_Zopp s (Zpos m)) e s
  | _ => x
  end.

Definition scalar_at (prec emax : Z) : Scalar spec_float := {|
  fadd := SFadd prec emax;
  fsub := SFsub prec emax;
  fmul := SFmul prec emax;
  fdiv := SFdiv prec emax;
  fsqrt := SFsqrt prec emax;
  of_Z := of_Z_at prec emax
|}.

Definition binary32 : Scalar spec_float := scalar_at 24 128.
Definition binary64 : Scalar spec_float := scalar_at 53 1024.

(** [torch.tensor(x, dtype=torch.float32)] on a float64. *)
Definition to_float32 : spec_float -> spec_float := round_to 24 128.

Definition is_nan (x : spec_float) : bool :=
  match x with S754_nan => true | _ => false end.
Definition is_zero (x : spec_float) : bool :=
  match x with S754_zero _ => true | _ => false end.
End IEEE.

(** ** A runtime to run the model on *)

(** A deterministic stand-in for torch, used to evaluate the model on
    concrete inputs: the state counts the draws made, the [k]-th normal draw
    fills its tensor with the integer [k], integer draws return the lower
    bound, every trainable layer outputs zeros, activations are the identity,
    the module is in evaluation mode, sums are taken from the left and an
    attention block returns its first argument. *)
Module Stub.
(** [((0 + d[0]) + d[1]) + ... + d[n - 1]]. *)
Definition left_to_right (n : nat) : sum_order :=
  fold_left (fun o i => Plus o (Term i)) (seq 0 n) (Term n).

Lemma left_to_right_complete n : adds_each_once n (left_to_right n).
Proof.
  assert (Ht : forall l o,
             terms (fold_left (fun o i => Plus o (Term i)) l o) = terms o ++ l).
  { induction l as [|i l IH]; intros o; cbn [fold_left].
    - now rewrite app_nil_r.
    - rewrite IH. cbn [terms]. now rewrite <- app_assoc. }
  intros i Hi. unfold left_to_right. rewrite Ht. cbn [terms app count_occ].
  destruct (Nat.eq_dec n i) as [->|_]; [lia|].
  apply NoDup_count_occ'; [apply seq_NoDup | apply in_seq; lia].
Qed.

Definition torch_of (F : Type) (SF : Scalar F) : Torch F nat := {|
  draw_normal := fun n s => (repeat (of_Z (Z.of_nat (s + 1))) n, s + 1);
  draw_int := fun low high n s => (repeat low n, s + 1);
  layer_num := fun path x out_shape s => (repeat (of_Z 0) (numel out_shape), s);
  leaky_relu := fun x => x;
  relu := fun x => x;
  tanh := fun x => x;
  training := fun s => false;
  reduction := left_to_right;
  reduction_complete := left_to_right_complete;
  cross_attention := fun path i c x h => ret x
|}.

(** A denoiser that counts its calls in the state and returns its input. *)
Definition counting {F} : tensor F -> list Z -> tensor F -> SE nat (tensor F) :=
  fun x t h s => (Ok x, s + 1).
End Stub.

(** * Properties *)

(** ** Lists, chunks and shapes *)

Section ListFacts.
Context {A B C : Type}.

Lemma zip_with_length (f : A -> B -> C) l1 l2 :
  length (zip_with f l1 l2) = Nat.min (length l1) (length l2).
Proof.
  revert l2; induction l1 as [|x l1 IH]; intros [|y l2]; simpl; auto.
Qed.

Lemma zip_with_app (f : A -> B -> C) l1 l1' l2 l2' :
  length l1 = length l2 ->
  zip_with f (l1 ++ l1') (l2 ++ l2') = zip_with f l1 l2 ++ zip_with f l1' l2'.
Proof.
  revert l2; induction l1 as [|x l1 IH]; intros [|y l2] Hl; simpl in *;
    try discriminate; auto.
  f_equal. apply IH. lia.
Qed.

Lemma zip_with_firstn_skipn (f : A -> B -> C) k l1 l2 :
  zip_with f l1 l2 =
  zip_with f (firstn k l1) (firstn k l2) ++ zip_with f (skipn k l1) (skipn k l2).
Proof.
  revert l1 l2; induction k as [|k IH]; intros l1 l2; simpl; auto.
  destruct l1 as [|x l1]; simpl; auto.
  destruct l2 as [|y l2]; simpl.
  - destruct (skipn k l1); reflexivity.
  - f_equal. apply IH.
Qed.

Lemma zip_with_nth_error (f : A -> B -> C) l1 l2 i x y :
  nth_error l1 i = Some x -> nth_error l2 i = Some y ->
  nth_error (zip_with f l1 l2) i = Some (f x y).
Proof.
  revert l1 l2; induction i as [|i IH]; intros [|a l1] [|b l2]; simpl;
    try discriminate; auto.
  intros [= ->] [= ->]. reflexivity.
Qed.

Lemma zip_with_map_l {A'} (f : A -> B -> C) (g : A' -> A) l1 l2 :
  zip_with f (map g l1) l2 = zip_with (fun a b => f (g a) b) l1 l2.
Proof.
  revert l2; induction l1 as [|x l1 IH]; intros [|y l2]; simpl; auto.
  f_equal. apply IH.
Qed.

Lemma zip_with_ext (f g : A -> B -> C) l1 l2 :
  (forall a b, In a l1 -> In b l2 -> f a b = g a b) ->
  zip_with f l1 l2 = zip_with g l1 l2.
Proof.
  revert l2; induction l1 as [|x l1 IH]; intros [|y l2] Hfg; simpl; auto.
  f_equal.
  - apply Hfg; now left.
  - apply IH. intros a b Ha Hb. apply Hfg; now right.
Qed.

Lemma chunks_length k n (l : list A) : length (chunks k n l) = n.
Proof. revert l; induction n as [|n IH]; intros l; simpl; auto. Qed.

Lemma chunks_each k n (l : list A) :
  length l = n * k -> Forall (fun c => length c = k) (chunks k n l).
Proof.
  revert l; induction n as [|n IH]; intros l Hl; simpl; constructor.
  - rewrite length_firstn. lia.
  - apply IH. rewrite length_skipn. lia.
Qed.

Lemma concat_chunks k n (l : list A) :
  length l = n * k -> concat (chunks k n l) = l.
Proof.
  revert l; induction n as [|n IH]; intros l Hl; simpl.
  - destruct l; simpl in *; [reflexivity | discriminate].
  - rewrite IH by (rewrite length_skipn; lia). apply firstn_skipn.
Qed.

Lemma chunks_concat k (ls : list (list A)) :
  Forall (fun c => length c = k) ls -> chunks k (length ls) (concat ls) = ls.
Proof.
  induction 1 as [|c ls Hc Hls IH]; simpl; auto.
  rewrite firstn_app, skipn_app, Hc, Nat.sub_diag.
  rewrite firstn_all2, skipn_all2 by lia. simpl.
  rewrite app_nil_r. f_equal. exact IH.
Qed.

Lemma chunks_one n (l : list A) :
  length l = n -> chunks 1 n l = map (fun x => [x]) l.
Proof.
  revert l; induction n as [|n IH]; intros [|x l] Hl; simpl in *;
    try discriminate; auto.
  f_equal. apply IH. lia.
Qed.

Lemma mapR_ok (f : A -> result B) (g : A -> B) l :
  Forall (fun x => f x = Ok (g x)) l -> mapR f l = Ok (map g l).
Proof.
  induction 1 as [|x l Hx Hl IH]; simpl; auto.
  rewrite Hx, IH. reflexivity.
Qed.
End ListFacts.

Lemma numel_repeat_one n : numel (repeat 1 n) = 1.
Proof. induction n; simpl; auto. rewrite IHn. reflexivity. Qed.

Lemma shape_eqb_refl s : shape_eqb s s = true.
Proof. induction s; simpl; auto. rewrite Nat.eqb_refl. exact IHs. Qed.

Lemma pad_shape_same r s : length s = r -> pad_shape r s = s.
Proof. intros <-. unfold pad_shape. rewrite Nat.sub_diag. reflexivity. Qed.

Lemma broadcast_shape_refl s : broadcast_shape s s = Some s.
Proof. induction s; simpl; auto. rewrite IHs, Nat.eqb_refl. reflexivity. Qed.

Lemma broadcast_shape_ones_l s : broadcast_shape (repeat 1 (length s)) s = Some s.
Proof.
  induction s as [|d s IH]; cbn [broadcast_shape repeat length]; auto.
  rewrite IH. destruct (Nat.eqb_spec 1 d); subst; reflexivity.
Qed.

Lemma broadcast_shape_ones_r s : broadcast_shape s (repeat 1 (length s)) = Some s.
Proof.
  induction s as [|d s IH]; cbn [broadcast_shape repeat length]; auto.
  rewrite IH. destruct (Nat.eqb_spec d 1); subst; reflexivity.
Qed.

(** ** Broadcasting *)

Section BroadcastFacts.
Context {F : Type}.
Variable f : F -> F -> F.

Lemma concat_zip_chunks (g : list F -> list F -> list F) k n d1 d2 :
  (forall a b, length a = k -> length b = k -> g a b = zip_with f a b) ->
  length d1 = n * k -> length d2 = n * k ->
  concat (zip_with g (chunks k n d1) (chunks k n d2)) = zip_with f d1 d2.
Proof.
  intros Hg. revert d1 d2; induction n as [|n IH]; intros d1 d2 H1 H2; simpl.
  - destruct d1; [reflexivity | discriminate].
  - rewrite IH by (rewrite length_skipn; lia).
    rewrite Hg by (rewrite length_firstn; lia).
    symmetry. apply zip_with_firstn_skipn.
Qed.

(** Two tensors of one shape: the operation is elementwise. *)
Lemma broadcast_data_same s d1 d2 :
  length d1 = numel s -> length d2 = numel s ->
  broadcast_data f s s d1 d2 = zip_with f d1 d2.
Proof.
  revert d1 d2; induction s as [|n s IH]; intros d1 d2 H1 H2.
  - destruct d1 as [|x [|]]; try discriminate.
    destruct d2 as [|y [|]]; try discriminate. reflexivity.
  - cbn [broadcast_data]. rewrite Nat.eqb_refl.
    apply concat_zip_chunks; auto.
Qed.

(** A one-element tensor of shape (1, ..., 1) on the left: its element is
    applied to every element of the right operand. *)
Lemma broadcast_data_ones_l s c d :
  length d = numel s ->
  broadcast_data f (repeat 1 (length s)) s [c] d = map (f c) d.
Proof.
  revert d; induction s as [|n s IH]; intros d Hd.
  - destruct d as [|y [|]]; try discriminate. reflexivity.
  - cbn [broadcast_data repeat length]. simpl in Hd.
    rewrite numel_repeat_one.
    destruct (Nat.eqb_spec 1 n) as [<-|Hn].
    + simpl. rewrite app_nil_r. rewrite firstn_all2 by lia. apply IH. lia.
    + simpl (1 =? 1). cbv iota.
      rewrite <- (concat_chunks (numel s) n d) at 2 by lia.
      rewrite concat_map. f_equal.
      apply map_ext_in. intros y Hy. apply IH.
      pose proof (chunks_each (numel s) n d ltac:(lia)) as Hall.
      rewrite Forall_forall in Hall. now apply Hall.
Qed.

Lemma broadcast_data_ones_r s c d :
  length d = numel s ->
  broadcast_data f s (repeat 1 (length s)) d [c] = map (fun v => f v c) d.
Proof.
  revert d; induction s as [|n s IH]; intros d Hd.
  - destruct d as [|y [|]]; try discriminate. reflexivity.
  - cbn [broadcast_data repeat length]. simpl in Hd.
    rewrite numel_repeat_one.
    destruct (Nat.eqb_spec n 1) as [->|Hn].
    + simpl. rewrite app_nil_r. rewrite firstn_all2 by lia. apply IH. lia.
    + rewrite <- (concat_chunks (numel s) n d) at 2 by lia.
      rewrite concat_map. f_equal.
      apply map_ext_in. intros y Hy. apply IH.
      pose proof (chunks_each (numel s) n d ltac:(lia)) as Hall.
      rewrite Forall_forall in Hall. now apply Hall.
Qed.

Lemma tbin_same (x y : tensor F) :
  shape y = shape x -> wf_tensor x -> wf_tensor y ->
  tbin f x y = Ok (mkTensor (shape x) (zip_with f (data x) (data y))).
Proof.
  unfold tbin, rank, wf_tensor. intros Hs Hx Hy. rewrite Hs in *.
  rewrite Nat.max_id, pad_shape_same, broadcast_shape_refl by reflexivity.
  rewrite broadcast_data_same by assumption. reflexivity.
Qed.

(** A per-row coefficient tensor of shape (b, 1, ..., 1) against a tensor of
    shape (b, rest): row [k] of the result is row [k] of the operand with
    coefficient [k] applied to every element. *)
Lemma tbin_rows_l b rest cs d :
  length cs = b -> length d = b * numel rest ->
  tbin f (mkTensor (b :: repeat 1 (length rest)) cs) (mkTensor (b :: rest) d) =
  Ok (mkTensor (b :: rest)
        (concat (zip_with (fun c row => map (f c) row) cs (chunks (numel rest) b d)))).
Proof.
  intros Hc Hd. unfold tbin, rank. cbn [shape data length].
  rewrite repeat_length, Nat.max_id.
  rewrite !pad_shape_same by (simpl; now rewrite ?repeat_length).
  cbn [broadcast_shape broadcast_data].
  rewrite broadcast_shape_ones_l, Nat.eqb_refl, numel_repeat_one.
  rewrite chunks_one by assumption. rewrite zip_with_map_l.
  do 3 f_equal. apply zip_with_ext. intros c row _ Hrow.
  apply broadcast_data_ones_l.
  pose proof (chunks_each (numel rest) b d Hd) as Hall.
  rewrite Forall_forall in Hall. now apply Hall.
Qed.

Lemma zip_with_swap {A B C} (g : A -> B -> C) l1 l2 :
  zip_with g l1 l2 = zip_with (fun b a => g a b) l2 l1.
Proof.
  revert l2; induction l1 as [|x l1 IH]; intros [|y l2]; simpl; auto.
  f_equal. apply IH.
Qed.

Lemma tbin_rows_r b rest cs d :
  length cs = b -> length d = b * numel rest ->
  tbin f (mkTensor (b :: rest) d) (mkTensor (b :: repeat 1 (length rest)) cs) =
  Ok (mkTensor (b :: rest)
        (concat (zip_with (fun c row => map (fun v => f v c) row) cs
                   (chunks (numel rest) b d)))).
Proof.
  intros Hc Hd. unfold tbin, rank. cbn [shape data length].
  rewrite repeat_length, Nat.max_id.
  rewrite !pad_shape_same by (simpl; now rewrite ?repeat_length).
  cbn [broadcast_shape broadcast_data].
  rewrite broadcast_shape_ones_r, Nat.eqb_refl, numel_repeat_one.
  rewrite chunks_one by assumption.
  rewrite (zip_with_swap _ (chunks _ _ _)), zip_with_map_l.
  do 3 f_equal. apply zip_with_ext. intros c row _ Hrow.
  apply broadcast_data_ones_r.
  pose proof (chunks_each (numel rest) b d Hd) as Hall.
  rewrite Forall_forall in Hall. now apply Hall.
Qed.
End BroadcastFacts.

(** ** Row-wise operations *)

(** The batch rows of a tensor: axis 0 split off. *)
Definition rows {F} (x : tensor F) : list (list F) :=
  chunks (numel (tl (shape x))) (hd 0 (shape x)) (data x).

Section RowFacts.
Context {T F : Type}.

(** [map_rows g ts k d]: the [i]-th block of [k] elements of [d] mapped
    with [g] at the [i]-th entry of [ts]. *)
Definition map_rows (g : T -> F -> F) (ts : list T) (k : nat) (d : list F) : list F :=
  concat (zip_with (fun t row => map (g t) row) ts (chunks k (length ts) d)).

(** The same for two operands, combined elementwise within each block. *)
Definition zip_rows (g : T -> F -> F -> F) (ts : list T) (k : nat)
    (d1 d2 : list F) : list F :=
  concat (zip_with (fun t p => zip_with (g t) (fst p) (snd p)) ts
            (combine (chunks k (length ts) d1) (chunks k (length ts) d2))).

Lemma zip_with_map_lr {A B A' B' C} (h : A -> B -> C) (a : A' -> A) (b : B' -> B)
    l1 l2 :
  zip_with h (map a l1) (map b l2) = zip_with (fun x y => h (a x) (b y)) l1 l2.
Proof.
  revert l2; induction l1 as [|x l1 IH]; intros [|y l2]; simpl; auto.
  f_equal. apply IH.
Qed.

Lemma map_zip_with {A B C C'} (h : A -> B -> C) (g : C -> C') l1 l2 :
  map g (zip_with h l1 l2) = zip_with (fun x y => g (h x y)) l1 l2.
Proof.
  revert l2; induction l1 as [|x l1 IH]; intros [|y l2]; simpl; auto.
  f_equal. apply IH.
Qed.

Lemma map_rows_length g ts k d :
  length d = length ts * k -> length (map_rows g ts k d) = length ts * k.
Proof.
  unfold map_rows. revert d; induction ts as [|t ts IH]; intros d Hd; simpl in *; auto.
  rewrite length_app, length_map, length_firstn, IH
    by (rewrite length_skipn; lia). lia.
Qed.

Lemma zip_rows_length g ts k d1 d2 :
  length d1 = length ts * k -> length d2 = length ts * k ->
  length (zip_rows g ts k d1 d2) = length ts * k.
Proof.
  unfold zip_rows. revert d1 d2; induction ts as [|t ts IH];
    intros d1 d2 H1 H2; simpl in *; auto.
  rewrite length_app, zip_with_length, !length_firstn, IH
    by (rewrite length_skipn; lia). lia.
Qed.

(** Two row-wise maps combined elementwise. *)
Lemma zip_map_rows (h : F -> F -> F) (g1 g2 : T -> F -> F) ts k d1 d2 :
  length d1 = length ts * k -> length d2 = length ts * k ->
  zip_with h (map_rows g1 ts k d1) (map_rows g2 ts k d2) =
  zip_rows (fun t x y => h (g1 t x) (g2 t y)) ts k d1 d2.
Proof.
  unfold map_rows, zip_rows.
  revert d1 d2; induction ts as [|t ts IH]; intros d1 d2 H1 H2; simpl in *; auto.
  rewrite zip_with_app by (rewrite !length_map, !length_firstn; lia).
  rewrite zip_with_map_lr. f_equal.
  apply IH; rewrite length_skipn; lia.
Qed.

(** A plain operand against a row-wise map. *)
Lemma zip_plain_map_rows (h : F -> F -> F) (g : T -> F -> F) ts k d1 d2 :
  length d1 = length ts * k -> length d2 = length ts * k ->
  zip_with h d1 (map_rows g ts k d2) =
  zip_rows (fun t x y => h x (g t y)) ts k d1 d2.
Proof.
  unfold map_rows, zip_rows.
  revert d1 d2; induction ts as [|t ts IH]; intros d1 d2 H1 H2; simpl in *.
  - destruct d1; reflexivity.
  - rewrite <- (firstn_skipn k d1) at 1.
    rewrite zip_with_app by (rewrite length_map, !length_firstn; lia).
    rewrite <- (map_id (firstn k d1)) at 1. rewrite zip_with_map_lr. f_equal.
    apply IH; rewrite length_skipn; lia.
Qed.

(** A row-wise map after a row-wise combination. *)
Lemma map_rows_zip_rows (g : T -> F -> F) (g' : T -> F -> F -> F) ts k d1 d2 :
  length d1 = length ts * k -> length d2 = length ts * k ->
  map_rows g ts k (zip_rows g' ts k d1 d2) =
  zip_rows (fun t x y => g t (g' t x y)) ts k d1 d2.
Proof.
  unfold map_rows, zip_rows.
  revert d1 d2; induction ts as [|t ts IH]; intros d1 d2 H1 H2; simpl in *; auto.
  assert (Hk : length (zip_with (g' t) (firstn k d1) (firstn k d2)) = k)
    by (rewrite zip_with_length, !length_firstn; lia).
  rewrite <- map_zip_with.
  remember (zip_with (g' t) (firstn k d1) (firstn k d2)) as row eqn:Hrow.
  rewrite firstn_app, skipn_app, Hk, Nat.sub_diag.
  rewrite (@firstn_all2 _ k row), (@skipn_all2 _ k row) by lia. simpl.
  rewrite app_nil_r. f_equal.
  apply IH; rewrite length_skipn; lia.
Qed.
End RowFacts.

(** ** The controller: extraction, forward noising, reverse step *)

Section ControllerFacts.
Context {F S : Type} {SF : Scalar F} {TF : Torch F S}.
Import GaussianDiffusion.
Local Open Scope se_scope.

Abbreviation controller := (@GaussianDiffusion.t F S).

(** [a[i]] for a timestep index [i]. *)
Definition coef (a : list F) (i : Z) : F := nth (Z.to_nat i) a (of_Z 0).

(** Every timestep index of the batch lies in [[0, n)]. *)
Definition in_range (n : nat) (t : list Z) : Prop :=
  Forall (fun i => (0 <= i < Z.of_nat n)%Z) t.

(** Every coefficient buffer has [num_time_steps] entries. *)
Record wf_controller (self : controller) : Prop := {
  wf_betas : length (betas self) = num_time_steps self;
  wf_alphas : length (alphas self) = num_time_steps self;
  wf_alphas_cum_prod : length (alphas_cum_prod self) = num_time_steps self;
  wf_sqrt_alphas_cum_prod :
    length (sqrt_alphas_cum_prod self) = num_time_steps self;
  wf_sqrt_one_minus_alphas_cum_prod :
    length (sqrt_one_minus_alphas_cum_prod self) = num_time_steps self;
  wf_reciprocal_sqrt_alphas :
    length (reciprocal_sqrt_alphas self) = num_time_steps self;
  wf_sigma : length (sigma self) = num_time_steps self;
  wf_remove_noise_coeff : length (remove_noise_coeff self) = num_time_steps self
}.

Lemma gather_ok (a : list F) (t : list Z) :
  in_range (length a) t -> gather a t = Ok (map (coef a) t).
Proof.
  intros Ht. unfold gather. apply mapR_ok.
  eapply Forall_impl; [|exact Ht]. cbv beta. intros i [Hlo Hhi].
  destruct (Z.leb_spec 0 i); [|lia].
  destruct (Z.ltb_spec i (Z.of_nat (length a))); [|lia]. simpl.
  unfold coef. rewrite (nth_error_nth' a (of_Z 0)) by lia. reflexivity.
Qed.

Lemma extract_ok (a : list F) (t : list Z) (x_shape : list nat) :
  in_range (length a) t ->
  extract a t x_shape =
  Ok (mkTensor (length t :: repeat 1 (length x_shape - 1)) (map (coef a) t)).
Proof.
  intros Ht. unfold extract. rewrite gather_ok by assumption.
  unfold rbind, reshape. cbn [shape data numel fold_right].
  change (fold_right Nat.mul 1 (repeat 1 (length x_shape - 1)))
    with (numel (repeat 1 (length x_shape - 1))).
  rewrite numel_repeat_one, Nat.eqb_refl. reflexivity.
Qed.

(** [extract(a, t, x.shape) * x] on a tensor with one batch row per index. *)
Lemma coef_mul_rows (f : F -> F -> F) (a : list F) (t : list Z) b rest d :
  length t = b -> length d = b * numel rest ->
  tbin f (mkTensor (length t :: repeat 1 (length (b :: rest) - 1)) (map (coef a) t))
    (mkTensor (b :: rest) d) =
  Ok (mkTensor (b :: rest) (map_rows (fun tb => f (coef a tb)) t (numel rest) d)).
Proof.
  intros Ht Hd. replace (length (b :: rest) - 1) with (length rest) by (simpl; lia).
  rewrite Ht.
  rewrite tbin_rows_l by (rewrite ?length_map; assumption).
  unfold map_rows. rewrite zip_with_map_l, Ht. reflexivity.
Qed.

Lemma rows_mul_coef (f : F -> F -> F) (a : list F) (t : list Z) b rest d :
  length t = b -> length d = b * numel rest ->
  tbin f (mkTensor (b :: rest) d)
    (mkTensor (length t :: repeat 1 (length (b :: rest) - 1)) (map (coef a) t)) =
  Ok (mkTensor (b :: rest) (map_rows (fun tb v => f v (coef a tb)) t (numel rest) d)).
Proof.
  intros Ht Hd. replace (length (b :: rest) - 1) with (length rest) by (simpl; lia).
  rewrite Ht.
  rewrite tbin_rows_r by (rewrite ?length_map; assumption).
  unfold map_rows. rewrite zip_with_map_l, Ht. reflexivity.
Qed.

(** The forward noising of the spec: row [b] of the result is
    [sqrt_alphas_cum_prod[t[b]] * x0 + sqrt_one_minus_alphas_cum_prod[t[b]] * noise]
    on row [b] of [x0] and of [noise]. *)
Definition perturb_spec (self : controller) (x0 : tensor F) (t : list Z)
    (noise : tensor F) : tensor F :=
  mkTensor (shape x0)
    (zip_rows (fun tb x n =>
                 fadd (fmul (coef (sqrt_alphas_cum_prod self) tb) x)
                      (fmul (coef (sqrt_one_minus_alphas_cum_prod self) tb) n))
       t (numel (tl (shape x0))) (data x0) (data noise)).

Lemma perturb_x_ok (self : controller) (x0 : tensor F) (t : list Z)
    (noise : tensor F) (b : nat) (rest : list nat) :
  wf_controller self ->
  in_range (num_time_steps self) t ->
  length t = b ->
  shape x0 = b :: rest -> shape noise = shape x0 ->
  wf_tensor x0 -> wf_tensor noise ->
  perturb_x self x0 t noise = Ok (perturb_spec self x0 t noise).
Proof.
  intros Hself Ht Hb Hx Hn Wx Wn.
  destruct x0 as [sx dx], noise as [sn dn]; cbn [shape data] in *.
  unfold wf_tensor in *; cbn [shape data] in *. subst sx sn.
  simpl in Wx, Wn.
  unfold perturb_x, perturb_spec; cbn [shape data tl].
  rewrite !extract_ok
    by (now rewrite ?(wf_sqrt_alphas_cum_prod Hself),
                    ?(wf_sqrt_one_minus_alphas_cum_prod Hself)).
  unfold rbind.
  rewrite !coef_mul_rows by assumption.
  rewrite tbin_same; cbn [shape data]; unfold wf_tensor; cbn [shape data];
    rewrite ?map_rows_length; simpl; try lia; try reflexivity.
  rewrite zip_map_rows by lia. reflexivity.
Qed.

(** *** Stepping through a computation *)

Lemma bind_ok {St A B} (m : SE St A) (k : A -> SE St B) w a w' :
  m w = (Ok a, w') -> bind m k w = k a w'.
Proof. unfold bind. now intros ->. Qed.

Lemma bind_raise {St A B} (m : SE St A) (k : A -> SE St B) w e w' :
  m w = (Raise e, w') -> bind m k w = (Raise e, w').
Proof. unfold bind. now intros ->. Qed.

Lemma bind_lift_ok {St A B} (a : A) (k : A -> SE St B) w :
  bind (lift (Ok a)) k w = k a w.
Proof. reflexivity. Qed.

Lemma call_model_run (self : controller) m x t his (w : world S) :
  diffusion_model self = Some m ->
  call_model self x t his w =
  (fst (m x t his (st w)),
   mkWorld (snd (m x t his (st w))) (log w ++ [EvModel t])).
Proof.
  intros Hm. unfold call_model. rewrite Hm.
  unfold bind, emit, in_world. cbn [st log].
  destruct (m x t his (st w)); reflexivity.
Qed.

Lemma randn_like_run (x : tensor F) (w : world S) :
  randn_like x w =
  (Ok (mkTensor (shape x) (fst (draw_normal (numel (shape x)) (st w)))),
   mkWorld (snd (draw_normal (numel (shape x)) (st w)))
     (log w ++ [EvRandn (shape x)])).
Proof.
  unfold randn_like, bind, emit, in_world. cbn [st log].
  destruct (draw_normal _ _); reflexivity.
Qed.

(** *** Shapes of broadcast results *)

Lemma tbin_same_shape (f : F -> F -> F) (x y : tensor F) :
  shape y = shape x ->
  tbin f x y =
  Ok (mkTensor (shape x) (broadcast_data f (shape x) (shape x) (data x) (data y))).
Proof.
  unfold tbin, rank. intros ->.
  rewrite Nat.max_id, pad_shape_same, broadcast_shape_refl by reflexivity.
  reflexivity.
Qed.

Lemma tbin_col_l_shape (f : F -> F -> F) b rest cs (x : tensor F) :
  shape x = b :: rest ->
  tbin f (mkTensor (b :: repeat 1 (length (shape x) - 1)) cs) x =
  Ok (mkTensor (b :: rest)
        (broadcast_data f (b :: repeat 1 (length rest)) (b :: rest) cs (data x))).
Proof.
  intros Hx. unfold tbin, rank. rewrite Hx. cbn [shape data].
  replace (length (b :: rest) - 1) with (length rest) by (simpl; lia).
  cbn [length]. rewrite repeat_length, Nat.max_id.
  rewrite !pad_shape_same by (simpl; now rewrite ?repeat_length).
  cbn [broadcast_shape]. rewrite broadcast_shape_ones_l, Nat.eqb_refl.
  reflexivity.
Qed.

Lemma tbin_col_r_shape (f : F -> F -> F) b rest cs (x : tensor F) :
  shape x = b :: rest ->
  tbin f x (mkTensor (b :: repeat 1 (length (shape x) - 1)) cs) =
  Ok (mkTensor (b :: rest)
        (broadcast_data f (b :: rest) (b :: repeat 1 (length rest)) (data x) cs)).
Proof.
  intros Hx. unfold tbin, rank. rewrite Hx. cbn [shape data].
  replace (length (b :: rest) - 1) with (length rest) by (simpl; lia).
  cbn [length]. rewrite repeat_length, Nat.max_id.
  rewrite !pad_shape_same by (simpl; now rewrite ?repeat_length).
  cbn [broadcast_shape]. rewrite broadcast_shape_ones_r, Nat.eqb_refl.
  reflexivity.
Qed.

Lemma in_range_repeat n t b :
  (0 <= t < Z.of_nat n)%Z -> in_range n (repeat t b).
Proof.
  intros Ht. unfold in_range. induction b; simpl; constructor; auto.
Qed.

(** *** The reverse step *)

(** The reverse step of the spec on the denoiser's output [out]: row [b] is
    [(xt - remove_noise_coeff[t[b]] * out) * reciprocal_sqrt_alphas[t[b]]]. *)
Definition remove_noise_spec (self : controller) (xt : tensor F) (t : list Z)
    (out : tensor F) : tensor F :=
  mkTensor (shape xt)
    (zip_rows (fun tb x o =>
                 fmul (fsub x (fmul (coef (remove_noise_coeff self) tb) o))
                      (coef (reciprocal_sqrt_alphas self) tb))
       t (numel (tl (shape xt))) (data xt) (data out)).

(** The arithmetic of [remove_noise] once the denoiser has answered. *)
Definition remove_noise_pure (self : controller) (noise : tensor F) (t_batch : list Z)
    (model_output : tensor F) : result (tensor F) :=
  (let? c := extract (remove_noise_coeff self) t_batch (shape noise) in
   let? cm := tbin fmul c model_output in
   let? d := tbin fsub noise cm in
   let? r := extract (reciprocal_sqrt_alphas self) t_batch (shape noise) in
   tbin fmul d r)%result.

Lemma remove_noise_run (self : controller) m noise t his (w : world S) :
  diffusion_model self = Some m ->
  remove_noise self noise t his w =
  match m noise t his (st w) with
  | (Ok out, s') =>
      (remove_noise_pure self noise t out, mkWorld s' (log w ++ [EvModel t]))
  | (Raise e, s') => (Raise e, mkWorld s' (log w ++ [EvModel t]))
  end.
Proof.
  intros Hm. unfold remove_noise, bind. rewrite (call_model_run _ _ _ _ _ Hm).
  destruct (m noise t his (st w)) as [[out|e] s']; reflexivity.
Qed.

Lemma remove_noise_pure_ok (self : controller) noise t out b rest :
  wf_controller self ->
  in_range (num_time_steps self) t ->
  length t = b ->
  shape noise = b :: rest -> shape out = shape noise ->
  wf_tensor noise -> wf_tensor out ->
  remove_noise_pure self noise t out = Ok (remove_noise_spec self noise t out).
Proof.
  intros Hself Ht Hb Hx Ho Wx Wo.
  destruct noise as [sx dx], out as [so do]; cbn [shape data] in *.
  unfold wf_tensor in *; cbn [shape data] in *. subst sx so.
  simpl in Wx, Wo.
  unfold remove_noise_pure, remove_noise_spec; cbn [shape data tl].
  rewrite !extract_ok
    by (now rewrite ?(wf_remove_noise_coeff Hself),
                    ?(wf_reciprocal_sqrt_alphas Hself)).
  unfold rbind.
  rewrite coef_mul_rows by assumption.
  rewrite tbin_same; cbn [shape data]; unfold wf_tensor; cbn [shape data];
    rewrite ?map_rows_length; simpl; try lia; try reflexivity.
  rewrite zip_plain_map_rows by lia.
  rewrite rows_mul_coef by (try rewrite zip_rows_length; lia).
  rewrite map_rows_zip_rows by lia. reflexivity.
Qed.

(** Without any assumption on the elements: the reverse step keeps the
    shape. *)
Lemma remove_noise_pure_shape (self : controller) noise t out b rest :
  wf_controller self ->
  in_range (num_time_steps self) t ->
  length t = b ->
  shape noise = b :: rest -> shape out = shape noise ->
  exists y, remove_noise_pure self noise t out = Ok y /\ shape y = b :: rest.
Proof.
  intros Hself Ht Hb Hx Ho.
  unfold remove_noise_pure.
  rewrite !extract_ok
    by (now rewrite ?(wf_remove_noise_coeff Hself),
                    ?(wf_reciprocal_sqrt_alphas Hself)).
  unfold rbind. rewrite Hb, <- Ho.
  rewrite (tbin_col_l_shape _ _ _ (rest := rest)) by congruence.
  rewrite tbin_same_shape by (cbn [shape]; congruence).
  rewrite Ho.
  match goal with
  | |- context [tbin fmul ?d _] =>
      rewrite (tbin_col_r_shape fmul _ d (b := b) (rest := rest)) by exact Hx
  end.
  eexists; split; reflexivity.
Qed.
End ControllerFacts.

(** ** The sampling loop *)

Section SampleFacts.
Context {F S : Type} {SF : Scalar F} {TF : Torch F S}.
Import GaussianDiffusion.
Local Open Scope se_scope.

Abbreviation controller := (@GaussianDiffusion.t F S).

(** What one turn of the loop at timestep [t] writes to the log: one call
    of the denoiser and, for [t > 0] only, one normal draw. *)
Definition step_events (b : nat) (s : list nat) (t : Z) : list event :=
  EvModel (repeat t b) :: (if (0 <? t)%Z then [EvRandn s] else []).

Definition sample_events (T b : nat) (s : list nat) : list event :=
  flat_map (step_events b s) (range_down (Z.of_nat T - 1) (-1)).

(** The reverse process as the spec words it: [t] runs from [n - 1] down
    to [0]; the state is replaced with [remove_noise(state, t, history)]
    and, for [t > 0], [sigma[t]] times a fresh normal draw is added. *)
Fixpoint reverse_process (self : controller) (his : tensor F) (batch_size : nat)
    (n : nat) (x : tensor F) : SE (world S) (tensor F) :=
  match n with
  | 0 => ret x
  | Datatypes.S t =>
      let t_batch := repeat (Z.of_nat t) batch_size in
      x1 <- remove_noise self x t_batch his ;;
      x2 <- (if 0 <? t then
               c <- lift (extract (sigma self) t_batch (shape x1)) ;;
               z <- randn_like x1 ;;
               cz <- lift (tbin fmul c z) ;;
               lift (tbin_inplace fadd x1 cz)
             else ret x1) ;;
      reverse_process self his batch_size t x2
  end.

Lemma range_down_succ n :
  range_down (Z.of_nat (Datatypes.S n) - 1) (-1) =
  Z.of_nat n :: range_down (Z.of_nat n - 1) (-1).
Proof.
  unfold range_down.
  replace (Z.to_nat (Z.of_nat (Datatypes.S n) - 1 - -1)) with (Datatypes.S n) by lia.
  replace (Z.to_nat (Z.of_nat n - 1 - -1)) with n by lia.
  cbn [seq map]. f_equal; [lia|].
  rewrite <- seq_shift, map_map. apply map_ext. intros k. lia.
Qed.

Lemma range_down_zero : range_down (Z.of_nat 0 - 1) (-1) = [].
Proof. reflexivity. Qed.

(** The loop of the source is the reverse process of the spec. *)
Lemma loop_is_reverse_process (self : controller) his batch_size n x w :
  for_each (range_down (Z.of_nat n - 1) (-1)) (sample_step self his batch_size) x w =
  reverse_process self his batch_size n x w.
Proof.
  revert x w; induction n as [|n IH]; intros x w.
  - reflexivity.
  - rewrite range_down_succ. cbn [for_each reverse_process].
    unfold sample_step at 1.
    replace (0 <? Z.of_nat n)%Z with (0 <? n)
      by (destruct (Nat.ltb_spec 0 n), (Z.ltb_spec 0 (Z.of_nat n)); auto; lia).
    unfold bind.
    destruct (remove_noise _ _ _ _ w) as [[x1|e] w1]; [|reflexivity].
    destruct (0 <? n).
    + destruct (lift _ w1) as [[c|e] w2]; [|reflexivity].
      destruct (randn_like x1 w2) as [[z|e] w3]; [|reflexivity].
      destruct (lift _ w3) as [[cz|e] w4]; [|reflexivity].
      destruct (lift _ w4) as [[x2|e] w5]; [|reflexivity].
      now rewrite IH.
    + unfold ret. now rewrite IH.
Qed.

(** The denoiser answers every input of shape [s], with one timestep index
    per batch row, with an output of shape [s] (the interface contract of
    the two denoisers). *)
Definition shape_preserving (m : @denoiser F S) (his : tensor F) (s : list nat)
  : Prop :=
  forall x t st0, shape x = s -> length t = hd 0 s ->
    exists out st1, m x t his st0 = (Ok out, st1) /\ shape out = s.

Lemma sample_step_ok (self : controller) m his b rest x t (w : world S) :
  wf_controller self ->
  diffusion_model self = Some m ->
  shape_preserving m his (b :: rest) ->
  shape x = b :: rest ->
  (0 <= t < Z.of_nat (num_time_steps self))%Z ->
  exists y w',
    sample_step self his b x t w = (Ok y, w') /\
    shape y = b :: rest /\
    log w' = log w ++ step_events b (b :: rest) t.
Proof.
  intros Hself Hm Hc Hx Ht.
  destruct (Hc x (repeat t b) (st w) Hx (repeat_length _ _)) as (out & s1 & Hrun & Hout).
  destruct (remove_noise_pure_shape (self := self) x out (t := repeat t b)
              (b := b) (rest := rest)) as (y & Hy & Hys); auto.
  { now apply in_range_repeat. }
  { apply repeat_length. }
  { congruence. }
  unfold sample_step, step_events.
  erewrite bind_ok; cycle 1.
  { rewrite (remove_noise_run _ _ _ _ _ Hm), Hrun, Hy. reflexivity. }
  destruct (0 <? t)%Z.
  - rewrite extract_ok
      by (rewrite (wf_sigma Hself); now apply in_range_repeat).
    rewrite bind_lift_ok.
    erewrite bind_ok by apply randn_like_run.
    rewrite repeat_length.
    match goal with
    | |- context [tbin fmul (mkTensor _ ?cs) ?z] =>
        change (tbin fmul (mkTensor (b :: repeat 1 (length (shape y) - 1)) cs) z)
          with (tbin fmul (mkTensor (b :: repeat 1 (length (shape z) - 1)) cs) z);
        rewrite (tbin_col_l_shape fmul cs z (b := b) (rest := rest))
          by (cbn [shape]; exact Hys)
    end.
    rewrite bind_lift_ok.
    unfold tbin_inplace. rewrite tbin_same_shape by (cbn [shape]; congruence).
    cbn [shape]. rewrite shape_eqb_refl.
    eexists _, _. split; [reflexivity|]. cbn [shape log].
    split; [exact Hys|]. rewrite Hys, <- app_assoc. reflexivity.
  - eexists _, _. split; [reflexivity|]. cbn [log]. split; [exact Hys|reflexivity].
Qed.

Lemma reverse_loop_ok (self : controller) m his b rest n :
  wf_controller self ->
  diffusion_model self = Some m ->
  shape_preserving m his (b :: rest) ->
  n <= num_time_steps self ->
  forall x (w : world S),
    shape x = b :: rest ->
    exists y w',
      for_each (range_down (Z.of_nat n - 1) (-1)) (sample_step self his b) x w
      = (Ok y, w') /\
      shape y = b :: rest /\
      log w' = log w ++ sample_events n b (b :: rest).
Proof.
  intros Hself Hm Hc. unfold sample_events.
  induction n as [|n IH]; intros Hn x w Hx.
  - exists x, w. rewrite range_down_zero. cbn. rewrite app_nil_r. auto.
  - rewrite range_down_succ. cbn [for_each flat_map].
    destruct (@sample_step_ok self m his b rest x (Z.of_nat n) w Hself Hm Hc Hx)
      as (y & w1 & Hstep & Hy & Hlog); [lia|].
    destruct (IH ltac:(lia) y w1 Hy) as (z & w2 & Hloop & Hz & Hlog2).
    exists z, w2. erewrite bind_ok by exact Hstep.
    split; [exact Hloop|]. split; [exact Hz|].
    rewrite Hlog2, Hlog, <- app_assoc. reflexivity.
Qed.

Lemma step_events_models b s t :
  length (filter is_model (step_events b s t)) = 1.
Proof. unfold step_events. destruct (0 <? t)%Z; reflexivity. Qed.

Lemma sample_events_models T b s :
  length (filter is_model (sample_events T b s)) = T.
Proof.
  unfold sample_events. induction T as [|T IH]; [reflexivity|].
  rewrite range_down_succ. cbn [flat_map].
  rewrite filter_app, length_app, step_events_models, IH. reflexivity.
Qed.

Lemma sample_events_randn T b s :
  length (filter is_randn (sample_events T b s)) = T - 1.
Proof.
  unfold sample_events. induction T as [|T IH]; [reflexivity|].
  rewrite range_down_succ. cbn [flat_map].
  rewrite filter_app, length_app, IH. unfold step_events.
  destruct (Z.ltb_spec 0 (Z.of_nat T)); simpl; lia.
Qed.

(** *** The final normalisation *)

Lemma py_transpose_1_last (x : tensor F) b a n c :
  shape x = [b; a; n; c] ->
  exists d, py_transpose 1 (-1) x = Ok (mkTensor [b; c; n; a] d).
Proof.
  destruct x as [sx dx]. cbn [shape]. intros ->.
  eexists. reflexivity.
Qed.

(** The batch-size check of a batch norm in training mode passes. *)
Definition batch_check_passes (s : list nat) : Prop :=
  forall st0 : S, training st0 && (size_prods s =? 1) = false.

Lemma BatchNorm2d_ok path k (x : tensor F) b n a (st0 : S) :
  shape x = [b; k; n; a] ->
  batch_check_passes [b; k; n; a] ->
  exists d st1,
    BatchNorm_forward (BatchNorm2d path k) x st0 = (Ok (mkTensor [b; k; n; a] d), st1).
Proof.
  intros Hx Hb. unfold BatchNorm_forward, BatchNorm2d, rank.
  cbn [bn_ranks num_features bn_path]. rewrite Hx. cbn [length existsb Nat.eqb negb orb].
  rewrite Hb. cbn [nth]. rewrite Nat.eqb_refl, orb_true_r.
  destruct (layer_num _ _ _ _) as [d st1]. eexists _, _. reflexivity.
Qed.


(** An input without an element is returned as an empty output, whatever
    its channel count. *)
Lemma BatchNorm2d_empty path k (x : tensor F) b c n a (st0 : S) :
  shape x = [b; c; n; a] ->
  b * c * n * a = 0 ->
  training st0 && (size_prods [b; c; n; a] =? 1) = false ->
  exists d st1,
    BatchNorm_forward (BatchNorm2d path k) x st0 = (Ok (mkTensor [b; c; n; a] d), st1).
Proof.
  intros Hx He Hb. unfold BatchNorm_forward, BatchNorm2d, rank.
  cbn [bn_ranks num_features bn_path]. rewrite Hx. cbn [length existsb Nat.eqb negb orb].
  rewrite Hb.
  destruct (Nat.eqb_spec (numel [b; c; n; a]) 0) as [_|E].
  - cbn [orb]. destruct (layer_num _ _ _ _) as [d st1]. eexists _, _. reflexivity.
  - exfalso. apply E. unfold numel. cbn [fold_right]. nia.
Qed.

(** [sample] as the spec words it. *)
Definition sample_spec (self : controller) (noise his : tensor F)
  : SE (world S) (tensor F) :=
  if String.eqb (diffusion_type self) "none" then ret noise
  else
    batch_size <- lift (shape_at 0 his) ;;
    x <- reverse_process self his batch_size (num_time_steps self) noise ;;
    x <- lift (py_transpose 1 (-1) x) ;;
    x <- in_world (BatchNorm_forward (norm_output self) x) ;;
    lift (py_transpose 1 (-1) x).

Lemma sample_is_spec (self : controller) noise his w :
  sample self noise his w = sample_spec self noise his w.
Proof.
  unfold sample, sample_spec, enabled.
  destruct (String.eqb _ _); cbn [negb]; [reflexivity|].
  unfold bind. destruct (lift (shape_at 0 his) w) as [[bs|e] w1]; [|reflexivity].
  now rewrite loop_is_reverse_process.
Qed.

Lemma sample_disabled (self : controller) noise his w :
  diffusion_type self = "none"%string -> sample self noise his w = (Ok noise, w).
Proof. intros H. unfold sample, enabled. rewrite H. reflexivity. Qed.

Lemma enabled_iff (self : controller) :
  enabled self = true <-> diffusion_type self <> "none"%string.
Proof.
  unfold enabled. destruct (String.eqb_spec (diffusion_type self) "none"); simpl;
    split; congruence.
Qed.

(** An enabled controller on consistent shapes: the loop runs to its end
    and the final normalisation is reached with the state the loop built. *)
Lemma sample_enabled_run (self : controller) m noise his b a n c hrest (w : world S) :
  wf_controller self ->
  diffusion_type self <> "none"%string ->
  diffusion_model self = Some m ->
  shape_preserving m his [b; a; n; c] ->
  shape noise = [b; a; n; c] ->
  shape his = b :: hrest ->
  exists x d w1,
    reverse_process self his b (num_time_steps self) noise w = (Ok x, w1) /\
    shape x = [b; a; n; c] /\
    log w1 = log w ++ sample_events (num_time_steps self) b [b; a; n; c] /\
    sample self noise his w =
    (x <- in_world (BatchNorm_forward (norm_output self) (mkTensor [b; c; n; a] d)) ;;
     lift (py_transpose 1 (-1) x)) w1.
Proof.
  intros Hself Hen Hm Hc Hx Hh.
  destruct (@reverse_loop_ok self m his b [a; n; c] (num_time_steps self)
              Hself Hm Hc (le_n _) noise w Hx) as (x & w1 & Hloop & Hxs & Hlog).
  destruct (py_transpose_1_last x Hxs) as (d & Hd).
  exists x, d, w1. rewrite <- loop_is_reverse_process.
  repeat split; auto.
  unfold sample. apply enabled_iff in Hen. rewrite Hen.
  unfold shape_at. rewrite Hh. cbn [nth_error]. rewrite bind_lift_ok.
  erewrite bind_ok by exact Hloop.
  rewrite Hd, bind_lift_ok. reflexivity.
Qed.

(** *** The reverse process in closed form *)

Lemma zip_with_map_r {A B B' C} (h : A -> B -> C) (g : B' -> B) l1 l2 :
  zip_with h l1 (map g l2) = zip_with (fun x y => h x (g y)) l1 l2.
Proof.
  revert l2; induction l1 as [|x l1 IH]; intros [|y l2]; simpl; auto.
  f_equal. apply IH.
Qed.

(** With one timestep for the whole batch a row-wise operation is the
    elementwise one. *)
Lemma map_rows_repeat (g : Z -> F -> F) t b k (d : list F) :
  length d = b * k -> map_rows g (repeat t b) k d = map (g t) d.
Proof.
  unfold map_rows. rewrite repeat_length.
  revert d; induction b as [|b IH]; intros d Hd; cbn [repeat chunks zip_with concat].
  - destruct d; [reflexivity | discriminate].
  - rewrite IH by (rewrite length_skipn; lia).
    rewrite <- map_app, firstn_skipn. reflexivity.
Qed.

Lemma zip_rows_repeat (g : Z -> F -> F -> F) t b k (d1 d2 : list F) :
  length d1 = b * k -> length d2 = b * k ->
  zip_rows g (repeat t b) k d1 d2 = zip_with (g t) d1 d2.
Proof.
  unfold zip_rows. rewrite repeat_length.
  revert d1 d2; induction b as [|b IH]; intros d1 d2 H1 H2;
    cbn [repeat chunks combine zip_with concat fst snd].
  - destruct d1; [reflexivity | discriminate].
  - rewrite IH by (rewrite length_skipn; lia).
    symmetry. apply zip_with_firstn_skipn.
Qed.

(** A draw of [k] normal values returns [k] values. *)
Definition normal_draws_sized : Prop :=
  forall k (s : S), length (fst (draw_normal k s)) = k.

(** The denoiser returns tensors: as many elements as the shape holds. *)
Definition wf_answers (m : @denoiser F S) (his : tensor F) : Prop :=
  forall x t st0 out st1,
    wf_tensor x -> m x t his st0 = (Ok out, st1) -> wf_tensor out.

(** One element of [remove_noise] at the timestep [t], from the element [x]
    of the state and the element [o] of the denoiser's answer. *)
Definition denoised (self : controller) (t : Z) (x o : F) : F :=
  fmul (fsub x (fmul (coef (remove_noise_coeff self) t) o))
       (coef (reciprocal_sqrt_alphas self) t).

(** One element after the noise is added: [y + sigma[t] * z]. *)
Definition noised (self : controller) (t : Z) (y z : F) : F :=
  fadd y (fmul (coef (sigma self) t) z).

(** The reverse process written out on the elements: for [t] from [n - 1]
    down to [0], the denoiser is called once on the state and the batch of
    [t]; every element becomes [(x - remove_noise_coeff[t] * answer) *
    reciprocal_sqrt_alphas[t]]; and for [t > 0], and only then, a normal
    draw of the size of the state is made and [sigma[t]] times it is added
    element by element. *)
Fixpoint reverse_closed (self : controller) (m : @denoiser F S) (his : tensor F)
    (b n : nat) (x : tensor F) (w : world S) : result (tensor F) * world S :=
  match n with
  | 0 => (Ok x, w)
  | Datatypes.S t =>
      let tz := Z.of_nat t in
      match m x (repeat tz b) his (st w) with
      | (Raise e, s1) => (Raise e, mkWorld s1 (log w ++ [EvModel (repeat tz b)]))
      | (Ok out, s1) =>
          let y := zip_with (denoised self tz) (data x) (data out) in
          if 0 <? t then
            let z := fst (draw_normal (numel (shape x)) s1) in
            let s2 := snd (draw_normal (numel (shape x)) s1) in
            reverse_closed self m his b t
              (mkTensor (shape x) (zip_with (noised self tz) y z))
              (mkWorld s2 (log w ++ [EvModel (repeat tz b); EvRandn (shape x)]))
          else
            reverse_closed self m his b t (mkTensor (shape x) y)
              (mkWorld s1 (log w ++ [EvModel (repeat tz b)]))
      end
  end.

Lemma reverse_process_closed (self : controller) m his b rest n :
  wf_controller self ->
  diffusion_model self = Some m ->
  normal_draws_sized ->
  shape_preserving m his (b :: rest) -> wf_answers m his ->
  n <= num_time_steps self ->
  forall x (w : world S),
    shape x = b :: rest -> wf_tensor x ->
    reverse_process self his b n x w = reverse_closed self m his b n x w.
Proof.
  intros Hself Hm Hdraw Hc Hwf.
  induction n as [|t IH]; intros Hn x w Hx Wx; [reflexivity|].
  cbn [reverse_process reverse_closed]. cbv zeta.
  destruct (Hc x (repeat (Z.of_nat t) b) (st w) Hx (repeat_length _ _))
    as (out & s1 & Hrun & Hout).
  pose proof (Hwf _ _ _ _ _ Wx Hrun) as Wo.
  assert (Hr : in_range (num_time_steps self) (repeat (Z.of_nat t) b))
    by (apply in_range_repeat; lia).
  assert (Ldx : length (data x) = b * numel rest)
    by (unfold wf_tensor in Wx; rewrite Wx, Hx; reflexivity).
  assert (Ldo : length (data out) = b * numel rest)
    by (unfold wf_tensor in Wo; rewrite Wo, Hout; reflexivity).
  rewrite Hrun.
  erewrite bind_ok; cycle 1.
  { rewrite (remove_noise_run _ _ _ _ _ Hm), Hrun.
    rewrite (remove_noise_pure_ok (b := b) (rest := rest) Hself Hr (repeat_length _ _) Hx)
      by (assumption || congruence).
    reflexivity. }
  unfold remove_noise_spec. rewrite Hx. cbn [tl].
  rewrite zip_rows_repeat by assumption.
  change (fun x0 o : F =>
            fmul (fsub x0 (fmul (coef (remove_noise_coeff self) (Z.of_nat t)) o))
              (coef (reciprocal_sqrt_alphas self) (Z.of_nat t)))
    with (denoised self (Z.of_nat t)).
  set (y := zip_with (denoised self (Z.of_nat t)) (data x) (data out)).
  assert (Ly : length y = b * numel rest)
    by (unfold y; rewrite zip_with_length; lia).
  destruct (0 <? t) eqn:Ht.
  - cbn [shape].
    set (z := fst (draw_normal (numel (b :: rest)) s1)).
    assert (Lz : length z = b * numel rest) by (unfold z; rewrite Hdraw; reflexivity).
    erewrite bind_ok; cycle 1.
    { rewrite extract_ok by (rewrite (wf_sigma Hself); exact Hr).
      rewrite bind_lift_ok.
      erewrite bind_ok by apply randn_like_run. cbn [shape st log]. fold z.
      rewrite coef_mul_rows by (rewrite ?repeat_length; auto).
      rewrite bind_lift_ok. unfold tbin_inplace.
      rewrite tbin_same;
        [| reflexivity
         | unfold wf_tensor; cbn [shape data]; rewrite Ly; reflexivity
         | unfold wf_tensor; cbn [shape data];
           rewrite map_rows_length by (rewrite repeat_length; exact Lz);
           rewrite repeat_length; reflexivity].
      cbn [shape data]. rewrite shape_eqb_refl.
      rewrite map_rows_repeat by exact Lz.
      rewrite zip_with_map_r.
      change (fun x0 y0 : F => fadd x0 (fmul (coef (sigma self) (Z.of_nat t)) y0))
        with (noised self (Z.of_nat t)).
      rewrite <- app_assoc. cbn [app]. reflexivity. }
    apply IH; [lia | reflexivity |].
    unfold wf_tensor. cbn [shape data]. rewrite zip_with_length, Ly, Lz.
    unfold numel. cbn [fold_right]. lia.
  - unfold ret at 1. unfold bind at 1.
    apply IH; [lia | reflexivity |].
    unfold wf_tensor. cbn [shape data]. rewrite Ly. reflexivity.
Qed.

(** The final normalisation of [sample]: the batch norm over the last
    axis, moved to the channel position and back. *)
Definition final_normalisation (self : controller) (x : tensor F)
  : SE (world S) (tensor F) :=
  x <- lift (py_transpose 1 (-1) x) ;;
  x <- in_world (BatchNorm_forward (norm_output self) x) ;;
  lift (py_transpose 1 (-1) x).

Lemma sample_is_final (self : controller) noise his b hrest x (w w1 : world S) :
  diffusion_type self <> "none"%string ->
  shape his = b :: hrest ->
  reverse_process self his b (num_time_steps self) noise w = (Ok x, w1) ->
  sample self noise his w = final_normalisation self x w1.
Proof.
  intros Hen Hh Hloop. unfold sample, final_normalisation.
  apply enabled_iff in Hen. rewrite Hen.
  unfold shape_at. rewrite Hh. cbn [nth_error]. rewrite bind_lift_ok.
  erewrite bind_ok by (rewrite loop_is_reverse_process; exact Hloop).
  reflexivity.
Qed.

(** C1. [sample] with diffusion disabled returns its input and touches
    nothing.  With diffusion enabled, on a tensor of noise and a denoiser
    that answers with tensors of the shape of the state, the loop is the
    reverse process written out on the elements: [t] runs from
    [num_time_steps - 1] down to [0]; at each [t] the denoiser is called
    once and every element of the state becomes the [remove_noise] value
    [(x - remove_noise_coeff[t] * answer) * reciprocal_sqrt_alphas[t]]; for
    [t > 0], and only then, one normal draw is made and [sigma[t]] times it
    is added to every element.  The log of the loop is exactly one denoiser
    call per timestep, [num_time_steps] of them, each followed by one draw
    when [t > 0] and by none when [t = 0]; [sample] returns what the final
    normalisation makes of the state the loop ends in: a tensor of the shape
    of the input, when the batch norm is in evaluation mode or has more than
    one value per channel. *)
Theorem sample_runs_reverse_process (self : controller) (noise his : tensor F)
    (w : world S) :
  (diffusion_type self = "none"%string -> sample self noise his w = (Ok noise, w)) /\
  (diffusion_type self <> "none"%string ->
   forall m b a n hrest,
     wf_controller self ->
     diffusion_model self = Some m ->
     norm_output self = BatchNorm2d "norm_output" 5 ->
     normal_draws_sized ->
     shape_preserving m his [b; a; n; 5] -> wf_answers m his ->
     shape noise = [b; a; n; 5] -> wf_tensor noise ->
     shape his = b :: hrest ->
     exists x w1,
       reverse_closed self m his b (num_time_steps self) noise w = (Ok x, w1) /\
       shape x = shape noise /\
       log w1 = log w ++ sample_events (num_time_steps self) b (shape noise) /\
       length (filter is_model (sample_events (num_time_steps self) b (shape noise)))
       = num_time_steps self /\
       length (filter is_randn (sample_events (num_time_steps self) b (shape noise)))
       = num_time_steps self - 1 /\
       sample self noise his w = final_normalisation self x w1 /\
       (batch_check_passes [b; 5; n; a] ->
        exists y w',
          final_normalisation self x w1 = (Ok y, w') /\
          shape y = shape noise /\
          log w' = log w1)).
Proof.
  split; [apply sample_disabled|].
  intros Hen m b a n hrest Hself Hm Hnorm Hdraw Hc Hwf Hx Wx Hh.
  destruct (@sample_enabled_run self m noise his b a n 5 hrest w)
    as (x & _ & w1 & Hloop & Hxs & Hlog & _); auto.
  pose proof (@sample_is_final self noise his b hrest x w w1 Hen Hh Hloop) as Hfinal.
  rewrite (@reverse_process_closed self m his b [a; n; 5] (num_time_steps self)
             Hself Hm Hdraw Hc Hwf (le_n _) noise w Hx Wx) in Hloop.
  exists x, w1. rewrite Hx. cbn [shape].
  repeat split; auto using sample_events_models, sample_events_randn.
  intros Hb.
  destruct (py_transpose_1_last x Hxs) as (d & Hd).
  destruct (@BatchNorm2d_ok "norm_output" 5 (mkTensor [b; 5; n; a] d) b n a (st w1)
              eq_refl Hb) as (d' & st2 & Hbn).
  destruct (@py_transpose_1_last (mkTensor [b; 5; n; a] d') b 5 n a eq_refl)
    as (d'' & Hd'').
  exists (mkTensor [b; a; n; 5] d''), (mkWorld st2 (log w1)).
  repeat split.
  unfold final_normalisation. rewrite Hd, bind_lift_ok, Hnorm.
  unfold bind, in_world. rewrite Hbn, Hd''. reflexivity.
Qed.

End SampleFacts.

(** ** Closed forms, row by row *)

Section RowReading.
Context {T F : Type}.

Lemma zip_combine_nth_error {A B C} (G : T -> A -> B -> C) ts l1 l2 i t a b :
  nth_error ts i = Some t -> nth_error l1 i = Some a -> nth_error l2 i = Some b ->
  nth_error (zip_with (fun t p => G t (fst p) (snd p)) ts (combine l1 l2)) i
  = Some (G t a b).
Proof.
  revert ts l1 l2; induction i as [|i IH]; intros [|t0 ts] [|a0 l1] [|b0 l2];
    simpl; try discriminate.
  - now intros [= ->] [= ->] [= ->].
  - apply IH.
Qed.

Lemma zip_combine_each (g : T -> F -> F -> F) k ts (l1 l2 : list (list F)) :
  Forall (fun c => length c = k) l1 -> Forall (fun c => length c = k) l2 ->
  Forall (fun c => length c = k)
    (zip_with (fun t p => zip_with (g t) (fst p) (snd p)) ts (combine l1 l2)).
Proof.
  intros H1; revert ts l2; induction H1 as [|a l1 Ha H1 IH];
    intros [|t ts] [|b l2] H2; simpl; try constructor.
  - inversion H2; subst. rewrite zip_with_length. lia.
  - inversion H2; subst. now apply IH.
Qed.

Lemma zip_combine_length {A B C} (G : T -> A -> B -> C) ts (l1 : list A) (l2 : list B) :
  length l1 = length ts -> length l2 = length ts ->
  length (zip_with (fun t p => G t (fst p) (snd p)) ts (combine l1 l2)) = length ts.
Proof.
  intros H1 H2. rewrite zip_with_length, length_combine. lia.
Qed.

(** Block [i] of a row-wise combination is the combination of the blocks
    [i] of its operands at the [i]-th parameter. *)
Lemma zip_rows_block (g : T -> F -> F -> F) ts k d1 d2 i t r1 r2 :
  length d1 = length ts * k -> length d2 = length ts * k ->
  nth_error ts i = Some t ->
  nth_error (chunks k (length ts) d1) i = Some r1 ->
  nth_error (chunks k (length ts) d2) i = Some r2 ->
  nth_error (chunks k (length ts) (zip_rows g ts k d1 d2)) i
  = Some (zip_with (g t) r1 r2).
Proof.
  intros H1 H2 Ht Hr1 Hr2. unfold zip_rows.
  set (L := zip_with _ ts _).
  assert (HL : length L = length ts)
    by (apply (zip_combine_length (fun t a b => zip_with (g t) a b));
        apply chunks_length).
  rewrite <- HL. rewrite chunks_concat.
  - unfold L.
    now apply (zip_combine_nth_error (fun t a b => zip_with (g t) a b)).
  - apply zip_combine_each; now apply chunks_each.
Qed.
End RowReading.

Section ClosedForms.
Context {F S : Type} {SF : Scalar F} {TF : Torch F S}.
Import GaussianDiffusion.

(** C2. [perturb_x(x0, t, noise)] on a trajectory with one batch row per
    timestep index, a noise tensor of the same shape and indices within
    [[0, num_time_steps)] returns a tensor of the shape of [x0] whose batch
    row [i] is, element by element over the agent, step and coordinate
    axes,
    [sqrt_alphas_cum_prod[t[i]] * x0 + sqrt_one_minus_alphas_cum_prod[t[i]] * noise]. *)
Theorem perturb_x_closed_form (self : @GaussianDiffusion.t F S)
    (x0 noise : tensor F) (t : list Z) (b : nat) (rest : list nat) :
  wf_controller self ->
  in_range (num_time_steps self) t ->
  length t = b ->
  shape x0 = b :: rest -> shape noise = shape x0 ->
  wf_tensor x0 -> wf_tensor noise ->
  exists xt,
    perturb_x self x0 t noise = Ok xt /\
    shape xt = shape x0 /\
    forall i tb rx rn,
      nth_error t i = Some tb ->
      nth_error (rows x0) i = Some rx ->
      nth_error (rows noise) i = Some rn ->
      nth_error (rows xt) i =
      Some (zip_with
              (fun x n =>
                 fadd (fmul (coef (sqrt_alphas_cum_prod self) tb) x)
                      (fmul (coef (sqrt_one_minus_alphas_cum_prod self) tb) n))
              rx rn).
Proof.
  intros Hself Ht Hb Hx Hn Wx Wn.
  exists (perturb_spec self x0 t noise).
  split; [eapply perturb_x_ok; eauto|]. split; [reflexivity|].
  intros i tb rx rn Hi Hrx Hrn.
  unfold rows, perturb_spec in *. cbn [shape data]. rewrite Hn in Hrn.
  rewrite Hx in *. cbn [tl hd] in *. subst b.
  unfold wf_tensor in *. rewrite ?Hn, Hx in *. simpl in Wx, Wn.
  erewrite zip_rows_block by eassumption. reflexivity.
Qed.

(** C3. [remove_noise(xt, t, history)] calls the controller's denoiser
    once on [(xt, t, history)] and, for any denoiser whose answer has the
    shape of [xt], returns the tensor whose batch row [i] is, element by
    element, [(xt - remove_noise_coeff[t[i]] * out) * reciprocal_sqrt_alphas[t[i]]]
    with [out] the denoiser's answer. *)
Theorem remove_noise_closed_form (self : @GaussianDiffusion.t F S) m
    (xt his out : tensor F) (t : list Z) (b : nat) (rest : list nat)
    (w : world S) (s' : S) :
  wf_controller self ->
  diffusion_model self = Some m ->
  m xt t his (st w) = (Ok out, s') ->
  in_range (num_time_steps self) t ->
  length t = b ->
  shape xt = b :: rest -> shape out = shape xt ->
  wf_tensor xt -> wf_tensor out ->
  exists y,
    remove_noise self xt t his w = (Ok y, mkWorld s' (log w ++ [EvModel t])) /\
    shape y = shape xt /\
    forall i tb rx ro,
      nth_error t i = Some tb ->
      nth_error (rows xt) i = Some rx ->
      nth_error (rows out) i = Some ro ->
      nth_error (rows y) i =
      Some (zip_with
              (fun x o =>
                 fmul (fsub x (fmul (coef (remove_noise_coeff self) tb) o))
                      (coef (reciprocal_sqrt_alphas self) tb))
              rx ro).
Proof.
  intros Hself Hm Hrun Ht Hb Hx Ho Wx Wo.
  exists (remove_noise_spec self xt t out).
  split.
  { rewrite (remove_noise_run _ _ _ _ _ Hm), Hrun.
    erewrite remove_noise_pure_ok; eauto. }
  split; [reflexivity|].
  intros i tb rx ro Hi Hrx Hro.
  unfold rows, remove_noise_spec in *. cbn [shape data]. rewrite Ho in Hro.
  rewrite Hx in *. cbn [tl hd] in *. subst b.
  unfold wf_tensor in *. rewrite ?Ho, Hx in *. simpl in Wx, Wo.
  erewrite zip_rows_block by eassumption. reflexivity.
Qed.
End ClosedForms.

(** ** The coefficient schedule *)

Section NumpyFacts.
Context {D : Type} {SD : Scalar D}.

(** [a[0] * a[1] * ... * a[i]], multiplied from the left. *)
Definition prod_upto (a : list D) (i : nat) : D :=
  fold_left fmul (firstn i (tl a)) (hd (of_Z 1) a).

Lemma cumprod_from_length acc (a : list D) :
  length (cumprod_from acc a) = length a.
Proof. revert acc; induction a; intros acc; simpl; auto. Qed.

Lemma cumprod_length (a : list D) : length (cumprod a) = length a.
Proof. destruct a; simpl; auto using cumprod_from_length. Qed.

Lemma cumprod_from_nth_error acc (a : list D) i :
  i < length a ->
  nth_error (cumprod_from acc a) i = Some (fold_left fmul (firstn (1 + i) a) acc).
Proof.
  revert acc i; induction a as [|x a IH]; intros acc i Hi; simpl in Hi; [lia|].
  destruct i as [|i]; simpl.
  - reflexivity.
  - rewrite IH by lia. reflexivity.
Qed.

Lemma cumprod_nth_error (a : list D) i :
  i < length a -> nth_error (cumprod a) i = Some (prod_upto a i).
Proof.
  destruct a as [|x a]; simpl; [lia|]. intros Hi. unfold prod_upto. cbn [tl hd].
  destruct i as [|i]; [reflexivity|]. simpl nth_error.
  now rewrite cumprod_from_nth_error by lia.
Qed.

Lemma nth_error_removelast {A} (l : list A) i :
  1 + i < length l -> nth_error (removelast l) i = nth_error l i.
Proof.
  intros Hi. rewrite removelast_firstn_len, nth_error_firstn.
  destruct (Nat.ltb_spec i (Nat.pred (length l))); [reflexivity | lia].
Qed.

Lemma np_bin_zip (f : D -> D -> D) (a b : list D) :
  length a = length b \/ (length a = 1 /\ length b = 0) ->
  np_bin f a b = Ok (zip_with f a b).
Proof.
  intros Hl. unfold np_bin.
  destruct (Nat.eqb_spec (length a) (length b)) as [|Hne]; [reflexivity|].
  destruct b as [|y b]; [|simpl in *; lia].
  destruct a as [|x [|]]; simpl in *; try lia. reflexivity.
Qed.
End NumpyFacts.

(** ** Construction *)

Section InitFacts.
Context {D F S : Type} {SD : Scalar D} {SF : Scalar F} {TF : Torch F S}.
Variable to_torch : D -> F.
Import GaussianDiffusion.

Lemma size_of_ok z : (0 <= z)%Z -> size_of z = Ok (Z.to_nat z).
Proof. intros Hz. unfold size_of. destruct (Z.ltb_spec z 0); [lia|reflexivity]. Qed.

Lemma Linear_init_ok path i o :
  (0 <= i)%Z -> (0 <= o)%Z ->
  Linear_init path i o = Ok (mkLinear path (Z.to_nat i) (Z.to_nat o)).
Proof. intros Hi Ho. unfold Linear_init. now rewrite !size_of_ok. Qed.

Lemma LinearLayer_init_ok path i o :
  (0 <= i)%Z -> (0 <= o)%Z ->
  LinearLayer_init path i o =
  Ok (mkLinearLayer (mkLinear (path ++ ".layer.0") (Z.to_nat i) (Z.to_nat o))
        (BatchNorm1d (path ++ ".normal") (Z.to_nat o))).
Proof. intros Hi Ho. unfold LinearLayer_init. now rewrite Linear_init_ok. Qed.

Lemma Decoder_init_ok path i mid o :
  (0 <= i)%Z -> (0 <= mid)%Z -> (0 <= o)%Z ->
  Decoder_init path i mid o =
  Ok (mkDecoder
        (mkLinearLayer
           (mkLinear ((path ++ ".up") ++ ".layer.0") (Z.to_nat i) (Z.to_nat o))
           (BatchNorm1d ((path ++ ".up") ++ ".normal") (Z.to_nat o)))
        (mkLinearLayer
           (mkLinear ((path ++ ".cat_layer") ++ ".layer.0") (Z.to_nat mid) (Z.to_nat o))
           (BatchNorm1d ((path ++ ".cat_layer") ++ ".normal") (Z.to_nat o)))).
Proof.
  intros Hi Hm Ho. unfold Decoder_init. rewrite !LinearLayer_init_ok by assumption.
  reflexivity.
Qed.

(** The encoder-decoder the controller builds: [his_stp] is the default 11,
    so the first layer is [10 * input_dim + 11 * conditional_dim + 1] wide. *)
Lemma Unet_init_ok path (i c : nat) :
  exists m,
    @UnetDiffusionModel.__init__ path None i c 11 = Ok m /\
    UnetDiffusionModel.his_delt_step m = 10%Z /\
    UnetDiffusionModel.input_dim m = i /\
    in_features (layer (UnetDiffusionModel.layer1 m)) = 10 * i + 11 * c + 1.
Proof.
  unfold UnetDiffusionModel.__init__, UnetDiffusionModel.dim_at.
  cbv zeta. cbn [nth_error rbind].
  repeat (first [ rewrite LinearLayer_init_ok by lia
                | rewrite Decoder_init_ok by lia
                | rewrite Linear_init_ok by lia ];
          cbn [nth_error rbind]).
  eexists. split; [reflexivity|].
  cbn [UnetDiffusionModel.his_delt_step UnetDiffusionModel.input_dim
       UnetDiffusionModel.layer1 layer in_features].
  repeat split. lia.
Qed.

(** The cross-attention denoiser the controller builds: its projection head
    expects [10 * input_dim + 1] features. *)
Lemma Dit_init_ok path (i c : nat) (blocks : Z) :
  exists m,
    @DitDiffusionModel.__init__ path i c 11 blocks = Ok m /\
    DitDiffusionModel.his_delt_step m = 10%Z /\
    DitDiffusionModel.input_dim m = (10 * Z.of_nat i + 1)%Z /\
    in_features (DitDiffusionModel.linear_output_0 m) = 10 * i + 1.
Proof.
  unfold DitDiffusionModel.__init__. cbv zeta.
  repeat (rewrite Linear_init_ok by lia; cbn [rbind]).
  eexists. split; [reflexivity|].
  cbn [DitDiffusionModel.his_delt_step DitDiffusionModel.input_dim
       DitDiffusionModel.linear_output_0 in_features].
  repeat split; lia.
Qed.

Lemma np_remove_noise_coeff_ok (bs : list D) :
  np_remove_noise_coeff bs =
  Ok (zip_with fmul bs
        (map (fsub (of_Z 1))
           (zip_with fdiv (np_alphas_cum_prod_prev bs)
              (map fsqrt (map (fsub (of_Z 1)) (np_alphas_cum_prod bs)))))).
Proof.
  unfold np_remove_noise_coeff.
  assert (Hacp : length (np_alphas_cum_prod bs) = length bs)
    by (unfold np_alphas_cum_prod, np_alphas; now rewrite cumprod_length, length_map).
  assert (Hprev : length (np_alphas_cum_prod_prev bs) = Nat.max 1 (length bs)).
  { unfold np_alphas_cum_prod_prev. cbn [length].
    rewrite removelast_firstn_len, length_firstn, Hacp. lia. }
  rewrite np_bin_zip by (rewrite !length_map, Hacp, Hprev; lia).
  cbn [rbind]. apply np_bin_zip.
  rewrite length_map, zip_with_length, !length_map, Hprev, Hacp. lia.
Qed.

(** The record a successful construction returns. *)
Definition built (input_dim : nat) (his_stp : Z) (bs : list D)
    (loss_type diffusion_type : string) (model : option (@denoiser F S))
  : @GaussianDiffusion.t F S :=
  mk loss_type diffusion_type (length bs)
    (map to_torch bs)
    (map to_torch (np_alphas bs))
    (map to_torch (np_alphas_cum_prod bs))
    (map to_torch (map fsqrt (np_alphas_cum_prod bs)))
    (map to_torch (map fsqrt (map (fsub (of_Z 1)) (np_alphas_cum_prod bs))))
    (map to_torch (map fsqrt (map (fdiv (of_Z 1)) (np_alphas bs))))
    (map to_torch (map fsqrt bs))
    (map to_torch
       (zip_with fmul bs
          (map (fsub (of_Z 1))
             (zip_with fdiv (np_alphas_cum_prod_prev bs)
                (map fsqrt (map (fsub (of_Z 1)) (np_alphas_cum_prod bs)))))))
    (his_stp - 1)%Z model input_dim (BatchNorm2d "norm_output" 5).

(** The denoiser a construction with [diffusion_type] installs: always one
    built for [his_stp = 11]. *)
Definition installed (input_dim conditional_dim : nat) (num_dit_blocks : Z)
    (diffusion_type : string) (model : option (@denoiser F S)) : Prop :=
  (diffusion_type = "none"%string /\ model = None) \/
  (diffusion_type = "unet"%string /\
   exists m, @UnetDiffusionModel.__init__ "diffusion_model" None input_dim
               conditional_dim 11 = Ok m /\
             model = Some (UnetDiffusionModel.forward m)) \/
  (diffusion_type = "dit"%string /\
   exists m, @DitDiffusionModel.__init__ "diffusion_model" input_dim
               conditional_dim 11 num_dit_blocks = Ok m /\
             model = Some (DitDiffusionModel.forward m)).

Lemma init_ok (input_dim conditional_dim : nat) (his_stp : Z) (bs : list D)
    (loss_type : string) (num_dit_blocks : Z) (diffusion_type : string) :
  In loss_type ["l1"; "l2"]%string ->
  In diffusion_type ["dit"; "unet"; "none"]%string ->
  exists model,
    __init__ to_torch input_dim conditional_dim his_stp (Some bs) loss_type
      num_dit_blocks diffusion_type
    = Ok (built input_dim his_stp bs loss_type diffusion_type model) /\
    installed input_dim conditional_dim num_dit_blocks diffusion_type model.
Proof.
  intros Hl Hd. unfold __init__.
  assert (Hl' : existsb (String.eqb loss_type) ["l1"; "l2"]%string = true).
  { simpl in Hl. destruct Hl as [<-|[<-|[]]]; reflexivity. }
  rewrite Hl'. cbn [negb]. rewrite np_remove_noise_coeff_ok. cbn [rbind].
  simpl in Hd. destruct Hd as [<-|[<-|[<-|[]]]]; cbn [existsb String.eqb negb].
  - destruct (Dit_init_ok "diffusion_model" input_dim conditional_dim num_dit_blocks)
      as (m & Hm & _).
    exists (Some (DitDiffusionModel.forward m)).
    change (("dit" =? "dit")%string) with true. cbv iota.
    rewrite Hm. split; [reflexivity|]. right; right. eauto.
  - destruct (Unet_init_ok "diffusion_model" input_dim conditional_dim)
      as (m & Hm & _).
    exists (Some (UnetDiffusionModel.forward m)).
    change (("unet" =? "dit")%string) with false.
    change (("unet" =? "unet")%string) with true. cbv iota.
    rewrite Hm. split; [reflexivity|]. right; left. eauto.
  - exists None. split; [reflexivity|]. left. auto.
Qed.

Lemma built_wf input_dim his_stp bs lt dt model :
  wf_controller (built input_dim his_stp bs lt dt model).
Proof.
  assert (Hacp : length (np_alphas_cum_prod bs) = length bs)
    by (unfold np_alphas_cum_prod, np_alphas; now rewrite cumprod_length, length_map).
  assert (Hprev : length (np_alphas_cum_prod_prev bs) = Nat.max 1 (length bs)).
  { unfold np_alphas_cum_prod_prev. cbn [length].
    rewrite removelast_firstn_len, length_firstn, Hacp. lia. }
  constructor; unfold built;
    cbn -[zip_with np_alphas_cum_prod_prev np_alphas_cum_prod np_alphas];
    rewrite ?length_map, ?zip_with_length, ?length_map, ?zip_with_length,
      ?length_map, ?Hacp, ?Hprev; unfold np_alphas; rewrite ?length_map; lia.
Qed.
End InitFacts.

Section ScheduleTheorem.
Context {D F S : Type} {SD : Scalar D} {SF : Scalar F} {TF : Torch F S}.
Variable to_torch : D -> F.
Import GaussianDiffusion.

(** [alphas_cum_prod_prev[i]]: the cumulative product one index earlier,
    and 1 at index 0. *)
Definition prev_upto (a : list D) (i : nat) : D :=
  match i with
  | 0 => of_Z 1
  | Datatypes.S j => prod_upto a j
  end.

Lemma np_alphas_cum_prod_nth_error (bs : list D) i :
  i < length bs ->
  nth_error (np_alphas_cum_prod bs) i = Some (prod_upto (np_alphas bs) i).
Proof.
  intros Hi. unfold np_alphas_cum_prod. apply cumprod_nth_error.
  unfold np_alphas. now rewrite length_map.
Qed.

Lemma np_alphas_cum_prod_prev_nth_error (bs : list D) i :
  i < length bs ->
  nth_error (np_alphas_cum_prod_prev bs) i = Some (prev_upto (np_alphas bs) i).
Proof.
  intros Hi. unfold np_alphas_cum_prod_prev. destruct i as [|j]; [reflexivity|].
  cbn [nth_error prev_upto]. rewrite nth_error_removelast.
  - apply np_alphas_cum_prod_nth_error. lia.
  - unfold np_alphas_cum_prod, np_alphas. rewrite cumprod_length, length_map. lia.
Qed.

(** C4. Construction from a beta array (and valid type strings) succeeds
    and stores coefficient buffers that all have [num_time_steps = len(betas)]
    entries; entry [i] of each buffer is the float32 conversion of the value
    numpy computed from the betas: [alphas = 1 - betas],
    [alphas_cum_prod = alphas[0] * ... * alphas[i]], its square root,
    [sqrt(1 - alphas_cum_prod)], [sqrt(1 / alphas)], [sigma = sqrt(betas)],
    and [remove_noise_coeff =
    betas * (1 - alphas_cum_prod_prev / sqrt(1 - alphas_cum_prod))]
    with [alphas_cum_prod_prev] the cumulative product at [i - 1], and 1 at
    [i = 0]. *)
Theorem init_stores_schedule (input_dim conditional_dim : nat) (his_stp : Z)
    (bs : list D) (loss_type : string) (num_dit_blocks : Z)
    (diffusion_type : string) :
  In loss_type ["l1"; "l2"]%string ->
  In diffusion_type ["dit"; "unet"; "none"]%string ->
  exists self,
    __init__ to_torch input_dim conditional_dim his_stp (Some bs) loss_type
      num_dit_blocks diffusion_type = Ok self /\
    num_time_steps self = length bs /\
    wf_controller self /\
    forall i beta,
      nth_error bs i = Some beta ->
      let alpha := fsub (of_Z 1) beta in
      let acp := prod_upto (np_alphas bs) i in
      let acp_prev := prev_upto (np_alphas bs) i in
      nth_error (np_alphas bs) i = Some alpha /\
      nth_error (betas self) i = Some (to_torch beta) /\
      nth_error (alphas self) i = Some (to_torch alpha) /\
      nth_error (alphas_cum_prod self) i = Some (to_torch acp) /\
      nth_error (sqrt_alphas_cum_prod self) i = Some (to_torch (fsqrt acp)) /\
      nth_error (sqrt_one_minus_alphas_cum_prod self) i
      = Some (to_torch (fsqrt (fsub (of_Z 1) acp))) /\
      nth_error (reciprocal_sqrt_alphas self) i
      = Some (to_torch (fsqrt (fdiv (of_Z 1) alpha))) /\
      nth_error (sigma self) i = Some (to_torch (fsqrt beta)) /\
      nth_error (remove_noise_coeff self) i
      = Some (to_torch
                (fmul beta
                   (fsub (of_Z 1) (fdiv acp_prev (fsqrt (fsub (of_Z 1) acp)))))).
Proof.
  intros Hl Hd.
  destruct (init_ok to_torch input_dim conditional_dim his_stp bs num_dit_blocks Hl Hd)
    as (model & Hinit & _).
  eexists. split; [exact Hinit|]. split; [reflexivity|].
  split; [apply built_wf|].
  intros i beta Hb alpha acp acp_prev.
  assert (Hi : i < length bs) by (apply nth_error_Some; congruence).
  assert (Ha : nth_error (np_alphas bs) i = Some alpha)
    by (unfold np_alphas; now apply map_nth_error).
  pose proof (np_alphas_cum_prod_nth_error bs Hi) as Hacp.
  pose proof (np_alphas_cum_prod_prev_nth_error bs Hi) as Hprev.
  fold acp in Hacp. fold acp_prev in Hprev.
  unfold built;
    cbn -[zip_with np_alphas_cum_prod_prev np_alphas_cum_prod np_alphas].
  repeat split; auto; repeat apply map_nth_error; auto.
  apply zip_with_nth_error; auto.
  apply map_nth_error, zip_with_nth_error; auto.
  repeat apply map_nth_error; auto.
Qed.
End ScheduleTheorem.

(** ** The masked loss *)

Section MaskFacts.
Context {F : Type}.

Lemma concat_repeat_singleton (v : F) n : concat (repeat [v] n) = repeat v n.
Proof. induction n; simpl; congruence. Qed.

Lemma concat_repeat_repeat (v : F) c n :
  concat (repeat (repeat v c) n) = repeat v (n * c).
Proof.
  induction n as [|n IH]; simpl; auto. rewrite IH. symmetry. apply repeat_app.
Qed.

(** One value tiled over the step and coordinate axes. *)
Lemma tile_cell (v : F) n c : tile_data [n; c] [1; 1] [v] = repeat v (n * c).
Proof.
  simpl. rewrite concat_repeat_singleton, app_nil_r. apply concat_repeat_repeat.
Qed.

Lemma concat_map_flat_map {A B} (g : A -> list B) (ls : list (list A)) :
  concat (map (flat_map g) ls) = flat_map g (concat ls).
Proof.
  induction ls as [|l ls IH]; simpl; auto.
  rewrite IH, flat_map_app. reflexivity.
Qed.

(** [mask.view(b, a, 1, 1).repeat(1, 1, n, c)]: every (batch, agent) entry
    of the mask repeated over the [n * c] step and coordinate positions. *)
Lemma tile_mask b a n c (d : list F) :
  length d = b * a ->
  tile_data [1; 1; n; c] [b; a; 1; 1] d = flat_map (fun v => repeat v (n * c)) d.
Proof.
  intros Hd.
  change (tile_data [1; 1; n; c] [b; a; 1; 1] d)
    with (concat [concat (map (tile_data [1; n; c] [a; 1; 1])
                            (chunks (numel [a; 1; 1]) b d))]).
  cbn [concat]. rewrite app_nil_r.
  assert (Ha : numel [a; 1; 1] = a) by (simpl; lia). rewrite Ha.
  rewrite <- (concat_chunks a b d) at 2 by lia.
  rewrite <- concat_map_flat_map. f_equal.
  apply map_ext_in. intros row Hrow.
  assert (Hl : length row = a).
  { pose proof (chunks_each a b d ltac:(lia)) as Hall.
    rewrite Forall_forall in Hall. now apply Hall. }
  change (tile_data [1; n; c] [a; 1; 1] row)
    with (concat [concat (map (tile_data [n; c] [1; 1])
                            (chunks (numel [1; 1]) a row))]).
  cbn [concat]. rewrite app_nil_r.
  change (numel [1; 1]) with 1. rewrite chunks_one by assumption.
  rewrite map_map, flat_map_concat_map. f_equal.
  apply map_ext. intros v. apply tile_cell.
Qed.
End MaskFacts.

Section LossFacts.
Context {F S : Type} {SF : Scalar F} {TF : Torch F S}.
Import GaussianDiffusion.
Local Open Scope se_scope.

Lemma py_view_mask b a (mask : tensor F) :
  numel (shape mask) = b * a ->
  py_view [Z.of_nat b; Z.of_nat a; 1; 1]%Z mask = Ok (mkTensor [b; a; 1; 1] (data mask)).
Proof.
  intros Hm. unfold py_view.
  assert (Hb1 : (Z.of_nat b <? -1)%Z = false) by (apply Z.ltb_ge; lia).
  assert (Ha1 : (Z.of_nat a <? -1)%Z = false) by (apply Z.ltb_ge; lia).
  assert (Hb2 : (Z.of_nat b =? -1)%Z = false) by (apply Z.eqb_neq; lia).
  assert (Ha2 : (Z.of_nat a =? -1)%Z = false) by (apply Z.eqb_neq; lia).
  cbn [existsb filter]. rewrite Hb1, Ha1, Hb2, Ha2.
  cbn [orb Z.ltb Z.compare Z.eqb Pos.compare Pos.compare_cont length map].
  unfold reshape. cbn [map]. rewrite !Nat2Z.id.
  change (Z.to_nat 1) with 1.
  replace (numel [b; a; 1; 1]) with (b * a) by (simpl; lia).
  rewrite Hm, Nat.eqb_refl. reflexivity.
Qed.

Lemma trepeat_mask b a n c (d : list F) :
  trepeat [1; 1; n; c] (mkTensor [b; a; 1; 1] d) =
  Ok (mkTensor [b; a; n; c] (tile_data [1; 1; n; c] [b; a; 1; 1] d)).
Proof.
  unfold trepeat, rank, pad_shape. cbn [shape data length Nat.sub repeat app].
  change (4 <? 4) with false. cbv iota. cbn [zip_with].
  rewrite !Nat.mul_1_l, !Nat.mul_1_r. reflexivity.
Qed.

Lemma tbin_scalars (f : F -> F -> F) (x y : F) :
  tbin f (mkTensor [] [x]) (mkTensor [] [y]) = Ok (mkTensor [] [f x y]).
Proof. reflexivity. Qed.

(** The masked loss of the spec on the flat elements: the elementwise
    squared error, times the mask entry of its (batch, agent) pair, summed,
    over the sum of the broadcast mask; each sum is taken in the order the
    runtime adds in. *)
Definition masked_loss (est noise mask : list F) (k : nat) : F :=
  let loss := zip_with (fun e z => fmul (fsub e z) (fsub e z)) est noise in
  let mask_b := flat_map (fun v => repeat v k) mask in
  fdiv (total (zip_with fmul loss mask_b)) (total mask_b).

(** The run of [get_losses] on an enabled controller and consistent
    shapes. *)
Lemma get_losses_run (self : @GaussianDiffusion.t F S) m
    (delt his mask est : tensor F) (t : list Z) b a n (w : world S) (s2 : S) :
  let noise := mkTensor (shape delt) (fst (draw_normal (numel (shape delt)) (st w))) in
  let s1 := snd (draw_normal (numel (shape delt)) (st w)) in
  normal_draws_sized ->
  wf_controller self ->
  diffusion_type self <> "none"%string ->
  diffusion_model self = Some m ->
  his_delt_step self = Z.of_nat n ->
  shape delt = [b; a; n; input_dim self] -> wf_tensor delt ->
  in_range (num_time_steps self) t -> length t = b ->
  m (perturb_spec self delt t noise) t his s1 = (Ok est, s2) ->
  shape est = shape delt -> wf_tensor est ->
  numel (shape mask) = b * a -> wf_tensor mask ->
  get_losses self delt his mask t w =
  (Ok (mkTensor [] [masked_loss (data est) (data noise) (data mask)
                      (n * input_dim self)]),
   mkWorld s2 (log w ++ [EvRandn (shape delt); EvModel t])).
Proof.
  intros noise s1 Hdraw Hself Hen Hm Hn Hx Wx Ht Hb Hrun Hes Wes Hms Wm.
  assert (Wn : wf_tensor noise) by (unfold wf_tensor, noise; cbn; apply Hdraw).
  unfold get_losses. apply enabled_iff in Hen. rewrite Hen.
  erewrite bind_ok by apply randn_like_run. fold noise s1.
  rewrite (perturb_x_ok (b := b) (rest := [a; n; input_dim self]) Hself Ht Hb Hx)
    by auto.
  rewrite bind_lift_ok.
  erewrite bind_ok; cycle 1.
  { rewrite (call_model_run _ _ _ _ _ Hm). cbn [st log]. rewrite Hrun. reflexivity. }
  unfold shape_at. unfold perturb_spec at 1 2. cbn [shape]. rewrite Hx.
  cbn [nth_error]. rewrite !bind_lift_ok.
  unfold mse_loss. rewrite tbin_same by (auto; cbn; congruence).
  rewrite bind_lift_ok, py_view_mask, bind_lift_ok by assumption.
  rewrite Hn, size_of_ok by lia. rewrite Nat2Z.id, bind_lift_ok.
  rewrite trepeat_mask, bind_lift_ok.
  rewrite tile_mask by (unfold wf_tensor in Wm; lia).
  assert (Hnum : numel [b; a; n; input_dim self] = b * a * (n * input_dim self))
    by (simpl; lia).
  rewrite tbin_same.
  - rewrite bind_lift_ok. unfold tsum. cbn [data shape].
    rewrite tbin_scalars. unfold lift, masked_loss.
    rewrite <- app_assoc. reflexivity.
  - cbn [shape]. congruence.
  - unfold wf_tensor in *. cbn [shape data]. rewrite zip_with_length.
    unfold noise; cbn [data]. rewrite Hdraw, Wes. rewrite Hes. lia.
  - unfold wf_tensor in *. cbn [shape data]. rewrite Hnum.
    rewrite <- Wm in Hms. rewrite <- Hms.
    clear. induction (data mask) as [|v l IH]; simpl; auto.
    rewrite length_app, repeat_length, IH. lia.
Qed.
End LossFacts.

Section LossTheorems.
Context {F S : Type} {SF : Scalar F} {TF : Torch F S}.
Import GaussianDiffusion.
Local Open Scope se_scope.



(** [forward] on a controller with no timestep: the draw of the timestep
    raises before [get_losses] is reached. *)
Lemma forward_no_timestep (self : @GaussianDiffusion.t F S) data delt his mask b
    (w : world S) :
  num_time_steps self = 0 ->
  getitem data "predicted_his_traj_delt" = Ok delt ->
  getitem data "predicted_his_traj" = Ok his ->
  getitem data "predicted_traj_mask" = Ok mask ->
  shape_at 0 delt = Ok b ->
  forward self data w = (Raise EmptyRange, mkWorld (st w) (log w ++ [EvRandint 0 0 b])).
Proof.
  intros HT Hd Hh Hm Hb. unfold forward.
  rewrite Hd, bind_lift_ok, Hh, bind_lift_ok, Hm, bind_lift_ok, Hb, bind_lift_ok, HT.
  reflexivity.
Qed.

(** [forward] with at least one timestep: one integer draw per batch row
    from [[0, num_time_steps)], handed to [get_losses]. *)
Lemma forward_delegates (self : @GaussianDiffusion.t F S) data delt his mask b
    (w : world S) :
  0 < num_time_steps self ->
  getitem data "predicted_his_traj_delt" = Ok delt ->
  getitem data "predicted_his_traj" = Ok his ->
  getitem data "predicted_traj_mask" = Ok mask ->
  shape_at 0 delt = Ok b ->
  forward self data w =
  get_losses self delt his mask
    (fst (draw_int 0 (Z.of_nat (num_time_steps self)) b (st w)))
    (mkWorld (snd (draw_int 0 (Z.of_nat (num_time_steps self)) b (st w)))
       (log w ++ [EvRandint 0 (Z.of_nat (num_time_steps self)) b])).
Proof.
  intros HT Hd Hh Hm Hb. unfold forward.
  rewrite Hd, bind_lift_ok, Hh, bind_lift_ok, Hm, bind_lift_ok, Hb, bind_lift_ok.
  unfold randint, bind, emit, in_world. cbn [st log].
  destruct (Z.ltb_spec 0 (Z.of_nat (num_time_steps self))); [|lia].
  destruct (draw_int _ _ _ _). reflexivity.
Qed.

Lemma get_losses_disabled (self : @GaussianDiffusion.t F S) delt his mask t w :
  diffusion_type self = "none"%string ->
  get_losses self delt his mask t w = (Ok (mkTensor [] [of_Z 0]), w).
Proof. intros H. unfold get_losses, enabled. rewrite H. reflexivity. Qed.
End LossTheorems.

(** ** Division by an all-zero mask in IEEE arithmetic *)

Section ZeroMask.
Variables prec emax : Z.
Context {S : Type} (TF : Torch spec_float S).
Import IEEE.

Definition zero_or_nan (x : spec_float) : bool := is_zero x || is_nan x.

Lemma SFmul_zero_r x z :
  is_zero z = true -> zero_or_nan (SFmul prec emax x z) = true.
Proof. destruct z; try discriminate. intros _. destruct x; reflexivity. Qed.

Lemma SFadd_zero x y :
  is_zero x = true -> is_zero y = true -> is_zero (SFadd prec emax x y) = true.
Proof.
  destruct x as [sx| | |]; try discriminate.
  destruct y as [sy| | |]; try discriminate.
  destruct sx, sy; reflexivity.
Qed.

Lemma SFadd_zero_or_nan x y :
  zero_or_nan x = true -> zero_or_nan y = true ->
  zero_or_nan (SFadd prec emax x y) = true.
Proof.
  destruct x as [sx| | |]; try discriminate;
    destruct y as [sy| | |]; try discriminate; try reflexivity.
  destruct sx, sy; reflexivity.
Qed.

Lemma SFdiv_by_zero x y :
  zero_or_nan x = true -> is_zero y = true -> is_nan (SFdiv prec emax x y) = true.
Proof.
  destruct x as [sx| | |]; try discriminate;
    destruct y as [sy| | |]; try discriminate; reflexivity.
Qed.

(** Zeros add up to a zero, and zeros and NaNs to a zero or a NaN, in
    whatever order they are added. *)
Lemma sum_zero o l :
  Forall (fun x => is_zero x = true) l ->
  is_zero (@sum_in _ (scalar_at prec emax) o l) = true.
Proof.
  intros Hl. induction o as [i|o1 IH1 o2 IH2]; cbn [sum_in fadd scalar_at].
  - destruct (nth_in_or_default i l (@of_Z _ (scalar_at prec emax) 0)) as [Hin| ->].
    + rewrite Forall_forall in Hl. now apply Hl.
    + reflexivity.
  - now apply SFadd_zero.
Qed.

Lemma sum_zero_or_nan o l :
  Forall (fun x => zero_or_nan x = true) l ->
  zero_or_nan (@sum_in _ (scalar_at prec emax) o l) = true.
Proof.
  intros Hl. induction o as [i|o1 IH1 o2 IH2]; cbn [sum_in fadd scalar_at].
  - destruct (nth_in_or_default i l (@of_Z _ (scalar_at prec emax) 0)) as [Hin| ->].
    + rewrite Forall_forall in Hl. now apply Hl.
    + reflexivity.
  - now apply SFadd_zero_or_nan.
Qed.

Lemma masked_terms loss mask_b :
  Forall (fun x => is_zero x = true) mask_b ->
  Forall (fun x => zero_or_nan x = true) (zip_with (SFmul prec emax) loss mask_b).
Proof.
  intros Hm; revert loss; induction Hm as [|z l Hz Hl IH]; intros [|e loss]; simpl;
    constructor; auto using SFmul_zero_r.
Qed.

Lemma broadcast_zero (mask : list spec_float) k :
  Forall (fun x => is_zero x = true) mask ->
  Forall (fun x => is_zero x = true) (flat_map (fun v => repeat v k) mask).
Proof.
  induction 1 as [|v l Hv Hl IH]; simpl; [constructor|].
  apply Forall_app. split; [|exact IH].
  apply Forall_forall. intros x Hx. apply repeat_spec in Hx. now subst.
Qed.

(** The masked loss over a mask of zeros is not a number. *)
Lemma masked_loss_nan (est noise mask : list spec_float) k :
  Forall (fun x => is_zero x = true) mask ->
  is_nan (masked_loss (SF := scalar_at prec emax) (TF := TF) est noise mask k) = true.
Proof.
  intros Hm. unfold masked_loss, total. cbn [fdiv fmul scalar_at].
  apply SFdiv_by_zero.
  - apply sum_zero_or_nan. apply masked_terms. now apply broadcast_zero.
  - apply sum_zero. now apply broadcast_zero.
Qed.
End ZeroMask.

Section ZeroMaskTheorem.
Context {S : Type}.
Variable TF : Torch spec_float S.
Import GaussianDiffusion IEEE.

(** C8. On an enabled controller over float32 tensors, with consistent
    shapes and a mask whose entries are all zero (every agent masked out),
    [get_losses] raises nothing: the result is a 0-d tensor whose value,
    the quotient [sum(loss * mask) / sum(mask)] with both sums zero (or the
    numerator already not a number), is not a number.  Nothing in the run
    looks at [sum(mask)] before dividing. *)
Theorem get_losses_zero_mask_nan
    (self : @GaussianDiffusion.t spec_float S) m
    (delt his mask est : tensor spec_float) (t : list Z) b a n
    (w : world S) (s2 : S) :
  let noise := mkTensor (shape delt) (fst (draw_normal (numel (shape delt)) (st w))) in
  let s1 := snd (draw_normal (numel (shape delt)) (st w)) in
  @normal_draws_sized spec_float S TF ->
  wf_controller self ->
  diffusion_type self <> "none"%string ->
  diffusion_model self = Some m ->
  his_delt_step self = Z.of_nat n ->
  shape delt = [b; a; n; input_dim self] -> wf_tensor delt ->
  @in_range (num_time_steps self) t -> length t = b ->
  m (@perturb_spec _ _ binary32 self delt t noise) t his s1 = (Ok est, s2) ->
  shape est = shape delt -> wf_tensor est ->
  numel (shape mask) = b * a -> wf_tensor mask ->
  Forall (fun x => is_zero x = true) (data mask) ->
  exists v w',
    @get_losses _ _ binary32 TF self delt his mask t w = (Ok (mkTensor [] [v]), w') /\
    is_nan v = true.
Proof.
  intros noise s1 Hdraw Hself Hen Hm Hn Hx Wx Ht Hb Hrun Hes Wes Hms Wm Hz.
  eexists _, _. split.
  - eapply (@get_losses_run _ _ binary32 TF); eauto.
  - apply masked_loss_nan. exact Hz.
Qed.
End ZeroMaskTheorem.

(** ** The denoisers on trajectories of another length *)

Section DenoiserWidth.
Context {F S : Type} {SF : Scalar F} {TF : Torch F S}.
Local Open Scope se_scope.

Lemma py_view_column (d : list F) n :
  py_view [-1; 1; 1]%Z (mkTensor [n] d) = Ok (mkTensor [n; 1; 1] d).
Proof.
  unfold py_view. cbv zeta. cbn [shape data].
  change (existsb (fun d0 : Z => (d0 <? -1)%Z) [-1; 1; 1]%Z) with false.
  change (length (filter (fun d0 : Z => (d0 =? -1)%Z) [-1; 1; 1]%Z)) with 1.
  change (numel (map Z.to_nat (filter (fun d0 : Z => (0 <=? d0)%Z) [-1; 1; 1]%Z)))
    with 1.
  cbv iota. replace (numel [n]) with n by (simpl; lia).
  rewrite Nat.mod_1_r, Nat.div_1_r. reflexivity.
Qed.

Lemma t_column_shape (t : list Z) (obs_num : nat) :
  exists d, @t_column F SF t obs_num = Ok (mkTensor [length t; obs_num; 1] d).
Proof.
  unfold t_column. rewrite py_view_column. cbn [rbind].
  unfold trepeat, rank, pad_shape. cbn [shape data length Nat.sub repeat app].
  change (3 <? 3) with false. cbv iota. cbn [zip_with].
  rewrite !Nat.mul_1_l, !Nat.mul_1_r. eexists. reflexivity.
Qed.










End DenoiserWidth.

(** * The encoder-decoder on the shapes it was built for *)

Section UnetContract.
Context {F S : Type} {SF : Scalar F} {TF : Torch F S}.
Local Open Scope se_scope.

(** A batch norm over (batch, channels, agents) passes its training-mode
    check: more than one value per channel, or evaluation mode. *)
Definition rows_check_passes (b a : nat) : Prop :=
  forall st0 : S, training st0 && (b * a =? 1) = false.

Definition LinearLayer_dims (m : LinearLayer) (i o : nat) : Prop :=
  in_features (layer m) = i /\ out_features (layer m) = o /\
  num_features (normal m) = o /\ bn_ranks (normal m) = [2; 3].

Definition Decoder_dims (m : Decoder) (i mid o : nat) : Prop :=
  LinearLayer_dims (up m) i o /\ LinearLayer_dims (cat_layer m) mid o.

Lemma Linear_forward_ok (l : Linear) (x : tensor F) b a (s : S) :
  shape x = [b; a; in_features l] ->
  exists d s', Linear_forward l x s = (Ok (mkTensor [b; a; out_features l] d), s').
Proof.
  intros Hx. unfold Linear_forward, rank, last_dim. rewrite Hx.
  cbn [length last removelast app Nat.ltb Nat.leb]. rewrite Nat.eqb_refl. cbn [andb].
  destruct (layer_num _ _ _ _) as [d s']. eexists _, _. reflexivity.
Qed.

(** A trainable layer returns as many elements as its output shape holds. *)
Definition layers_sized : Prop :=
  forall path (x : tensor F) sh (s : S),
    length (fst (layer_num path x sh s)) = numel sh.

Lemma Linear_forward_sized (l : Linear) (x : tensor F) b a (s : S) :
  shape x = [b; a; in_features l] ->
  exists d s',
    Linear_forward l x s = (Ok (mkTensor [b; a; out_features l] d), s') /\
    (layers_sized -> length d = b * a * out_features l).
Proof.
  intros Hx. unfold Linear_forward, rank, last_dim. rewrite Hx.
  cbn [length last removelast app Nat.ltb Nat.leb]. rewrite Nat.eqb_refl. cbn [andb].
  destruct (layer_num (lin_path l) x [b; a; out_features l] s) as [d s'] eqn:E.
  exists d, s'. split; [reflexivity|]. intros Hs.
  specialize (Hs (lin_path l) x [b; a; out_features l] s). rewrite E in Hs.
  cbn [fst] in Hs. rewrite Hs. unfold numel. cbn [fold_right]. lia.
Qed.

Lemma py_transpose_last_two (x : tensor F) b a w :
  shape x = [b; a; w] ->
  exists d, py_transpose (-1) (-2) x = Ok (mkTensor [b; w; a] d).
Proof.
  destruct x as [sx dx]. cbn [shape]. intros ->. eexists. reflexivity.
Qed.

Lemma BatchNorm1d_ok (bn : BatchNorm) (x : tensor F) b k a (s : S) :
  num_features bn = k -> bn_ranks bn = [2; 3] ->
  shape x = [b; k; a] -> rows_check_passes b a ->
  exists d s', BatchNorm_forward bn x s = (Ok (mkTensor [b; k; a] d), s').
Proof.
  intros Hk Hr Hx Hb. unfold BatchNorm_forward, rank, size_prods.
  rewrite Hr, Hx, Hk. cbn [length existsb Nat.eqb negb orb nth skipn].
  replace (numel [a]) with a by (simpl; lia).
  rewrite Hb, Nat.eqb_refl, orb_true_r.
  destruct (layer_num _ _ _ _) as [d s']. eexists _, _. reflexivity.
Qed.

Lemma LinearLayer_forward_ok (m : LinearLayer) (x : tensor F) b a i o (s : S) :
  LinearLayer_dims m i o -> shape x = [b; a; i] -> rows_check_passes b a ->
  exists d s', LinearLayer_forward m x s = (Ok (mkTensor [b; a; o] d), s').
Proof.
  intros (Hi & Ho & Hn & Hr) Hx Hb. unfold LinearLayer_forward.
  destruct (@Linear_forward_ok (layer m) x b a s) as (d1 & s1 & H1); [congruence|].
  erewrite bind_ok by exact H1.
  destruct (@py_transpose_last_two (tmap leaky_relu (mkTensor [b; a; out_features (layer m)] d1))
              b a (out_features (layer m)) eq_refl) as (d2 & H2).
  rewrite H2, bind_lift_ok.
  destruct (@BatchNorm1d_ok (normal m) (mkTensor [b; out_features (layer m); a] d2)
              b (out_features (layer m)) a s1) as (d3 & s3 & H3); auto; [congruence|].
  erewrite bind_ok by exact H3.
  destruct (@py_transpose_last_two (mkTensor [b; out_features (layer m); a] d3)
              b (out_features (layer m)) a eq_refl) as (d4 & H4).
  rewrite H4, Ho. eexists _, _. reflexivity.
Qed.

Lemma cat_last_two_ok (x y : tensor F) b a w1 w2 :
  shape x = [b; a; w1] -> shape y = [b; a; w2] ->
  exists d, cat_last [x; y] = Ok (mkTensor [b; a; w1 + w2] d).
Proof.
  destruct x as [sx dx], y as [sy dy]. cbn [shape]. intros -> ->.
  unfold cat_last, rank, last_dim.
  cbn [shape length removelast Nat.ltb Nat.leb forallb shape_eqb last map fold_right app andb].
  rewrite !Nat.eqb_refl. cbn [andb]. rewrite Nat.add_0_r. eexists. reflexivity.
Qed.

Lemma cat_last_three_ok (x y z : tensor F) b a w1 w2 w3 :
  shape x = [b; a; w1] -> shape y = [b; a; w2] -> shape z = [b; a; w3] ->
  exists d, cat_last [x; y; z] = Ok (mkTensor [b; a; w1 + w2 + w3] d).
Proof.
  destruct x as [sx dx], y as [sy dy], z as [sz dz]. cbn [shape]. intros -> -> ->.
  unfold cat_last, rank, last_dim.
  cbn [shape length removelast Nat.ltb Nat.leb forallb shape_eqb last map fold_right app andb].
  rewrite !Nat.eqb_refl. cbn [andb]. rewrite Nat.add_0_r, Nat.add_assoc.
  eexists. reflexivity.
Qed.

Lemma Decoder_forward_ok (m : Decoder) (x1 x2 : tensor F) b a i k o (s : S) :
  Decoder_dims m i (o + k) o ->
  shape x1 = [b; a; i] -> shape x2 = [b; a; k] -> rows_check_passes b a ->
  exists d s', Decoder_forward m x1 x2 s = (Ok (mkTensor [b; a; o] d), s').
Proof.
  intros [Hup Hcat] H1 H2 Hb. unfold Decoder_forward.
  destruct (@LinearLayer_forward_ok (up m) x1 b a i o s Hup H1 Hb) as (d1 & s1 & Hu).
  erewrite bind_ok by exact Hu.
  destruct (@cat_last_two_ok (mkTensor [b; a; o] d1) x2 b a o k eq_refl H2) as (d2 & Hc).
  rewrite Hc, bind_lift_ok.
  apply (@LinearLayer_forward_ok (cat_layer m) _ b a (o + k) o s1 Hcat);
    [reflexivity | assumption].
Qed.


Lemma py_view_plain (dims : list nat) (x : tensor F) :
  numel (shape x) = numel dims ->
  py_view (map Z.of_nat dims) x = Ok (mkTensor dims (data x)).
Proof.
  unfold py_view.
  assert (H1 : existsb (fun d => (d <? -1)%Z) (map Z.of_nat dims) = false).
  { induction dims as [|d r IH]; [reflexivity|]. cbn [map existsb].
    rewrite IH. destruct (Z.ltb_spec (Z.of_nat d) (-1)); [lia | reflexivity]. }
  assert (H2 : filter (fun d => (d =? -1)%Z) (map Z.of_nat dims) = []).
  { clear. induction dims as [|d r IH]; [reflexivity|]. cbn [map filter].
    rewrite IH. destruct (Z.eqb_spec (Z.of_nat d) (-1)); [lia | reflexivity]. }
  assert (H3 : map Z.to_nat (map Z.of_nat dims) = dims).
  { clear. induction dims as [|d r IH]; [reflexivity|]. cbn [map].
    rewrite IH, Nat2Z.id. reflexivity. }
  intros Hn. rewrite H1, H2. cbv zeta. cbn [length]. unfold reshape.
  rewrite H3, Hn, Nat.eqb_refl. reflexivity.
Qed.

(** The layer widths of an encoder-decoder built for [n + 1] history steps
    with the encoder widths [d0], [d1], [d2], [d3]; the middle widths of the
    decoders are the constants of the source. *)
Definition Unet_dims (m : UnetDiffusionModel.t) (n i c d0 d1 d2 d3 : nat) : Prop :=
  UnetDiffusionModel.his_delt_step m = Z.of_nat n /\
  UnetDiffusionModel.input_dim m = i /\
  LinearLayer_dims (UnetDiffusionModel.layer1 m) (n * i + c * Datatypes.S n + 1) d0 /\
  LinearLayer_dims (UnetDiffusionModel.layer2 m) d0 d1 /\
  LinearLayer_dims (UnetDiffusionModel.layer3 m) d1 d2 /\
  LinearLayer_dims (UnetDiffusionModel.layer4 m) d2 d3 /\
  LinearLayer_dims (UnetDiffusionModel.layer5 m) d3 64 /\
  Decoder_dims (UnetDiffusionModel.decode4 m) 64 768 d2 /\
  Decoder_dims (UnetDiffusionModel.decode3 m) d2 384 d1 /\
  Decoder_dims (UnetDiffusionModel.decode2 m) d1 192 d0 /\
  in_features (UnetDiffusionModel.output_layer m) = d0 /\
  out_features (UnetDiffusionModel.output_layer m) = n * i.

Lemma Unet_init_dims path n i c d0 d1 d2 d3 more :
  exists m,
    @UnetDiffusionModel.__init__ path (Some (d0 :: d1 :: d2 :: d3 :: more)) i c
      (Z.of_nat (Datatypes.S n)) = Ok m /\
    Unet_dims m n i c d0 d1 d2 d3.
Proof.
  unfold UnetDiffusionModel.__init__, UnetDiffusionModel.dim_at.
  cbv zeta. cbn [nth_error rbind].
  replace ((Z.of_nat (Datatypes.S n) - 1) * Z.of_nat i
           + Z.of_nat c * Z.of_nat (Datatypes.S n) + 1)%Z
    with (Z.of_nat (n * i + c * Datatypes.S n + 1)) by lia.
  replace ((Z.of_nat (Datatypes.S n) - 1) * Z.of_nat i)%Z with (Z.of_nat (n * i)) by lia.
  replace (Z.of_nat (Datatypes.S n) - 1)%Z with (Z.of_nat n) by lia.
  repeat (first [ rewrite LinearLayer_init_ok by lia
                | rewrite Decoder_init_ok by lia
                | rewrite Linear_init_ok by lia ];
          cbn [nth_error rbind]).
  eexists. split; [reflexivity|].
  unfold Unet_dims, Decoder_dims, LinearLayer_dims.
  cbn [UnetDiffusionModel.his_delt_step UnetDiffusionModel.input_dim
       UnetDiffusionModel.layer1 UnetDiffusionModel.layer2 UnetDiffusionModel.layer3
       UnetDiffusionModel.layer4 UnetDiffusionModel.layer5 UnetDiffusionModel.decode4
       UnetDiffusionModel.decode3 UnetDiffusionModel.decode2
       UnetDiffusionModel.output_layer up cat_layer layer normal in_features
       out_features num_features bn_ranks BatchNorm1d].
  rewrite !Nat2Z.id. repeat split; reflexivity.
Qed.

(** With [dims] left out the encoder widths are 64, 128, 256 and 512. *)
Lemma Unet_init_default path n i c :
  exists m,
    @UnetDiffusionModel.__init__ path None i c (Z.of_nat (Datatypes.S n)) = Ok m /\
    Unet_dims m n i c 64 128 256 512.
Proof. exact (Unet_init_dims path n i c 64 128 256 512 []). Qed.

(** The input assembly and the five encoder layers of [forward]. *)
Ltac unet_encoders m x his t b a n i c Hdims Hb Ht :=
  destruct Hdims as (Hn & Hi & H1 & H2 & H3 & H4 & H5 & D4 & D3 & D2 & Oi & Oo);
  destruct x as [sx dx], his as [sh dh]; cbn [shape] in *; subst sx sh;
  unfold UnetDiffusionModel.forward;
  unfold shape_at, flatten, rank; cbn [shape data nth_error length];
  rewrite !bind_lift_ok;
  change (2 <? 4) with true; cbv iota; rewrite !bind_lift_ok;
  cbn [firstn skipn app];
  let dt := fresh "dt" in
  destruct (t_column_shape t a) as (dt & ->); rewrite bind_lift_ok, Ht;
  let d0 := fresh "d0" in
  destruct (@cat_last_three_ok (mkTensor [b; a; numel [n; i]] dx)
              (mkTensor [b; a; numel [Datatypes.S n; c]] dh) (mkTensor [b; a; 1] dt)
              b a _ _ _ eq_refl eq_refl eq_refl) as (d0 & ->);
  rewrite bind_lift_ok;
  replace (numel [n; i] + numel [Datatypes.S n; c] + 1)
    with (n * i + c * Datatypes.S n + 1) by (unfold numel; cbn [fold_right]; lia);
  let e1 := fresh "e1" in let s1 := fresh "s1" in let E1 := fresh "E1" in
  match goal with
  | |- context [bind (LinearLayer_forward _ ?y) _ ?s] =>
      destruct (@LinearLayer_forward_ok _ y b a _ _ s H1 eq_refl Hb) as (e1 & s1 & E1)
  end;
  erewrite bind_ok by exact E1;
  let e2 := fresh "e2" in let s2 := fresh "s2" in let E2 := fresh "E2" in
  destruct (@LinearLayer_forward_ok _ (mkTensor [b; a; _] e1)
              b a _ _ s1 H2 eq_refl Hb) as (e2 & s2 & E2);
  erewrite bind_ok by exact E2;
  let e3 := fresh "e3" in let s3 := fresh "s3" in let E3 := fresh "E3" in
  destruct (@LinearLayer_forward_ok _ (mkTensor [b; a; _] e2)
              b a _ _ s2 H3 eq_refl Hb) as (e3 & s3 & E3);
  erewrite bind_ok by exact E3;
  let e4 := fresh "e4" in let s4 := fresh "s4" in let E4 := fresh "E4" in
  destruct (@LinearLayer_forward_ok _ (mkTensor [b; a; _] e3)
              b a _ _ s3 H4 eq_refl Hb) as (e4 & s4 & E4);
  erewrite bind_ok by exact E4;
  let f := fresh "f" in let s5 := fresh "s5" in let E5 := fresh "E5" in
  destruct (@LinearLayer_forward_ok _ (mkTensor [b; a; _] e4)
              b a _ _ s4 H5 eq_refl Hb) as (f & s5 & E5);
  erewrite bind_ok by exact E5.

(** One decoder of [forward] whose widths add up. *)
Ltac unet_decoder D Hw Hb :=
  rewrite <- Hw in D;
  let d := fresh "dd" in let s := fresh "sd" in let E := fresh "Ed" in
  match goal with
  | |- context [bind (Decoder_forward _ (mkTensor [?b; ?a; _] ?u) (mkTensor _ ?v)) _ ?s0] =>
      destruct (@Decoder_forward_ok _ (mkTensor [b; a; _] u) (mkTensor [b; a; _] v)
                  b a _ _ _ s0 D eq_refl eq_refl Hb) as (d & s & E)
  end;
  erewrite bind_ok by exact E.


(** On a batch of the shapes its layers were sized for, an encoder-decoder
    whose encoder widths fit the decoders returns a tensor of the shape of
    the noisy input. *)
Lemma Unet_forward_sized (m : UnetDiffusionModel.t) (x his : tensor F) (t : list Z)
    b a n i c d0 d1 d2 d3 (s : S) :
  Unet_dims m n i c d0 d1 d2 d3 ->
  d2 + d3 = 768 -> d1 + d2 = 384 -> d0 + d1 = 192 ->
  rows_check_passes b a ->
  shape x = [b; a; n; i] -> shape his = [b; a; Datatypes.S n; c] -> length t = b ->
  exists d s',
    UnetDiffusionModel.forward m x t his s = (Ok (mkTensor [b; a; n; i] d), s') /\
    (layers_sized -> length d = b * a * (n * i)).
Proof.
  intros Hdims W4 W3 W2 Hb Hx Hh Ht.
  unet_encoders m x his t b a n i c Hdims Hb Ht.
  unet_decoder D4 W4 Hb. unet_decoder D3 W3 Hb. unet_decoder D2 W2 Hb.
  match goal with
  | |- context [bind (Linear_forward _ ?y) _ ?s0] =>
      destruct (@Linear_forward_sized (UnetDiffusionModel.output_layer m) y b a s0)
        as (o & s9 & E9 & Hlen); [cbn [shape]; congruence|]
  end.
  erewrite bind_ok by exact E9.
  rewrite Hn, Hi.
  change [Z.of_nat b; Z.of_nat a; Z.of_nat n; Z.of_nat i]
    with (map Z.of_nat [b; a; n; i]).
  rewrite py_view_plain
    by (cbn [tmap shape]; rewrite Oo; unfold numel; cbn [fold_right]; lia).
  eexists _, _. split; [reflexivity|].
  intros Hs. cbn [tmap data]. rewrite length_map, (Hlen Hs), Oo. reflexivity.
Qed.

Lemma Unet_forward_ok (m : UnetDiffusionModel.t) (x his : tensor F) (t : list Z)
    b a n i c d0 d1 d2 d3 (s : S) :
  Unet_dims m n i c d0 d1 d2 d3 ->
  d2 + d3 = 768 -> d1 + d2 = 384 -> d0 + d1 = 192 ->
  rows_check_passes b a ->
  shape x = [b; a; n; i] -> shape his = [b; a; Datatypes.S n; c] -> length t = b ->
  exists d s',
    UnetDiffusionModel.forward m x t his s = (Ok (mkTensor [b; a; n; i] d), s').
Proof.
  intros Hdims W4 W3 W2 Hb Hx Hh Ht.
  destruct (@Unet_forward_sized m x his t b a n i c d0 d1 d2 d3 s Hdims W4 W3 W2 Hb
              Hx Hh Ht) as (d & s' & E & _).
  eauto.
Qed.


(** The encoder-decoder honours the shape contract [sample] and
    [get_losses] rely on: noise of [10] steps, history of [11]. *)
Lemma Unet_shape_preserving (m : UnetDiffusionModel.t) (his : tensor F) b a i c :
  Unet_dims m 10 i c 64 128 256 512 -> rows_check_passes b a ->
  shape his = [b; a; 11; c] ->
  shape_preserving (UnetDiffusionModel.forward m) his [b; a; 10; i].
Proof.
  intros Hd Hb Hh x t st0 Hx Ht.
  destruct (@Unet_forward_ok m x his t b a 10 i c 64 128 256 512 st0 Hd
              eq_refl eq_refl eq_refl Hb Hx Hh Ht) as (d & s' & E).
  exists (mkTensor [b; a; 10; i] d), s'. split; [exact E | reflexivity].
Qed.

(** The denoiser an "unet" construction installs is that encoder-decoder. *)
Lemma installed_unet i c k (model : option (@GaussianDiffusion.denoiser F S)) :
  installed i c k "unet" model ->
  exists m, Unet_dims m 10 i c 64 128 256 512 /\
            model = Some (UnetDiffusionModel.forward m).
Proof.
  intros [[Hd _]|[[_ (m & Hm & ->)]|[Hd _]]]; try discriminate.
  destruct (Unet_init_default "diffusion_model" 10 i c) as (m' & Hm' & Hdims).
  change (Z.of_nat 11) with 11%Z in Hm'.
  rewrite Hm in Hm'. injection Hm' as <-. eauto.
Qed.
End UnetContract.


(** ** A controller whose denoiser refuses the caller's shapes *)

Section Refusal.
Context {F S : Type} {SF : Scalar F} {TF : Torch F S}.
Import GaussianDiffusion.
Local Open Scope se_scope.



End Refusal.

Section HisStp.
Context {D F S : Type} {SD : Scalar D} {SF : Scalar F} {TF : Torch F S}.
Variable to_torch : D -> F.
Import GaussianDiffusion.


End HisStp.

(** ** The cumulative product of the alphas *)

(** *** In binary64, as numpy computes it *)

Module Binary64Schedule.
Import IEEE.

Definition zero : spec_float := S754_zero false.
Definition one : spec_float := SFone 53 1024.

(** [alphas_cum_prod] as the constructor computes it from float64 betas. *)
Definition alphas_cum_prod (bs : list spec_float) : list spec_float :=
  @GaussianDiffusion.np_alphas_cum_prod spec_float binary64 bs.

(** Every beta lies strictly between 0 and 1. *)
Definition valid_betas (bs : list spec_float) : Prop :=
  Forall (fun b => SFltb zero b = true /\ SFltb b one = true) bs.

(** Each entry is strictly below the one before it. *)
Definition strictly_decreasing (l : list spec_float) : Prop :=
  forall i x y,
    nth_error l i = Some x -> nth_error l (1 + i) = Some y -> SFltb y x = true.

(** Every entry lies in (0, 1]. *)
Definition in_unit_interval (l : list spec_float) : Prop :=
  Forall (fun p => SFltb zero p = true /\ SFleb p one = true) l.

(** 2^-60 and 1 - 2^-53, both binary64 numbers strictly between 0 and 1. *)
Definition tiny : spec_float := S754_finite false (2 ^ 52) (-112).
Definition almost_one : spec_float := S754_finite false (2 ^ 53 - 1) (-53).

Lemma tiny_valid : valid_betas [tiny; tiny].
Proof. repeat constructor. Qed.

(** [1.0 - 2^-60] rounds to [1.0]: the cumulative product stays at 1. *)
Lemma tiny_schedule : alphas_cum_prod [tiny; tiny] = [one; one].
Proof. vm_compute. reflexivity. Qed.

Lemma almost_one_valid : valid_betas (repeat almost_one 21).
Proof. apply Forall_forall. intros b Hb. apply repeat_spec in Hb. subst. now split. Qed.

(** Twenty-one alphas of [2^-53]: the product underflows to zero. *)
Lemma underflow_schedule :
  nth_error (alphas_cum_prod (repeat almost_one 21)) 20 = Some zero.
Proof. vm_compute. reflexivity. Qed.

(** C6, as stated, fails on binary64 betas: with [betas = [2^-60, 2^-60]]
    (both strictly between 0 and 1) the cumulative product is [[1.0, 1.0]],
    which is not strictly decreasing. *)
Lemma schedule_not_strictly_decreasing :
  ~ (forall bs, valid_betas bs ->
       strictly_decreasing (alphas_cum_prod bs) /\
       in_unit_interval (alphas_cum_prod bs)).
Proof.
  intros H. destruct (H [tiny; tiny] tiny_valid) as [Hdec _].
  rewrite tiny_schedule in Hdec.
  specialize (Hdec 0 one one eq_refl eq_refl). discriminate.
Qed.

(** Nor do the entries stay above zero. *)
Lemma schedule_reaches_zero :
  valid_betas (repeat almost_one 21) /\
  ~ in_unit_interval (alphas_cum_prod (repeat almost_one 21)).
Proof.
  split; [apply almost_one_valid|]. intros H.
  unfold in_unit_interval in H. rewrite Forall_forall in H.
  destruct (H zero) as [Hpos _]; [|discriminate].
  eapply nth_error_In. apply underflow_schedule.
Qed.
End Binary64Schedule.

(** *** Over the reals, with a rounding after every operation *)

Module RoundedSchedule.
Local Open Scope R_scope.

(** Real arithmetic in which every operation is followed by the rounding
    [rnd]; the identity gives exact arithmetic. *)
Definition scalar (rnd : R -> R) : Scalar R := {|
  fadd := fun x y => rnd (x + y);
  fsub := fun x y => rnd (x - y);
  fmul := fun x y => rnd (x * y);
  fdiv := fun x y => rnd (x / y);
  fsqrt := fun x => rnd (sqrt x);
  of_Z := fun z => rnd (IZR z)
|}.

Definition alphas_cum_prod (rnd : R -> R) (bs : list R) : list R :=
  @GaussianDiffusion.np_alphas_cum_prod R (scalar rnd) bs.

Definition valid_betas (bs : list R) : Prop := Forall (fun b => 0 < b < 1) bs.

(** Consecutive entries are related by [rel], the later to the earlier. *)
Definition consecutive (rel : R -> R -> Prop) (l : list R) : Prop :=
  forall i x y,
    nth_error l i = Some x -> nth_error l (1 + i)%nat = Some y -> rel y x.

Fixpoint descends (rel : R -> R -> Prop) (x : R) (l : list R) : Prop :=
  match l with
  | [] => True
  | y :: l' => rel y x /\ descends rel y l'
  end.

Lemma descends_consecutive rel x l : descends rel x l -> consecutive rel (x :: l).
Proof.
  revert x; induction l as [|y l IH]; intros x Hd i a b Ha Hb.
  - destruct i; simpl in Hb; [discriminate|]. destruct i; discriminate.
  - destruct Hd as [Hyx Hd]. destruct i as [|i]; simpl in *.
    + injection Ha as <-. injection Hb as <-. exact Hyx.
    + exact (IH y Hd i a b Ha Hb).
Qed.

Section Rounding.
Variable rnd : R -> R.
Hypothesis rnd_monotone : forall x y, x <= y -> rnd x <= rnd y.
Hypothesis rnd_idempotent : forall x, rnd (rnd x) = rnd x.
Hypothesis rnd_0 : rnd 0 = 0.
Hypothesis rnd_1 : rnd 1 = 1.

Lemma rounded_between x : 0 <= x <= 1 -> 0 <= rnd x <= 1.
Proof.
  intros [H0 H1]. split.
  - rewrite <- rnd_0. now apply rnd_monotone.
  - rewrite <- rnd_1. now apply rnd_monotone.
Qed.

Lemma cumprod_from_rounded acc (a : list R) :
  Forall (fun x => 0 <= x <= 1) a ->
  0 <= acc <= 1 -> rnd acc = acc ->
  descends Rle acc (@cumprod_from R (scalar rnd) acc a) /\
  Forall (fun p => 0 <= p <= 1) (@cumprod_from R (scalar rnd) acc a).
Proof.
  intros Ha; revert acc; induction Ha as [|x a Hx Ha IH]; intros acc Hacc Hrep.
  - simpl. split; constructor.
  - cbn [cumprod_from fmul scalar].
    assert (Hp : 0 <= rnd (acc * x) <= 1) by (apply rounded_between; nra).
    assert (Hle : rnd (acc * x) <= acc)
      by (rewrite <- Hrep at 2; apply rnd_monotone; nra).
    destruct (IH (rnd (acc * x)) Hp (rnd_idempotent _)) as [Hd Hall].
    split; [split; assumption | constructor; assumption].
Qed.

Lemma alphas_rounded (bs : list R) :
  valid_betas bs ->
  Forall (fun x => 0 <= x <= 1 /\ rnd x = x)
    (@GaussianDiffusion.np_alphas R (scalar rnd) bs).
Proof.
  unfold GaussianDiffusion.np_alphas. cbn [fsub of_Z scalar].
  induction 1 as [|b bs Hb Hbs IH]; simpl; constructor; auto.
  rewrite rnd_1. split; [apply rounded_between; lra | apply rnd_idempotent].
Qed.

Lemma alphas_cum_prod_rounded (bs : list R) :
  valid_betas bs ->
  consecutive Rle (alphas_cum_prod rnd bs) /\
  Forall (fun p => 0 <= p <= 1) (alphas_cum_prod rnd bs).
Proof.
  intros Hbs. apply alphas_rounded in Hbs.
  unfold alphas_cum_prod, GaussianDiffusion.np_alphas_cum_prod.
  destruct Hbs as [|x a [Hx Hrep] Ha]; simpl.
  - split; [intros i ? ? Hi; destruct i; discriminate | constructor].
  - destruct (@cumprod_from_rounded x a) as [Hd Hall]; auto.
    { eapply Forall_impl; [|exact Ha]. now intros ? [? _]. }
    split; [now apply descends_consecutive | now constructor].
Qed.
End Rounding.

(** Exact arithmetic: no rounding. *)
Definition exact : R -> R := fun x => x.

Lemma cumprod_from_exact acc (a : list R) :
  Forall (fun x => 0 < x < 1) a ->
  0 < acc <= 1 ->
  descends Rlt acc (@cumprod_from R (scalar exact) acc a) /\
  Forall (fun p => 0 < p <= 1) (@cumprod_from R (scalar exact) acc a).
Proof.
  intros Ha; revert acc; induction Ha as [|x a Hx Ha IH]; intros acc Hacc.
  - simpl. split; constructor.
  - cbn [cumprod_from fmul scalar]. unfold exact at 1 3 5.
    assert (Hp : 0 < acc * x <= 1) by nra.
    destruct (IH (acc * x) Hp) as [Hd Hall].
    split; [split; [nra | assumption] | constructor; assumption].
Qed.

Lemma alphas_cum_prod_exact (bs : list R) :
  valid_betas bs ->
  consecutive Rlt (alphas_cum_prod exact bs) /\
  Forall (fun p => 0 < p <= 1) (alphas_cum_prod exact bs).
Proof.
  intros Hbs.
  assert (Ha : Forall (fun x => 0 < x < 1)
                 (@GaussianDiffusion.np_alphas R (scalar exact) bs)).
  { unfold GaussianDiffusion.np_alphas. cbn [fsub of_Z scalar]. unfold exact.
    induction Hbs as [|b bs Hb Hbs IH]; simpl; constructor; auto. lra. }
  unfold alphas_cum_prod, GaussianDiffusion.np_alphas_cum_prod.
  destruct Ha as [|x a Hx Ha]; simpl.
  - split; [intros i ? ? Hi; destruct i; discriminate | constructor].
  - destruct (@cumprod_from_exact x a) as [Hd Hall]; auto; [lra|].
    split; [now apply descends_consecutive | constructor; [lra | assumption]].
Qed.

(** C6, amended. Under any rounding that is monotone, idempotent and
    leaves 0 and 1 fixed (round-to-nearest of binary64 is one), the
    cumulative product of the alphas of betas strictly between 0 and 1 is
    monotonically non-increasing and every entry stays within [0, 1]; in
    exact arithmetic it is strictly decreasing and every entry stays within
    (0, 1]. *)
Theorem alphas_cum_prod_monotone (rnd : R -> R) (bs : list R) :
  (forall x y, x <= y -> rnd x <= rnd y) ->
  (forall x, rnd (rnd x) = rnd x) ->
  rnd 0 = 0 -> rnd 1 = 1 ->
  valid_betas bs ->
  (consecutive Rle (alphas_cum_prod rnd bs) /\
   Forall (fun p => 0 <= p <= 1) (alphas_cum_prod rnd bs)) /\
  (consecutive Rlt (alphas_cum_prod exact bs) /\
   Forall (fun p => 0 < p <= 1) (alphas_cum_prod exact bs)).
Proof.
  intros Hmono Hidem H0 H1 Hbs. split.
  - now apply alphas_cum_prod_rounded.
  - now apply alphas_cum_prod_exact.
Qed.
End RoundedSchedule.

(** * The theorems on concrete runs *)

Module Demo.
Import GaussianDiffusion IEEE.

#[local] Instance tensor_scalar : Scalar spec_float := binary32.
#[local] Instance numpy_scalar : Scalar spec_float | 10 := binary64.
#[local] Instance runtime : Torch spec_float nat := Stub.torch_of binary32.

Definition zero : spec_float := S754_zero false.
Definition one : spec_float := SFone 24 128.

(** 1/16, and a two-step schedule of it. *)
Definition sixteenth : spec_float := S754_finite false 1 (-4).
Definition schedule : list spec_float := [sixteenth; sixteenth].

(** A controller over the call-counting denoiser of [Stub]. *)
Definition controller (input_dim : nat) : @GaussianDiffusion.t spec_float nat :=
  @built spec_float spec_float nat binary64 to_float32 input_dim 2 schedule
    "l2" "unet" (Some Stub.counting).

Definition constant (s : list nat) (v : spec_float) : tensor spec_float :=
  mkTensor s (repeat v (numel s)).

Definition w0 : world nat := mkWorld 0 [].

Lemma controller_wf i : wf_controller (controller i).
Proof. apply built_wf. Defined.

Lemma controller_enabled i : diffusion_type (controller i) <> "none"%string.
Proof. discriminate. Defined.

Lemma counting_keeps_shape (his : tensor spec_float) s :
  shape_preserving (@Stub.counting spec_float) his s.
Proof. intros x t st0 Hx _. exists x, (st0 + 1). split; [reflexivity | exact Hx]. Defined.

Lemma stub_batch_check s : @batch_check_passes spec_float nat runtime s.
Proof. intros st0. reflexivity. Defined.

Lemma stub_draws_sized : @normal_draws_sized spec_float nat runtime.
Proof. intros k s. apply repeat_length. Defined.


Lemma stub_rows_check b a : @rows_check_passes spec_float nat runtime b a.
Proof. intros st0. reflexivity. Defined.


Lemma constant_wf s v : wf_tensor (constant s v).
Proof. unfold wf_tensor, constant. cbn [shape data]. apply repeat_length. Defined.

Lemma counting_answers (his : tensor spec_float) :
  wf_answers (@Stub.counting spec_float) his.
Proof. intros x t st0 out st1 Wx H. injection H as <- _. exact Wx. Defined.

(** C1 on a two-step schedule, one batch row of two agents and one step:
    the loop is the closed form, the run succeeds and logs two denoiser
    calls and one normal draw. *)
Lemma sample_runs_reverse_process_witness :
  exists x w1 y w',
    reverse_closed (controller 5) Stub.counting (constant [1; 2; 2; 5] zero) 1 2
      (constant [1; 2; 1; 5] one) w0 = (Ok x, w1) /\
    sample (controller 5) (constant [1; 2; 1; 5] one) (constant [1; 2; 2; 5] zero) w0
    = final_normalisation (controller 5) x w1 /\
    final_normalisation (controller 5) x w1 = (Ok y, w') /\
    shape y = [1; 2; 1; 5] /\
    log w' = [EvModel [1%Z]; EvRandn [1; 2; 1; 5]; EvModel [0%Z]].
Proof.
  destruct (sample_runs_reverse_process (controller 5) (constant [1; 2; 1; 5] one)
              (constant [1; 2; 2; 5] zero) w0) as [_ Hen].
  destruct (Hen (@controller_enabled 5) Stub.counting 1 2 1 [2; 2; 5]
              (controller_wf 5) eq_refl eq_refl stub_draws_sized
              (@counting_keeps_shape _ _) (@counting_answers _) eq_refl
              (constant_wf _ _) eq_refl)
    as (x & w1 & Hclosed & _ & Hlog & _ & _ & Hs & Hnormal).
  destruct (Hnormal (stub_batch_check _)) as (y & w' & Hn & Hy & Hl).
  exists x, w1, y, w'. repeat split; try assumption.
  rewrite Hl. exact Hlog.
Defined.



Definition x0 : tensor spec_float := constant [2; 1; 1; 5] one.
Definition t01 : list Z := [0; 1]%Z.

Lemma t01_in_range : in_range 2 t01.
Proof. repeat constructor; lia. Defined.

(** C2 on two batch rows at timesteps 0 and 1. *)
Lemma perturb_x_closed_form_witness :
  exists xt,
    perturb_x (controller 5) x0 t01 (constant [2; 1; 1; 5] zero) = Ok xt /\
    shape xt = [2; 1; 1; 5] /\
    nth_error (rows xt) 1 =
    Some (zip_with
            (fun x n =>
               fadd (fmul (coef (sqrt_alphas_cum_prod (controller 5)) 1) x)
                    (fmul (coef (sqrt_one_minus_alphas_cum_prod (controller 5)) 1) n))
            (repeat one 5) (repeat zero 5)).
Proof.
  destruct (@perturb_x_closed_form spec_float nat tensor_scalar (controller 5) x0
              (constant [2; 1; 1; 5] zero) t01 2 [1; 1; 5] (controller_wf 5)
              t01_in_range eq_refl eq_refl eq_refl (constant_wf _ _) (constant_wf _ _))
    as (xt & Hrun & Hs & Hrows).
  exists xt. repeat split; try assumption.
  apply (Hrows 1 1%Z (repeat one 5) (repeat zero 5)); reflexivity.
Defined.

(** C3 on the call-counting denoiser, which answers with its input. *)
Lemma remove_noise_closed_form_witness :
  exists y,
    remove_noise (controller 5) x0 t01 (constant [2; 1; 2; 5] zero) w0
    = (Ok y, mkWorld 1 [EvModel t01]) /\
    shape y = [2; 1; 1; 5] /\
    nth_error (rows y) 0 =
    Some (zip_with
            (fun x o =>
               fmul (fsub x (fmul (coef (remove_noise_coeff (controller 5)) 0) o))
                    (coef (reciprocal_sqrt_alphas (controller 5)) 0))
            (repeat one 5) (repeat one 5)).
Proof.
  destruct (@remove_noise_closed_form spec_float nat tensor_scalar (controller 5)
              Stub.counting x0 (constant [2; 1; 2; 5] zero) x0 t01 2 [1; 1; 5] w0 1
              (controller_wf 5) eq_refl eq_refl t01_in_range eq_refl eq_refl eq_refl
              (constant_wf _ _) (constant_wf _ _))
    as (y & Hrun & Hs & Hrows).
  exists y. repeat split; try assumption.
  apply (Hrows 0 0%Z (repeat one 5) (repeat one 5)); reflexivity.
Defined.

(** C4 on the two-step schedule. *)
Lemma init_stores_schedule_witness :
  exists self,
    __init__ (SD := binary64) to_float32 5 5 11 (Some schedule) "l2" 4 "unet" = Ok self /\
    num_time_steps self = 2 /\
    nth_error (alphas_cum_prod self) 1 =
    Some (to_float32 (@prod_upto _ binary64 (@np_alphas _ binary64 schedule) 1)).
Proof.
  destruct (@init_stores_schedule spec_float spec_float nat binary64 tensor_scalar
              runtime to_float32 5 5 11 schedule "l2" 4 "unet")
    as (self & Hinit & HT & _ & Hcoef).
  - simpl; auto.
  - simpl; auto.
  - exists self. repeat split; try assumption.
    destruct (Hcoef 1 sixteenth eq_refl) as (_ & _ & _ & Hacp & _). exact Hacp.
Defined.

Definition mask10 : tensor spec_float := mkTensor [2; 1] [one; zero].
Definition his0 : tensor spec_float := constant [2; 1; 2; 5] zero.
(** The noise the stub draws first, and the tensor [get_losses] hands to
    the denoiser. *)
Definition drawn : tensor spec_float :=
  mkTensor [2; 1; 1; 5] (fst (draw_normal (numel [2; 1; 1; 5]) 0)).
Definition perturbed : tensor spec_float := perturb_spec (controller 5) x0 t01 drawn.

Lemma perturbed_wf : wf_tensor perturbed.
Proof.
  unfold wf_tensor. cbn [perturbed perturb_spec shape data].
  rewrite zip_rows_length; reflexivity.
Defined.


(** C8 on a mask of zeros. *)
Lemma get_losses_zero_mask_nan_witness :
  exists v w',
    get_losses (controller 5) x0 his0 (constant [2; 1] zero) t01 w0
    = (Ok (mkTensor [] [v]), w') /\
    is_nan v = true.
Proof.
  apply (@get_losses_zero_mask_nan nat runtime (controller 5) Stub.counting x0 his0
           (constant [2; 1] zero) perturbed t01 2 1 1 w0 2
           stub_draws_sized (controller_wf 5) (@controller_enabled 5) eq_refl eq_refl
           eq_refl (constant_wf _ _) t01_in_range eq_refl eq_refl eq_refl perturbed_wf
           eq_refl (constant_wf _ _)).
  repeat constructor.
Defined.



(** C7: the controller built with diffusion disabled and an empty beta
    array has no timestep; [get_losses] on it returns the zero scalar, but
    [forward] raises at the draw of the timestep and never reaches it. *)
Theorem forward_raises_on_empty_schedule :
  exists self,
    __init__ (SD := binary64) to_float32 5 5 11 (Some []) "l2" 4 "none" = Ok self /\
    num_time_steps self = 0 /\
    get_losses self x0 his0 mask10 [] w0 = (Ok (mkTensor [] [zero]), w0) /\
    forward self [("predicted_his_traj_delt", x0); ("predicted_his_traj", his0);
                  ("predicted_traj_mask", mask10)]%string w0
    = (Raise EmptyRange, mkWorld 0 [EvRandint 0 0 2]).
Proof. eexists. split; [reflexivity|]. repeat split. Qed.

(** The constructor's own default, [betas=None], raises. *)
Lemma init_default_raises :
  __init__ (SD := binary64) to_float32 5 5 11 None "l2" 4 "none" = Raise TypeError.
Proof. reflexivity. Qed.

End Demo.

(** A rounding to run the schedule theorem on: down to a multiple of 1/16. *)
Module Sixteenths.
Import RoundedSchedule.
Local Open Scope R_scope.

Definition rnd (x : R) : R := IZR (Int_part (x * 16)) / 16.

Lemma Int_part_IZR (k : Z) : Int_part (IZR k) = k.
Proof. symmetry. apply Int_part_spec. lra. Qed.

Lemma Int_part_monotone x y : x <= y -> (Int_part x <= Int_part y)%Z.
Proof.
  intros Hxy. destruct (base_Int_part x) as [Hx _], (base_Int_part y) as [_ Hy].
  apply Z.lt_succ_r. apply lt_IZR. rewrite succ_IZR. lra.
Qed.

Lemma rnd_monotone x y : x <= y -> rnd x <= rnd y.
Proof.
  intros Hxy. unfold rnd.
  assert (H : IZR (Int_part (x * 16)) <= IZR (Int_part (y * 16)))
    by (apply IZR_le, Int_part_monotone; lra).
  lra.
Qed.

Lemma rnd_idempotent x : rnd (rnd x) = rnd x.
Proof.
  unfold rnd.
  replace (IZR (Int_part (x * 16)) / 16 * 16) with (IZR (Int_part (x * 16))) by field.
  now rewrite Int_part_IZR.
Qed.

Lemma rnd_0 : rnd 0 = 0.
Proof.
  unfold rnd. replace (0 * 16) with (IZR 0) by lra. rewrite Int_part_IZR. lra.
Qed.

Lemma rnd_1 : rnd 1 = 1.
Proof.
  unfold rnd. replace (1 * 16) with (IZR 16) by lra. rewrite Int_part_IZR. lra.
Qed.

Lemma half_quarter_valid : valid_betas [1 / 2; 1 / 4].
Proof. repeat constructor; lra. Qed.

(** C6, amended, under rounding to sixteenths and on the betas 1/2, 1/4. *)
Lemma alphas_cum_prod_monotone_witness :
  (consecutive Rle (alphas_cum_prod rnd [1 / 2; 1 / 4]) /\
   Forall (fun p => 0 <= p <= 1) (alphas_cum_prod rnd [1 / 2; 1 / 4])) /\
  (consecutive Rlt (alphas_cum_prod exact [1 / 2; 1 / 4]) /\
   Forall (fun p => 0 < p <= 1) (alphas_cum_prod exact [1 / 2; 1 / 4])).
Proof.
  exact (@alphas_cum_prod_monotone rnd [1 / 2; 1 / 4] rnd_monotone rnd_idempotent
           rnd_0 rnd_1 half_quarter_valid).
Defined.
End Sixteenths.

(** * Further properties of the layers *)

Section LayerProperties.
Context {F S : Type} {SF : Scalar F} {TF : Torch F S}.
Local Open Scope se_scope.





End LayerProperties.

(** * Further properties of the encoder-decoder *)

Section UnetProperties.
Context {F S : Type} {SF : Scalar F} {TF : Torch F S}.
Local Open Scope se_scope.

(** X4. An encoder-decoder built with the default [dims], for any
    [his_stp >= 1]: on a noisy input of shape (batch, agents, his_stp - 1,
    input_dim), one timestep per batch row and a history of shape (batch,
    agents, his_stp, conditional_dim), [forward] returns a tensor of the
    shape of the noisy input. *)
Theorem Unet_default_forward_shape path (m : UnetDiffusionModel.t)
    (x his : tensor F) (t : list Z) b a n i c (s : S) :
  UnetDiffusionModel.__init__ path None i c (Z.of_nat (Datatypes.S n)) = Ok m ->
  rows_check_passes b a ->
  shape x = [b; a; n; i] -> shape his = [b; a; Datatypes.S n; c] -> length t = b ->
  exists d s',
    UnetDiffusionModel.forward m x t his s = (Ok (mkTensor [b; a; n; i] d), s').
Proof.
  intros Hinit Hb Hx Hh Ht.
  destruct (Unet_init_default path n i c) as (m' & Hm' & Hdims).
  rewrite Hinit in Hm'. injection Hm' as <-.
  eapply Unet_forward_ok; try eassumption; reflexivity.
Qed.


(** X6. A [dims] list of fewer than four widths makes the constructor raise
    the index error of [self.__dims[k]]. *)
Theorem Unet_init_short_dims path (dims : list nat) i c (his_stp : Z) :
  length dims < 4 -> (1 <= his_stp)%Z ->
  @UnetDiffusionModel.__init__ path (Some dims) i c his_stp = Raise IndexOutOfBounds.
Proof.
  intros Hlen Hh. unfold UnetDiffusionModel.__init__, UnetDiffusionModel.dim_at.
  cbv zeta.
  assert (Hin : (0 <= (his_stp - 1) * Z.of_nat i + Z.of_nat c * his_stp + 1)%Z) by nia.
  destruct dims as [|d0 [|d1 [|d2 [|d3 more]]]]; cbn [length] in Hlen; try lia;
    cbn [nth_error rbind];
    repeat (rewrite LinearLayer_init_ok by lia; cbn [nth_error rbind]);
    reflexivity.
Qed.

(** The trainable layers do not switch the module between training and
    evaluation mode. *)
Definition layers_keep_mode : Prop :=
  forall path (x : tensor F) sh (s : S),
    training (snd (layer_num path x sh s)) = training s.

Lemma LinearLayer_forward_single_training (m : LinearLayer) (x : tensor F) b a i o
    (s : S) :
  LinearLayer_dims m i o -> shape x = [b; a; i] -> b * a = 1 ->
  layers_keep_mode -> training s = true ->
  exists s', LinearLayer_forward m x s = (Raise ValueError, s').
Proof.
  intros (Hi & Ho & Hn & Hr) Hx Hba Hmode Htr. unfold LinearLayer_forward.
  unfold Linear_forward at 1, rank, last_dim. rewrite Hx.
  cbn [length last removelast app Nat.ltb Nat.leb]. rewrite Hi, Nat.eqb_refl.
  cbn [andb]. unfold bind at 1.
  pose proof (Hmode (lin_path (layer m)) x [b; a; out_features (layer m)] s) as Hk.
  destruct (layer_num _ _ _ _) as [d1 s1]. cbn [snd] in Hk.
  destruct (@py_transpose_last_two F (tmap leaky_relu
              (mkTensor [b; a; out_features (layer m)] d1))
              b a (out_features (layer m)) eq_refl) as (d2 & H2).
  rewrite H2, bind_lift_ok.
  unfold bind, BatchNorm_forward, rank, size_prods. rewrite Hr.
  cbn [shape length existsb Nat.eqb negb orb nth skipn].
  replace (numel [a]) with a by (simpl; lia).
  rewrite Hk, Htr, Hba. cbn [andb Nat.eqb]. eauto.
Qed.

(** X7. In training mode one trajectory alone cannot be denoised: with
    [batch * agents = 1] the batch norm of the first layer sees one value
    per channel and raises. *)
Theorem Unet_forward_single_training path (m : UnetDiffusionModel.t)
    (x his : tensor F) (t : list Z) b a n i c (s : S) :
  UnetDiffusionModel.__init__ path None i c (Z.of_nat (Datatypes.S n)) = Ok m ->
  layers_keep_mode -> training s = true ->
  shape x = [b; a; n; i] -> shape his = [b; a; Datatypes.S n; c] -> length t = b ->
  b * a = 1 ->
  exists s', UnetDiffusionModel.forward m x t his s = (Raise ValueError, s').
Proof.
  intros Hinit Hmode Htr Hx Hh Ht Hba.
  destruct (Unet_init_default path n i c) as (m' & Hm' & Hdims).
  rewrite Hinit in Hm'. injection Hm' as <-.
  destruct Hdims as (_ & _ & H1 & _).
  destruct x as [sx dx], his as [sh dh]. cbn [shape] in *. subst sx sh.
  unfold UnetDiffusionModel.forward.
  unfold shape_at, flatten, rank. cbn [shape data nth_error length].
  rewrite !bind_lift_ok.
  change (2 <? 4) with true. cbv iota. rewrite !bind_lift_ok.
  cbn [firstn skipn app].
  destruct (t_column_shape t a) as (dt & ->). rewrite bind_lift_ok, Ht.
  destruct (@cat_last_three_ok F (mkTensor [b; a; numel [n; i]] dx)
              (mkTensor [b; a; numel [Datatypes.S n; c]] dh) (mkTensor [b; a; 1] dt)
              b a _ _ _ eq_refl eq_refl eq_refl) as (d0 & ->).
  rewrite bind_lift_ok.
  replace (numel [n; i] + numel [Datatypes.S n; c] + 1)
    with (n * i + c * Datatypes.S n + 1) by (unfold numel; cbn [fold_right]; lia).
  match goal with
  | |- context [bind (LinearLayer_forward _ ?y) _ ?s0] =>
      destruct (@LinearLayer_forward_single_training _ y b a _ _ s0 H1 eq_refl Hba
                  Hmode Htr) as (s' & E)
  end.
  exists s'. erewrite bind_raise by exact E. reflexivity.
Qed.
End UnetProperties.

(** * Further properties of the cross-attention denoiser *)

Section DitProperties.
Context {F S : Type} {SF : Scalar F} {TF : Torch F S}.
Local Open Scope se_scope.

(** The attention block of [net_works/transformer.py] as its constructor
    arguments describe it: on a (batch, agents, input_dim) state and a
    (batch, agents, conditional_dim) condition it returns a tensor of the
    shape of the state. *)
Definition attention_total : Prop :=
  forall path (i c : nat) (x h : tensor F) b a (s : S),
    shape x = [b; a; i] -> shape h = [b; a; c] ->
    exists y s',
      cross_attention path (Z.of_nat i) (Z.of_nat c) x h s = (Ok y, s') /\
      shape y = [b; a; i].

Lemma bind_assoc {St A B C} (m : SE St A) (k : A -> SE St B) (k' : B -> SE St C) w :
  bind (bind m k) k' w = bind m (fun a => bind (k a) k') w.
Proof. unfold bind. destruct (m w) as [[a|e] w']; reflexivity. Qed.

Lemma run_blocks_total (m : DitDiffusionModel.t) blocks (x his : tensor F) b a i c
    (s : S) :
  attention_total ->
  DitDiffusionModel.input_dim m = Z.of_nat i ->
  DitDiffusionModel.conditional_dim m = Z.of_nat c ->
  shape x = [b; a; i] -> shape his = [b; a; c] ->
  exists y s',
    DitDiffusionModel.run_blocks m blocks x his s = (Ok y, s') /\
    shape y = [b; a; i].
Proof.
  intros Hatt Hi Hc. revert x s. induction blocks as [|blk rest IH]; intros x s Hx Hh.
  - exists x, s. split; [reflexivity | exact Hx].
  - cbn [DitDiffusionModel.run_blocks]. rewrite Hi, Hc.
    destruct (Hatt blk i c x his b a s Hx Hh) as (y & s1 & Hrun & Hy).
    erewrite bind_ok by exact Hrun. now apply IH.
Qed.

Lemma LayerNorm_forward_ok (ln : LayerNorm) (x : tensor F) b a (s : S) :
  shape x = [b; a; normalized_shape ln] ->
  exists d s', LayerNorm_forward ln x s = (Ok (mkTensor [b; a; normalized_shape ln] d), s').
Proof.
  intros Hx. unfold LayerNorm_forward, rank, last_dim. rewrite Hx.
  cbn [length last Nat.ltb Nat.leb]. rewrite Nat.eqb_refl. cbn [andb].
  destruct (layer_num _ _ _ _) as [d s']. eexists _, _. reflexivity.
Qed.

(** [x.view(b, a, n, -1)]: the last size is inferred. *)
Lemma py_view_infer_last b a n i (x : tensor F) :
  numel (shape x) = b * a * n * i -> 0 < b * a * n ->
  py_view [Z.of_nat b; Z.of_nat a; Z.of_nat n; -1]%Z x = Ok (mkTensor [b; a; n; i] (data x)).
Proof.
  intros Hx Hp. unfold py_view.
  assert (L : forall k, (Z.of_nat k <? -1)%Z = false) by (intros; apply Z.ltb_ge; lia).
  assert (E : forall k, (Z.of_nat k =? -1)%Z = false) by (intros; apply Z.eqb_neq; lia).
  assert (P : forall k, (0 <=? Z.of_nat k)%Z = true) by (intros; apply Z.leb_le; lia).
  cbn [existsb filter]. rewrite !L, !E, !P.
  change (-1 <? -1)%Z with false. change (-1 =? -1)%Z with true.
  change (0 <=? -1)%Z with false. cbn [orb length map]. cbv zeta.
  rewrite !Nat2Z.id, !E.
  replace (numel [b; a; n]) with (b * a * n) by (unfold numel; cbn [fold_right]; lia).
  rewrite Hx. replace (b * a * n * i) with (i * (b * a * n)) by lia.
  destruct (Nat.eqb_spec (b * a * n) 0) as [H0|_]; [lia|].
  rewrite Nat.Div0.mod_mul, Nat.eqb_refl. cbn [orb negb].
  rewrite Nat.div_mul by lia. reflexivity.
Qed.

(** The widths of the projection head a construction builds. *)
Definition Dit_dims (m : DitDiffusionModel.t) (n i c : nat) : Prop :=
  let w := n * i + 1 in
  DitDiffusionModel.his_delt_step m = Z.of_nat n /\
  DitDiffusionModel.input_dim m = Z.of_nat w /\
  DitDiffusionModel.conditional_dim m = Z.of_nat (Datatypes.S n * c) /\
  in_features (DitDiffusionModel.linear_output_0 m) = w /\
  out_features (DitDiffusionModel.linear_output_0 m) = w * 2 /\
  normalized_shape (DitDiffusionModel.linear_output_1 m) = w * 2 /\
  in_features (DitDiffusionModel.linear_output_3 m) = w * 2 /\
  out_features (DitDiffusionModel.linear_output_3 m) = w /\
  normalized_shape (DitDiffusionModel.linear_output_4 m) = w /\
  in_features (DitDiffusionModel.linear_output_6 m) = w /\
  out_features (DitDiffusionModel.linear_output_6 m) = n * i.

Lemma Dit_init_dims path n i c (blocks : Z) :
  exists m,
    @DitDiffusionModel.__init__ path i c (Z.of_nat (Datatypes.S n)) blocks = Ok m /\
    Dit_dims m n i c.
Proof.
  unfold DitDiffusionModel.__init__. cbv zeta.
  replace ((Z.of_nat (Datatypes.S n) - 1) * Z.of_nat i + 1)%Z
    with (Z.of_nat (n * i + 1)) by lia.
  replace ((Z.of_nat (Datatypes.S n) - 1) * Z.of_nat i)%Z with (Z.of_nat (n * i)) by lia.
  replace (Z.of_nat (Datatypes.S n) - 1)%Z with (Z.of_nat n) by lia.
  replace (Z.of_nat (Datatypes.S n) * Z.of_nat c)%Z
    with (Z.of_nat (Datatypes.S n * c)) by lia.
  replace (Z.of_nat (n * i + 1) * 2)%Z with (Z.of_nat ((n * i + 1) * 2)) by lia.
  rewrite !Linear_init_ok by lia. cbn [rbind].
  eexists. split; [reflexivity|].
  unfold Dit_dims.
  cbn [DitDiffusionModel.his_delt_step DitDiffusionModel.input_dim
       DitDiffusionModel.conditional_dim DitDiffusionModel.linear_output_0
       DitDiffusionModel.linear_output_1 DitDiffusionModel.linear_output_3
       DitDiffusionModel.linear_output_4 DitDiffusionModel.linear_output_6
       in_features out_features normalized_shape].
  rewrite !Nat2Z.id. repeat split; reflexivity.
Qed.

(** X8. The cross-attention denoiser, built for any [his_stp >= 1] and any
    number of blocks: if its attention blocks keep the shape of their first
    argument, then on a non-empty noisy input of shape (batch, agents,
    his_stp - 1, input_dim), one timestep per batch row and a history of
    shape (batch, agents, his_stp, conditional_dim), [forward] returns a
    tensor of the shape of the noisy input: the last size, written [-1] in
    the source, is inferred as [input_dim]. *)
Theorem Dit_forward_shape path (m : DitDiffusionModel.t) (x his : tensor F)
    (t : list Z) (blocks : Z) b a n i c (s : S) :
  DitDiffusionModel.__init__ path i c (Z.of_nat (Datatypes.S n)) blocks = Ok m ->
  attention_total ->
  0 < b * a * n ->
  shape x = [b; a; n; i] -> shape his = [b; a; Datatypes.S n; c] -> length t = b ->
  exists d s',
    DitDiffusionModel.forward m x t his s = (Ok (mkTensor [b; a; n; i] d), s').
Proof.
  intros Hinit Hatt Hp Hx Hh Ht.
  destruct (Dit_init_dims path n i c blocks) as (m' & Hm' & Hdims).
  rewrite Hinit in Hm'. injection Hm' as <-.
  destruct Hdims as (Hn & Hi & Hc & I0 & O0 & N1 & I3 & O3 & N4 & I6 & O6).
  destruct x as [sx dx], his as [sh dh]. cbn [shape] in *. subst sx sh.
  unfold DitDiffusionModel.forward.
  unfold shape_at, flatten, rank. cbn [shape data nth_error length].
  rewrite !bind_lift_ok.
  change (2 <? 4) with true. cbv iota. rewrite !bind_lift_ok.
  cbn [firstn skipn app].
  destruct (t_column_shape t a) as (dt & ->). rewrite !bind_lift_ok, Ht.
  destruct (@cat_last_two_ok F (mkTensor [b; a; numel [n; i]] dx) (mkTensor [b; a; 1] dt)
              b a _ _ eq_refl eq_refl) as (d0 & ->).
  rewrite bind_lift_ok.
  replace (numel [n; i] + 1) with (n * i + 1) by (unfold numel; cbn [fold_right]; lia).
  replace (numel [Datatypes.S n; c]) with (Datatypes.S n * c)
    by (unfold numel; cbn [fold_right]; lia).
  destruct (@run_blocks_total m (DitDiffusionModel.dit_blocks m)
              (mkTensor [b; a; n * i + 1] d0) (mkTensor [b; a; Datatypes.S n * c] dh)
              b a (n * i + 1) (Datatypes.S n * c) s Hatt Hi Hc eq_refl eq_refl)
    as (y & s1 & Hrun & Hy).
  erewrite bind_ok by exact Hrun.
  unfold DitDiffusionModel.linear_output.
  destruct (@Linear_forward_ok F S TF (DitDiffusionModel.linear_output_0 m) y b a s1)
    as (y0 & s2 & E0); [congruence|].
  rewrite bind_assoc. erewrite bind_ok by exact E0.
  destruct (@LayerNorm_forward_ok (DitDiffusionModel.linear_output_1 m)
              (mkTensor [b; a; out_features (DitDiffusionModel.linear_output_0 m)] y0)
              b a s2) as (y1 & s3 & E1); [cbn [shape]; congruence|].
  rewrite bind_assoc. erewrite bind_ok by exact E1.
  destruct (@Linear_forward_ok F S TF (DitDiffusionModel.linear_output_3 m)
              (tmap relu (mkTensor [b; a; normalized_shape
                                             (DitDiffusionModel.linear_output_1 m)] y1))
              b a s3) as (y3 & s4 & E3); [cbn [tmap shape]; congruence|].
  rewrite bind_assoc. erewrite bind_ok by exact E3.
  destruct (@LayerNorm_forward_ok (DitDiffusionModel.linear_output_4 m)
              (mkTensor [b; a; out_features (DitDiffusionModel.linear_output_3 m)] y3)
              b a s4) as (y4 & s5 & E4); [cbn [shape]; congruence|].
  rewrite bind_assoc. erewrite bind_ok by exact E4.
  destruct (@Linear_forward_ok F S TF (DitDiffusionModel.linear_output_6 m)
              (tmap relu (mkTensor [b; a; normalized_shape
                                             (DitDiffusionModel.linear_output_4 m)] y4))
              b a s5) as (y6 & s6 & E6); [cbn [tmap shape]; congruence|].
  rewrite bind_assoc. erewrite bind_ok by exact E6.
  unfold bind at 1, ret at 1. rewrite Hn, O6.
  rewrite py_view_infer_last with (i := i)
    by (cbn [tmap shape]; unfold numel; cbn [fold_right]; lia).
  eexists _, _. reflexivity.
Qed.
End DitProperties.

(** * Further properties of the controller *)

Section ExtractProperties.
Context {F : Type} {SF : Scalar F}.
Import GaussianDiffusion.

Lemma gather_out_of_range (a : list F) (t : list Z) :
  ~ in_range (length a) t -> gather a t = Raise IndexOutOfBounds.
Proof.
  unfold gather, in_range. induction t as [|i t IH]; intros Hn.
  - exfalso. apply Hn. constructor.
  - cbn [mapR].
    destruct (Z.leb_spec 0 i); [|reflexivity].
    destruct (Z.ltb_spec i (Z.of_nat (length a))); [|reflexivity].
    cbn [andb].
    destruct (nth_error a (Z.to_nat i)) as [v|] eqn:Ev; [|reflexivity].
    rewrite IH; [reflexivity|].
    intros Ht. apply Hn. constructor; [lia | exact Ht].
Qed.

(** X9. [extract(a, t, x_shape)]: when every index of [t] is a position of
    [a], the result holds [a[t[k]]] at batch row [k] and has the shape
    (len(t), 1, ..., 1) of the rank of [x_shape]; when some index is
    negative or past the end of [a], the gather raises. *)
Theorem extract_gathers (a : list F) (t : list Z) (x_shape : list nat) :
  (in_range (length a) t ->
   extract a t x_shape =
   Ok (mkTensor (length t :: repeat 1 (length x_shape - 1)) (map (coef a) t))) /\
  (~ in_range (length a) t -> extract a t x_shape = Raise IndexOutOfBounds).
Proof.
  split.
  - apply extract_ok.
  - intros Hn. unfold extract. rewrite gather_out_of_range by exact Hn. reflexivity.
Qed.
End ExtractProperties.

Section ConstructorProperties.
Context {D F S : Type} {SD : Scalar D} {SF : Scalar F} {TF : Torch F S}.
Variable to_torch : D -> F.
Import GaussianDiffusion.
Local Open Scope se_scope.

Lemma existsb_eqb_In (x : string) (l : list string) :
  existsb (String.eqb x) l = true <-> In x l.
Proof.
  rewrite existsb_exists. split.
  - intros (y & Hy & E). apply String.eqb_eq in E. now subst.
  - intros H. exists x. split; [exact H | apply String.eqb_refl].
Qed.

Lemma existsb_eqb_not_In (x : string) (l : list string) :
  ~ In x l -> existsb (String.eqb x) l = false.
Proof.
  intros H. destruct (existsb (String.eqb x) l) eqn:E; [|reflexivity].
  apply existsb_eqb_In in E. contradiction.
Qed.

(** X10. The constructor checks [loss_type] first, then [diffusion_type],
    each with a [ValueError]; with both accepted and [betas] left at its
    default [None] it raises the [TypeError] of [1.0 - []], whatever the
    other arguments are. *)
Theorem init_rejects (input_dim conditional_dim : nat) (his_stp : Z)
    (betas : option (list D)) (loss_type : string) (num_dit_blocks : Z)
    (diffusion_type : string) :
  (~ In loss_type ["l1"; "l2"]%string ->
   __init__ to_torch input_dim conditional_dim his_stp betas loss_type
     num_dit_blocks diffusion_type = Raise ValueError) /\
  (In loss_type ["l1"; "l2"]%string ->
   ~ In diffusion_type ["dit"; "unet"; "none"]%string ->
   __init__ to_torch input_dim conditional_dim his_stp betas loss_type
     num_dit_blocks diffusion_type = Raise ValueError) /\
  (In loss_type ["l1"; "l2"]%string ->
   In diffusion_type ["dit"; "unet"; "none"]%string ->
   __init__ to_torch input_dim conditional_dim his_stp None loss_type
     num_dit_blocks diffusion_type = Raise TypeError).
Proof.
  unfold __init__. repeat split.
  - intros Hl. rewrite (existsb_eqb_not_In _ _ Hl). reflexivity.
  - intros Hl Hd. apply existsb_eqb_In in Hl. rewrite Hl.
    rewrite (existsb_eqb_not_In _ _ Hd). reflexivity.
  - intros Hl Hd. apply existsb_eqb_In in Hl, Hd. rewrite Hl, Hd. reflexivity.
Qed.

(** A construction that succeeds returned the record [built] describes. *)
Lemma init_inv (input_dim conditional_dim : nat) (his_stp : Z) (bs : list D)
    (loss_type : string) (num_dit_blocks : Z) (diffusion_type : string) self :
  __init__ to_torch input_dim conditional_dim his_stp (Some bs) loss_type
    num_dit_blocks diffusion_type = Ok self ->
  exists model,
    self = built to_torch input_dim his_stp bs loss_type diffusion_type model /\
    installed input_dim conditional_dim num_dit_blocks diffusion_type model.
Proof.
  intros Hinit.
  assert (Hl : In loss_type ["l1"; "l2"]%string).
  { apply existsb_eqb_In.
    destruct (existsb (String.eqb loss_type) ["l1"; "l2"]%string) eqn:E; [reflexivity|].
    unfold __init__ in Hinit. rewrite E in Hinit. discriminate. }
  assert (Hd : In diffusion_type ["dit"; "unet"; "none"]%string).
  { apply existsb_eqb_In.
    destruct (existsb (String.eqb diffusion_type) ["dit"; "unet"; "none"]%string) eqn:E;
      [reflexivity|].
    unfold __init__ in Hinit. apply existsb_eqb_In in Hl. rewrite Hl, E in Hinit.
    discriminate. }
  destruct (init_ok to_torch input_dim conditional_dim his_stp bs num_dit_blocks Hl Hd)
    as (model & Hok & Hinst).
  rewrite Hok in Hinit. injection Hinit as <-. eauto.
Qed.
End ConstructorProperties.

Section RunProperties.
Context {D F S : Type} {SD : Scalar D} {SF : Scalar F} {TF : Torch F S}.
Variable to_torch : D -> F.
Import GaussianDiffusion.
Local Open Scope se_scope.

(** Ten steps per channel are never a single value: the final batch norm
    of [sample] passes its training-mode check on 10-step noise. *)
Lemma ten_steps_check_passes b k a : @batch_check_passes F S TF [b; k; 10; a].
Proof.
  intros st0. unfold size_prods. cbn [nth skipn]. unfold numel. cbn [fold_right].
  destruct (Nat.eqb_spec (b * (10 * (a * 1))) 1) as [E|_]; [lia|].
  apply andb_false_r.
Qed.

(** X11. A controller constructed with [diffusion_type = "unet"] and
    [input_dim = 5], whatever [his_stp] it was given: [sample] on noise of
    shape (batch, agents, 10, 5) and a history of shape (batch, agents, 11,
    conditional_dim) succeeds, returns a tensor of the shape of the noise,
    and makes one denoiser call per entry of [betas] and a normal draw after
    each but the last. *)
Theorem sample_unet_end_to_end (conditional_dim : nat) (his_stp : Z) (bs : list D)
    (loss_type : string) (num_dit_blocks : Z) self (noise his : tensor F) b a
    (w : world S) :
  __init__ to_torch 5 conditional_dim his_stp (Some bs) loss_type num_dit_blocks "unet"
  = Ok self ->
  rows_check_passes b a ->
  shape noise = [b; a; 10; 5] -> shape his = [b; a; 11; conditional_dim] ->
  exists y w',
    sample self noise his w = (Ok y, w') /\
    shape y = [b; a; 10; 5] /\
    log w' = log w ++ sample_events (length bs) b [b; a; 10; 5] /\
    length (filter is_model (sample_events (length bs) b [b; a; 10; 5])) = length bs /\
    length (filter is_randn (sample_events (length bs) b [b; a; 10; 5]))
    = length bs - 1.
Proof.
  intros Hinit Hb Hx Hh.
  destruct (init_inv _ _ _ _ _ _ _ _ Hinit) as (model & -> & Hinst).
  destruct (installed_unet Hinst) as (m & Hdims & ->).
  set (self := built to_torch 5 his_stp bs loss_type "unet"
                 (Some (UnetDiffusionModel.forward m))).
  destruct (@sample_enabled_run F S SF TF self (UnetDiffusionModel.forward m) noise his
              b a 10 5 [a; 11; conditional_dim] w)
    as (x & d & w1 & _ & _ & Hlog & Hrun); auto.
  { apply built_wf. }
  { discriminate. }
  { eapply Unet_shape_preserving; eassumption. }
  destruct (@BatchNorm2d_ok F S TF "norm_output" 5 (mkTensor [b; 5; 10; a] d) b 10 a
              (st w1) eq_refl (ten_steps_check_passes b 5 a)) as (d' & st2 & Hbn).
  destruct (@py_transpose_1_last F (mkTensor [b; 5; 10; a] d') b 5 10 a eq_refl)
    as (d'' & Hd'').
  exists (mkTensor [b; a; 10; 5] d''), (mkWorld st2 (log w1)).
  rewrite Hrun. unfold bind at 1, in_world.
  change (norm_output self) with (BatchNorm2d "norm_output" 5). rewrite Hbn.
  rewrite Hd''. unfold lift. cbn [shape log].
  repeat split; auto using sample_events_models, sample_events_randn.
Qed.

(** X12. A controller constructed with [diffusion_type = "unet"] and the
    default [his_stp = 11]: [get_losses] on a ground-truth delta of shape
    (batch, agents, 10, input_dim), a history of shape (batch, agents, 11,
    conditional_dim), valid timestep indices and a (batch, agents) mask
    returns a 0-d tensor, after exactly one normal draw and one denoiser
    call. *)
Theorem get_losses_unet_end_to_end (input_dim conditional_dim : nat) (bs : list D)
    (loss_type : string) (num_dit_blocks : Z) self (delt his mask : tensor F)
    (t : list Z) b a (w : world S) :
  __init__ to_torch input_dim conditional_dim 11 (Some bs) loss_type num_dit_blocks
    "unet" = Ok self ->
  normal_draws_sized -> layers_sized -> rows_check_passes b a ->
  shape delt = [b; a; 10; input_dim] -> wf_tensor delt ->
  shape his = [b; a; 11; conditional_dim] ->
  in_range (length bs) t -> length t = b ->
  numel (shape mask) = b * a -> wf_tensor mask ->
  exists v w',
    get_losses self delt his mask t w = (Ok (mkTensor [] [v]), w') /\
    log w' = log w ++ [EvRandn [b; a; 10; input_dim]; EvModel t].
Proof.
  intros Hinit Hdraw Hsized Hb Hx Wx Hh Ht Hlen Hm Wm.
  destruct (init_inv _ _ _ _ _ _ _ _ Hinit) as (model & -> & Hinst).
  destruct (installed_unet Hinst) as (m & Hdims & ->).
  set (self := built to_torch input_dim 11 bs loss_type "unet"
                 (Some (UnetDiffusionModel.forward m))).
  set (noise := mkTensor (shape delt) (fst (draw_normal (numel (shape delt)) (st w)))).
  set (s1 := snd (draw_normal (numel (shape delt)) (st w))).
  destruct (@Unet_forward_sized F S SF TF m (perturb_spec self delt t noise) his t
              b a 10 input_dim conditional_dim 64 128 256 512 s1 Hdims
              eq_refl eq_refl eq_refl Hb) as (d & s2 & Hrun & Hd); auto.
  assert (Wes : wf_tensor (mkTensor [b; a; 10; input_dim] d)).
  { unfold wf_tensor. cbn [shape data]. rewrite (Hd Hsized).
    unfold numel. cbn [fold_right]. lia. }
  assert (Hen : diffusion_type self <> "none"%string) by discriminate.
  pose proof (@get_losses_run F S SF TF self (UnetDiffusionModel.forward m) delt his mask
                (mkTensor [b; a; 10; input_dim] d) t b a 10 w s2 Hdraw
                (built_wf to_torch _ _ _ _ _ _) Hen eq_refl eq_refl Hx Wx Ht Hlen Hrun
                (eq_sym Hx) Wes Hm Wm) as Hloss.
  eexists _, _. split; [exact Hloss|].
  cbn [log]. rewrite Hx. reflexivity.
Qed.
End RunProperties.

Section LossEdgeProperties.
Context {D F S : Type} {SD : Scalar D} {SF : Scalar F} {TF : Torch F S}.
Variable to_torch : D -> F.
Import GaussianDiffusion.
Local Open Scope se_scope.

(** Ten steps against [k] steps broadcast only for [k = 10] and [k = 1]. *)
Lemma tbin_steps_mismatch (f : F -> F -> F) b a i k (d1 d2 : list F) :
  k <> 10 -> k <> 1 ->
  tbin f (mkTensor [b; a; 10; i] d1) (mkTensor [b; a; k; i] d2) = Raise ShapeMismatch.
Proof.
  intros H10 H1. unfold tbin, rank. cbn [shape length Nat.max].
  rewrite !pad_shape_same by reflexivity.
  cbn [broadcast_shape]. rewrite Nat.eqb_refl.
  destruct (Nat.eqb_spec 10 k) as [E|_]; [congruence|].
  change (10 =? 1) with false. cbv iota.
  destruct (Nat.eqb_spec k 1) as [E|_]; [congruence|]. reflexivity.
Qed.

(** X13. The mask of [get_losses] is repeated [his_stp - 1] times along the
    step axis, while the denoiser is always the one for 11 history steps: a
    controller constructed with [diffusion_type = "unet"] and a [his_stp]
    other than 11 and 2 raises a shape mismatch at the masked product on the
    very inputs its denoiser accepts (10 noise steps, 11 history steps),
    after the normal draw and the denoiser call. *)
Theorem get_losses_steps_mismatch (input_dim conditional_dim k : nat) (bs : list D)
    (loss_type : string) (num_dit_blocks : Z) self (delt his mask : tensor F)
    (t : list Z) b a (w : world S) :
  __init__ to_torch input_dim conditional_dim (Z.of_nat (Datatypes.S k)) (Some bs)
    loss_type num_dit_blocks "unet" = Ok self ->
  k <> 10 -> k <> 1 ->
  normal_draws_sized -> rows_check_passes b a ->
  shape delt = [b; a; 10; input_dim] -> wf_tensor delt ->
  shape his = [b; a; 11; conditional_dim] ->
  in_range (length bs) t -> length t = b ->
  numel (shape mask) = b * a ->
  exists w',
    get_losses self delt his mask t w = (Raise ShapeMismatch, w') /\
    log w' = log w ++ [EvRandn [b; a; 10; input_dim]; EvModel t].
Proof.
  intros Hinit H10 H1 Hdraw Hb Hx Wx Hh Ht Hlen Hm.
  destruct (init_inv _ _ _ _ _ _ _ _ Hinit) as (model & -> & Hinst).
  destruct (installed_unet Hinst) as (m & Hdims & ->).
  set (self := built to_torch input_dim (Z.of_nat (Datatypes.S k)) bs loss_type "unet"
                 (Some (UnetDiffusionModel.forward m))).
  set (noise := mkTensor (shape delt) (fst (draw_normal (numel (shape delt)) (st w)))).
  set (s1 := snd (draw_normal (numel (shape delt)) (st w))).
  assert (Wn : wf_tensor noise) by (unfold wf_tensor, noise; cbn; apply Hdraw).
  assert (Hself : wf_controller self) by apply built_wf.
  destruct (@Unet_forward_ok F S SF TF m (perturb_spec self delt t noise) his t
              b a 10 input_dim conditional_dim 64 128 256 512 s1 Hdims
              eq_refl eq_refl eq_refl Hb) as (d & s2 & Hrun); auto.
  exists (mkWorld s2 (log w ++ [EvRandn [b; a; 10; input_dim]; EvModel t])).
  split; [|reflexivity].
  unfold get_losses. change (enabled self) with true. cbv iota.
  erewrite bind_ok by apply randn_like_run. fold noise s1.
  rewrite (perturb_x_ok (b := b) (rest := [a; 10; input_dim]) Hself Ht Hlen Hx)
    by auto.
  rewrite bind_lift_ok.
  erewrite bind_ok; cycle 1.
  { rewrite (call_model_run self (m := UnetDiffusionModel.forward m) _ _ _ _ eq_refl).
    cbn [st log]. rewrite Hrun. reflexivity. }
  unfold shape_at. unfold perturb_spec at 1 2. cbn [shape]. rewrite Hx.
  cbn [nth_error]. rewrite !bind_lift_ok.
  unfold mse_loss. rewrite tbin_same_shape by (cbn [shape noise]; congruence).
  rewrite bind_lift_ok, py_view_mask, bind_lift_ok by assumption.
  replace (his_delt_step self) with (Z.of_nat k)
    by (unfold self, built; cbn [his_delt_step]; lia).
  rewrite size_of_ok by lia. rewrite Nat2Z.id, bind_lift_ok.
  rewrite trepeat_mask, bind_lift_ok. cbn [shape].
  change (GaussianDiffusion.input_dim self) with input_dim.
  rewrite tbin_steps_mismatch by assumption.
  unfold bind, lift. cbn [fst snd]. rewrite <- app_assoc. reflexivity.
Qed.

Lemma getitem_raises (data : list (string * tensor F)) key e :
  getitem data key = Raise e -> e = KeyError.
Proof.
  induction data as [|[k v] rest IH]; cbn [getitem].
  - congruence.
  - destruct (String.eqb k key); [discriminate | exact IH].
Qed.

(** X14. [forward] reads its three entries of the batch first: when one of
    them is missing it raises the [KeyError] before any random draw, and
    leaves the state and the log as they were. *)
Theorem forward_missing_key (self : @GaussianDiffusion.t F S)
    (data : list (string * tensor F)) (key : string) (w : world S) :
  In key ["predicted_his_traj_delt"; "predicted_his_traj"; "predicted_traj_mask"]%string ->
  getitem data key = Raise KeyError ->
  forward self data w = (Raise KeyError, w).
Proof.
  intros Hk Hmiss. unfold forward.
  destruct (getitem data "predicted_his_traj_delt") as [delt|e] eqn:E1.
  2: { apply getitem_raises in E1. subst e. reflexivity. }
  rewrite bind_lift_ok.
  destruct (getitem data "predicted_his_traj") as [his|e] eqn:E2.
  2: { apply getitem_raises in E2. subst e. reflexivity. }
  rewrite bind_lift_ok.
  destruct (getitem data "predicted_traj_mask") as [mask|e] eqn:E3.
  2: { apply getitem_raises in E3. subst e. reflexivity. }
  exfalso. cbn [In] in Hk. destruct Hk as [<-|[<-|[<-|[]]]]; congruence.
Qed.

(** X15. With diffusion disabled and at least one timestep, [forward]
    returns the zero scalar, but only after it has drawn the timestep batch:
    the generator is advanced by one integer draw that is never used. *)
Theorem forward_disabled_draws (self : @GaussianDiffusion.t F S)
    (data : list (string * tensor F)) (delt his mask : tensor F) b (w : world S) :
  diffusion_type self = "none"%string ->
  0 < num_time_steps self ->
  getitem data "predicted_his_traj_delt" = Ok delt ->
  getitem data "predicted_his_traj" = Ok his ->
  getitem data "predicted_traj_mask" = Ok mask ->
  shape_at 0 delt = Ok b ->
  forward self data w =
  (Ok (mkTensor [] [of_Z 0]),
   mkWorld (snd (draw_int 0 (Z.of_nat (num_time_steps self)) b (st w)))
     (log w ++ [EvRandint 0 (Z.of_nat (num_time_steps self)) b])).
Proof.
  intros Hnone HT Hd Hh Hm Hb.
  rewrite (forward_delegates self data w HT Hd Hh Hm Hb).
  apply get_losses_disabled. exact Hnone.
Qed.


(** X17. A controller constructed with [diffusion_type = "none"] holds no
    denoiser: [remove_noise], which [sample] guards but does not itself
    check, raises the [TypeError] of calling [None]. *)
Theorem remove_noise_disabled (input_dim conditional_dim : nat) (his_stp : Z)
    (bs : list D) (loss_type : string) (num_dit_blocks : Z) self
    (noise his : tensor F) (t : list Z) (w : world S) :
  __init__ to_torch input_dim conditional_dim his_stp (Some bs) loss_type
    num_dit_blocks "none" = Ok self ->
  remove_noise self noise t his w = (Raise TypeError, w).
Proof.
  intros Hinit.
  destruct (init_inv _ _ _ _ _ _ _ _ Hinit) as (model & -> & Hinst).
  destruct Hinst as [[_ ->]|[[Hd _]|[Hd _]]]; try discriminate.
  reflexivity.
Qed.

(** X18. [remove_noise] runs the denoiser before it looks the timesteps up:
    with an index outside the schedule the denoiser call has happened and
    is in the log when the gather raises. *)
Theorem remove_noise_bad_timestep (self : @GaussianDiffusion.t F S) m
    (noise his out : tensor F) (t : list Z) (w : world S) (s1 : S) :
  diffusion_model self = Some m ->
  m noise t his (st w) = (Ok out, s1) ->
  ~ in_range (length (remove_noise_coeff self)) t ->
  remove_noise self noise t his w =
  (Raise IndexOutOfBounds, mkWorld s1 (log w ++ [EvModel t])).
Proof.
  intros Hm Hrun Ht. rewrite (remove_noise_run _ _ _ _ _ Hm), Hrun.
  unfold remove_noise_pure, extract.
  rewrite gather_out_of_range by exact Ht. reflexivity.
Qed.
End LossEdgeProperties.

(** * The further properties on concrete runs *)

Module Runs.
Import GaussianDiffusion IEEE.

#[local] Existing Instance Demo.tensor_scalar.
#[local] Existing Instance Demo.numpy_scalar | 10.
#[local] Existing Instance Demo.runtime.

Abbreviation one := Demo.one.
Abbreviation zero := Demo.zero.
Abbreviation constant := Demo.constant.

Lemma stub_layers_sized : @layers_sized spec_float nat Demo.runtime.
Proof. intros path x sh s. apply repeat_length. Defined.

Lemma stub_attention_total : @attention_total spec_float nat Demo.runtime.
Proof. intros path i c x h b a s Hx Hh. exists x, s. split; [reflexivity | exact Hx]. Defined.





(** X4 on an encoder-decoder for [his_stp = 3]. *)
Lemma Unet_default_forward_shape_witness :
  exists m,
    UnetDiffusionModel.__init__ "unet" None 2 1 3 = Ok m /\
    exists d s',
      UnetDiffusionModel.forward m (constant [2; 1; 2; 2] one) [0; 1]%Z
        (constant [2; 1; 3; 1] zero) 0 = (Ok (mkTensor [2; 1; 2; 2] d), s').
Proof.
  destruct (Unet_init_default "unet" 2 2 1) as (m & Hm & _).
  exists m. split; [exact Hm|].
  exact (@Unet_default_forward_shape spec_float nat Demo.tensor_scalar Demo.runtime "unet"%string m
           (constant [2; 1; 2; 2] one) (constant [2; 1; 3; 1] zero) [0; 1]%Z
           2 1 2 2 1 0 Hm (Demo.stub_rows_check 2 1) eq_refl eq_refl eq_refl).
Defined.


(** X6 on three widths. *)
Lemma Unet_init_short_dims_witness :
  UnetDiffusionModel.__init__ "unet" (Some [64; 128; 256]) 5 5 11
  = Raise IndexOutOfBounds.
Proof.
  apply (@Unet_init_short_dims "unet"%string [64; 128; 256] 5 5 11%Z); [cbn [length] | ]; lia.
Defined.

(** The stand-in runtime switched to training mode. *)
Definition training_runtime : Torch spec_float nat := {|
  draw_normal := @draw_normal _ _ Demo.runtime;
  draw_int := @draw_int _ _ Demo.runtime;
  layer_num := @layer_num _ _ Demo.runtime;
  leaky_relu := fun x => x;
  relu := fun x => x;
  tanh := fun x => x;
  training := fun _ => true;
  reduction := @reduction _ _ Demo.runtime;
  reduction_complete := @reduction_complete _ _ Demo.runtime;
  cross_attention := fun path i c x h => ret x
|}.

Lemma training_keeps_mode : @layers_keep_mode spec_float nat training_runtime.
Proof. intros path x sh s. reflexivity. Defined.

(** X7 on one batch row of one agent. *)
Lemma Unet_forward_single_training_witness :
  exists m,
    UnetDiffusionModel.__init__ "unet" None 2 1 3 = Ok m /\
    exists s',
      @UnetDiffusionModel.forward spec_float nat Demo.tensor_scalar training_runtime m
        (constant [1; 1; 2; 2] one) [0]%Z (constant [1; 1; 3; 1] zero) 0
      = (Raise ValueError, s').
Proof.
  destruct (Unet_init_default "unet" 2 2 1) as (m & Hm & _).
  exists m. split; [exact Hm|].
  exact (@Unet_forward_single_training spec_float nat Demo.tensor_scalar
           training_runtime "unet"%string m (constant [1; 1; 2; 2] one)
           (constant [1; 1; 3; 1] zero) [0]%Z 1 1 2 2 1 0 Hm training_keeps_mode
           eq_refl eq_refl eq_refl eq_refl eq_refl).
Defined.

(** X8 with two attention blocks. *)
Lemma Dit_forward_shape_witness :
  exists m,
    DitDiffusionModel.__init__ "dit" 2 1 3 2 = Ok m /\
    exists d s',
      DitDiffusionModel.forward m (constant [2; 1; 2; 2] one) [0; 1]%Z
        (constant [2; 1; 3; 1] zero) 0 = (Ok (mkTensor [2; 1; 2; 2] d), s').
Proof.
  destruct (Dit_init_dims "dit" 2 2 1 2) as (m & Hm & _).
  exists m. split; [exact Hm|].
  refine (@Dit_forward_shape spec_float nat Demo.tensor_scalar Demo.runtime "dit"%string m
            (constant [2; 1; 2; 2] one) (constant [2; 1; 3; 1] zero) [0; 1]%Z 2%Z
            2 1 2 2 1 0 Hm stub_attention_total _ eq_refl eq_refl eq_refl).
  cbn. lia.
Defined.

Definition half : spec_float := S754_finite false 1 (-1).

Lemma in_range_10 : @in_range 2 [1; 0]%Z.
Proof. repeat constructor; lia. Defined.

Lemma not_in_range_2 : ~ @in_range 2 [0; 2]%Z.
Proof.
  intros H. inversion H as [|i l _ Hl]; subst. inversion Hl as [|j l' Hj _]; subst. lia.
Defined.

(** X9 on a two-entry buffer. *)
Lemma extract_gathers_witness :
  extract [half; one] [1; 0]%Z [2; 1; 1; 5]
  = Ok (mkTensor [2; 1; 1; 1] [one; half]) /\
  extract [half; one] [0; 2]%Z [2; 1; 1; 5] = Raise IndexOutOfBounds.
Proof.
  destruct (@extract_gathers spec_float Demo.tensor_scalar [half; one] [1; 0]%Z
              [2; 1; 1; 5]) as [Hok _].
  destruct (@extract_gathers spec_float Demo.tensor_scalar [half; one] [0; 2]%Z
              [2; 1; 1; 5]) as [_ Hbad].
  split; [exact (Hok in_range_10) | exact (Hbad not_in_range_2)].
Defined.

(** X10 on an unknown loss type, an unknown diffusion type and the default
    [betas]. *)
Lemma init_rejects_witness :
  __init__ (SD := binary64) to_float32 5 5 11 (Some Demo.schedule) "huber" 4 "unet"
  = Raise ValueError /\
  __init__ (SD := binary64) to_float32 5 5 11 (Some Demo.schedule) "l2" 4 "ddpm"
  = Raise ValueError /\
  __init__ (SD := binary64) to_float32 5 5 11 None "l1" 4 "none" = Raise TypeError.
Proof.
  destruct (@init_rejects spec_float spec_float nat binary64 Demo.tensor_scalar
              Demo.runtime to_float32 5 5 11%Z (Some Demo.schedule) "huber"%string 4%Z
              "unet"%string) as (Hloss & _ & _).
  destruct (@init_rejects spec_float spec_float nat binary64 Demo.tensor_scalar
              Demo.runtime to_float32 5 5 11%Z (Some Demo.schedule) "l2"%string 4%Z
              "ddpm"%string) as (_ & Htype & _).
  destruct (@init_rejects spec_float spec_float nat binary64 Demo.tensor_scalar
              Demo.runtime to_float32 5 5 11%Z (Some Demo.schedule) "l1"%string 4%Z
              "none"%string) as (_ & _ & Hbetas).
  split; [|split].
  - apply Hloss. cbn [In]. intros [H|[H|[]]]; discriminate H.
  - apply Htype.
    + cbn [In]. auto.
    + cbn [In]. intros [H|[H|[H|[]]]]; discriminate H.
  - apply Hbetas; cbn [In]; auto.
Defined.

Lemma l2_accepted : In "l2"%string ["l1"; "l2"]%string.
Proof. cbn [In]. auto. Defined.

Lemma unet_accepted : In "unet"%string ["dit"; "unet"; "none"]%string.
Proof. cbn [In]. auto. Defined.

Lemma none_accepted : In "none"%string ["dit"; "unet"; "none"]%string.
Proof. cbn [In]. auto. Defined.

(** X11 on a controller constructed with [his_stp = 7]. *)
Lemma sample_unet_end_to_end_witness :
  exists self,
    __init__ (SD := binary64) to_float32 5 5 7 (Some Demo.schedule) "l2" 4 "unet" = Ok self /\
    exists y w',
      sample self (constant [2; 2; 10; 5] one) (constant [2; 2; 11; 5] zero) Demo.w0
      = (Ok y, w') /\
      shape y = [2; 2; 10; 5] /\
      log w' = [EvModel [1; 1]%Z; EvRandn [2; 2; 10; 5]; EvModel [0; 0]%Z].
Proof.
  destruct (@init_ok spec_float spec_float nat binary64 Demo.tensor_scalar Demo.runtime
              to_float32 5 5 7%Z Demo.schedule "l2"%string 4%Z "unet"%string
              l2_accepted unet_accepted) as (model & Hinit & _).
  eexists. split; [exact Hinit|].
  destruct (@sample_unet_end_to_end spec_float spec_float nat binary64 Demo.tensor_scalar
              Demo.runtime to_float32 5 7%Z Demo.schedule "l2"%string 4%Z _
              (constant [2; 2; 10; 5] one) (constant [2; 2; 11; 5] zero) 2 2 Demo.w0
              Hinit (Demo.stub_rows_check 2 2) eq_refl eq_refl)
    as (y & w' & Hrun & Hy & Hlog & _).
  exists y, w'. repeat split; assumption.
Defined.

(** X12 on two batch rows of one agent. *)
Lemma get_losses_unet_end_to_end_witness :
  exists self,
    __init__ (SD := binary64) to_float32 5 5 11 (Some Demo.schedule) "l2" 4 "unet" = Ok self /\
    exists v w',
      get_losses self (constant [2; 1; 10; 5] one) (constant [2; 1; 11; 5] zero)
        Demo.mask10 Demo.t01 Demo.w0 = (Ok (mkTensor [] [v]), w') /\
      log w' = [EvRandn [2; 1; 10; 5]; EvModel Demo.t01].
Proof.
  destruct (@init_ok spec_float spec_float nat binary64 Demo.tensor_scalar Demo.runtime
              to_float32 5 5 11%Z Demo.schedule "l2"%string 4%Z "unet"%string
              l2_accepted unet_accepted) as (model & Hinit & _).
  eexists. split; [exact Hinit|].
  exact (@get_losses_unet_end_to_end spec_float spec_float nat binary64
           Demo.tensor_scalar Demo.runtime to_float32 5 5 Demo.schedule "l2"%string 4%Z _
           (constant [2; 1; 10; 5] one) (constant [2; 1; 11; 5] zero) Demo.mask10
           Demo.t01 2 1 Demo.w0 Hinit Demo.stub_draws_sized stub_layers_sized
           (Demo.stub_rows_check 2 1) eq_refl (Demo.constant_wf _ _) eq_refl
           Demo.t01_in_range eq_refl eq_refl eq_refl).
Defined.

Lemma six_is_not_ten : 6 <> 10.
Proof. discriminate. Defined.

Lemma six_is_not_one : 6 <> 1.
Proof. discriminate. Defined.

(** X13 on a controller constructed with [his_stp = 7]. *)
Lemma get_losses_steps_mismatch_witness :
  exists self,
    __init__ (SD := binary64) to_float32 5 5 7 (Some Demo.schedule) "l2" 4 "unet" = Ok self /\
    exists w',
      get_losses self (constant [2; 1; 10; 5] one) (constant [2; 1; 11; 5] zero)
        Demo.mask10 Demo.t01 Demo.w0 = (Raise ShapeMismatch, w') /\
      log w' = [EvRandn [2; 1; 10; 5]; EvModel Demo.t01].
Proof.
  destruct (@init_ok spec_float spec_float nat binary64 Demo.tensor_scalar Demo.runtime
              to_float32 5 5 7%Z Demo.schedule "l2"%string 4%Z "unet"%string
              l2_accepted unet_accepted) as (model & Hinit & _).
  eexists. split; [exact Hinit|].
  exact (@get_losses_steps_mismatch spec_float spec_float nat binary64
           Demo.tensor_scalar Demo.runtime to_float32 5 5 6 Demo.schedule "l2"%string 4%Z _
           (constant [2; 1; 10; 5] one) (constant [2; 1; 11; 5] zero) Demo.mask10
           Demo.t01 2 1 Demo.w0 Hinit six_is_not_ten six_is_not_one
           Demo.stub_draws_sized (Demo.stub_rows_check 2 1) eq_refl
           (Demo.constant_wf _ _) eq_refl Demo.t01_in_range eq_refl eq_refl).
Defined.

Lemma history_key_listed :
  In "predicted_his_traj"%string
    ["predicted_his_traj_delt"; "predicted_his_traj"; "predicted_traj_mask"]%string.
Proof. cbn [In]. auto. Defined.

(** X14 on a batch without its history. *)
Lemma forward_missing_key_witness :
  forward (Demo.controller 5)
    [("predicted_his_traj_delt"%string, Demo.x0);
     ("predicted_traj_mask"%string, Demo.mask10)] Demo.w0
  = (Raise KeyError, Demo.w0).
Proof.
  exact (@forward_missing_key spec_float nat Demo.tensor_scalar Demo.runtime
           (Demo.controller 5)
           [("predicted_his_traj_delt"%string, Demo.x0);
            ("predicted_traj_mask"%string, Demo.mask10)]
           "predicted_his_traj"%string Demo.w0 history_key_listed eq_refl).
Defined.

(** A controller with diffusion disabled over the two-step schedule. *)
Definition disabled : @GaussianDiffusion.t spec_float nat :=
  @built spec_float spec_float nat binary64 to_float32 5 11 Demo.schedule
    "l2" "none" None.

Definition batch : list (string * tensor spec_float) :=
  [("predicted_his_traj_delt"%string, Demo.x0);
   ("predicted_his_traj"%string, Demo.his0);
   ("predicted_traj_mask"%string, Demo.mask10)].

Lemma two_steps : 0 < num_time_steps disabled.
Proof. cbn. lia. Defined.

(** X15: the zero scalar, and one integer draw in the log. *)
Lemma forward_disabled_draws_witness :
  forward disabled batch Demo.w0
  = (Ok (mkTensor [] [zero]), mkWorld 1 [EvRandint 0 2 2]).
Proof.
  exact (@forward_disabled_draws spec_float nat Demo.tensor_scalar Demo.runtime disabled
           batch Demo.x0 Demo.his0 Demo.mask10 2 Demo.w0 eq_refl two_steps
           eq_refl eq_refl eq_refl eq_refl).
Defined.




(** X17 on a controller constructed with diffusion disabled. *)
Lemma remove_noise_disabled_witness :
  exists self,
    __init__ (SD := binary64) to_float32 5 5 11 (Some Demo.schedule) "l2" 4 "none" = Ok self /\
    remove_noise self Demo.x0 Demo.t01 Demo.his0 Demo.w0 = (Raise TypeError, Demo.w0).
Proof.
  destruct (@init_ok spec_float spec_float nat binary64 Demo.tensor_scalar Demo.runtime
              to_float32 5 5 11%Z Demo.schedule "l2"%string 4%Z "none"%string
              l2_accepted none_accepted) as (model & Hinit & _).
  eexists. split; [exact Hinit|].
  exact (@remove_noise_disabled spec_float spec_float nat binary64 Demo.tensor_scalar
           Demo.runtime to_float32 5 5 11%Z Demo.schedule "l2"%string 4%Z _
           Demo.x0 Demo.his0 Demo.t01 Demo.w0 Hinit).
Defined.

(** X18 on the timestep 2 of a two-step schedule. *)
Lemma remove_noise_bad_timestep_witness :
  remove_noise (Demo.controller 5) Demo.x0 [0; 2]%Z Demo.his0 Demo.w0
  = (Raise IndexOutOfBounds, mkWorld 1 [EvModel [0; 2]%Z]).
Proof.
  exact (remove_noise_bad_timestep (Demo.controller 5) (m := Stub.counting) Demo.x0
           Demo.his0 (out := Demo.x0) (t := [0; 2]%Z) Demo.w0 (s1 := 1)
           eq_refl eq_refl not_in_range_2).
Defined.
End Runs.
